(** * Video-processing service (FINAL): codec, frame buffer, metrics,
      orchestrator and worker body, embedded from the Python sources.

    Each [Module] below embeds one source file:
    - [stats]    : src/FINAL/src/metrics/stats.py
    - [writer]   : src/FINAL/src/storage/writer.py
    - [messages] : src/FINAL/src/protocol/messages.py
    - [worker]   : src/FINAL/src/worker.py
    - [server]   : src/FINAL/src/server.py

    Python integers are [Z]; Python floats are IEEE binary64 numbers
    ([PrimFloat.float]); dictionaries are stdpp [gmap]s; exceptions are an
    explicit [result] type. *)

From Stdlib Require Import ZArith QArith Qround Floats Lqa Lia List Ascii String.
From stdpp Require Import gmap strings list fin_maps pretty.

Set Warnings "-inexact-float,-register-all".
Local Open Scope Z_scope.

(* ===================================================================== *)
(** * Python runtime: exceptions, results, indexing, numbers *)
(* ===================================================================== *)

(** The exception classes the embedded code can raise. *)
Inductive exn : Type :=
| IndexError
| TypeError
| AttributeError
| OverflowError
| ZeroDivisionError
| ValueError (msg : string)
| RuntimeError (msg : string)
| struct_error
| UnicodeDecodeError
| JSONDecodeError
| OSError
| cv2_error
| IncompleteReadError
| TimeoutError
| RedisError
| BrokerError
| ProtocolError (msg : string)
| Retry.

Inductive result (A : Type) : Type :=
| Return (a : A)
| Raise (e : exn).
Arguments Return {A} a.
Arguments Raise {A} e.

Definition rbind {A B} (r : result A) (k : A -> result B) : result B :=
  match r with
  | Return a => k a
  | Raise e => Raise e
  end.

Notation "x <-! r ; k" := (rbind r (fun x => k))
  (at level 100, r at next level, right associativity).

(** [l[i]] on a Python list: negative indices count from the end, anything
    outside [-len, len) raises [IndexError]. *)
Definition py_index {A} (l : list A) (i : Z) : result A :=
  let n := Z.of_nat (length l) in
  let j := if i <? 0 then i + n else i in
  if (0 <=? j) && (j <? n) then
    match l !! Z.to_nat j with
    | Some x => Return x
    | None => Raise IndexError
    end
  else Raise IndexError.

(** The arithmetic the metrics code performs on latencies and times.
    [of_int] is the implicit int-to-float conversion of mixed arithmetic,
    [int_of] is [int(x)] (truncation toward zero). *)
Class Number (T : Type) := {
  of_int : Z -> T;
  nadd : T -> T -> T;
  nsub : T -> T -> T;
  nmul : T -> T -> T;
  ndiv : T -> T -> T;
  nlt : T -> T -> bool;
  neqb : T -> T -> bool;
  int_of : T -> result Z
}.

(** ** Binary64 floats: what CPython computes. *)

Definition float_of_int (z : Z) : float :=
  SF2Prim (binary_normalize prec emax z 0 false).

Definition float_trunc (x : float) : result Z :=
  match Prim2SF x with
  | S754_zero _ => Return 0
  | S754_finite s m e =>
      let v := if 0 <=? e then Z.pos m * 2 ^ e else Z.shiftr (Z.pos m) (- e) in
      Return (if s then - v else v)
  | S754_infinity _ => Raise OverflowError
  | S754_nan => Raise (ValueError "cannot convert float NaN to integer")
  end.

#[export] Instance float_Number : Number float := {
  of_int := float_of_int;
  nadd := PrimFloat.add;
  nsub := PrimFloat.sub;
  nmul := PrimFloat.mul;
  ndiv := PrimFloat.div;
  nlt := PrimFloat.ltb;
  neqb := PrimFloat.eqb;
  int_of := float_trunc
}.

(** ** Exact rationals: the same code read over ideal real arithmetic. *)

Definition Q_trunc (q : Q) : Z := Z.quot (Qnum q) (Z.pos (Qden q)).

Definition Q_ltb (a b : Q) : bool :=
  match Qcompare a b with Lt => true | _ => false end.

#[export] Instance Q_Number : Number Q := {
  of_int := inject_Z;
  nadd := Qplus;
  nsub := Qminus;
  nmul := Qmult;
  ndiv := Qdiv;
  nlt := Q_ltb;
  neqb := Qeq_bool;
  int_of := fun q => Return (Q_trunc q)
}.

(** [sorted(l)]: a stable sort driven by [<], as Python's. *)
Section Sorted.
Context {T : Type} `{Number T}.

Fixpoint insert_sorted (x : T) (l : list T) : list T :=
  match l with
  | [] => [x]
  | y :: l' => if nlt y x then y :: insert_sorted x l' else x :: y :: l'
  end.

Definition sorted (l : list T) : list T := foldr insert_sorted [] l.

(** [min(l)] and [max(l)] on a non-empty list (first extremum wins). *)
Definition py_min (d : T) (l : list T) : T :=
  match l with
  | [] => d
  | x :: l' => fold_left (fun m y => if nlt y m then y else m) l' x
  end.

Definition py_max (d : T) (l : list T) : T :=
  match l with
  | [] => d
  | x :: l' => fold_left (fun m y => if nlt m y then y else m) l' x
  end.
End Sorted.

(** A list of rationals in ascending order. *)
Fixpoint ascending (l : list Q) : Prop :=
  match l with
  | [] => True
  | x :: l' => Forall (Qle x) l' /\ ascending l'
  end.

(* ===================================================================== *)
(** * metrics/stats.py *)
(* ===================================================================== *)

Module stats.
Section MetricsCollector.
Context {T : Type} `{Number T}.

(** One entry of [worker_stats] (a [defaultdict] of three counters). *)
Record WorkerStats := mkWorkerStats {
  w_frames_processed : Z;
  w_total_time_ms : T;
  w_total_memory_mb : T
}.

Definition worker_default : WorkerStats := mkWorkerStats 0 (of_int 0) (of_int 0).

Record MetricsCollector := mkMetrics {
  start_time : T;
  frames_processed : Z;
  frames_total : Z;
  frames_failed : Z;
  retries_count : Z;
  latencies : list T;
  worker_stats : gmap string WorkerStats;
  filters_count : gmap string Z
}.

(** [MetricsCollector()] at wall-clock time [now]. *)
Definition init (now : T) : MetricsCollector :=
  mkMetrics now 0 0 0 0 [] ∅ ∅.

(** Truthiness of an optional string argument ([None] and [""] are falsy). *)
Definition truthy_str (s : option string) : option string :=
  match s with
  | Some EmptyString => None
  | _ => s
  end.

Definition record_frame (m : MetricsCollector) (frame_number : Z)
    (processing_time_ms : T) (worker_id filter_applied : option string)
    (memory_mb : T) (failed : bool) : MetricsCollector :=
  let processed := frames_processed m + 1 in
  let nfailed := if failed then frames_failed m + 1 else frames_failed m in
  let lat := if failed then latencies m else latencies m ++ [processing_time_ms] in
  let ws :=
    match truthy_str worker_id with
    | Some w =>
        let e := default worker_default (worker_stats m !! w) in
        <[w := mkWorkerStats (w_frames_processed e + 1)
                 (nadd (w_total_time_ms e) processing_time_ms)
                 (nadd (w_total_memory_mb e) memory_mb)]> (worker_stats m)
    | None => worker_stats m
    end in
  let fc :=
    match truthy_str filter_applied with
    | Some f => <[f := default 0 (filters_count m !! f) + 1]> (filters_count m)
    | None => filters_count m
    end in
  mkMetrics (start_time m) processed (frames_total m) nfailed
    (retries_count m) lat ws fc.

Definition record_retry (m : MetricsCollector) : MetricsCollector :=
  mkMetrics (start_time m) (frames_processed m) (frames_total m)
    (frames_failed m) (retries_count m + 1) (latencies m)
    (worker_stats m) (filters_count m).

Definition set_total_frames (m : MetricsCollector) (total : Z) : MetricsCollector :=
  mkMetrics (start_time m) (frames_processed m) total
    (frames_failed m) (retries_count m) (latencies m)
    (worker_stats m) (filters_count m).

Definition get_percentile (m : MetricsCollector) (percentile : T) : result T :=
  match latencies m with
  | [] => Return (of_int 0)
  | _ :: _ =>
      let sorted_latencies := sorted (latencies m) in
      let n := Z.of_nat (length sorted_latencies) in
      let k := ndiv (nmul (of_int (n - 1)) percentile) (of_int 100) in
      f <-! int_of k;
      let c := f + 1 in
      if n <=? c then py_index sorted_latencies (-1)
      else
        x0 <-! py_index sorted_latencies f;
        let d0 := nmul x0 (nsub (of_int c) k) in
        x1 <-! py_index sorted_latencies c;
        let d1 := nmul x1 (nsub k (of_int f)) in
        Return (nadd d0 d1)
  end.

(** [get_fps_processing] at wall-clock time [now]. *)
Definition get_fps_processing (m : MetricsCollector) (now : T) : T :=
  let elapsed := nsub now (start_time m) in
  if neqb elapsed (of_int 0) then of_int 0
  else ndiv (of_int (frames_processed m)) elapsed.

Definition reset (m : MetricsCollector) (now : T) : MetricsCollector :=
  mkMetrics now 0 0 0 0 [] ∅ ∅.

(** The dictionary [get_summary] returns.  [time.time()] is read twice
    ([now], then [now'] inside [get_fps_processing]); [mean] is
    [statistics.mean]. *)
Record Summary := mkSummary {
  s_total_frames : Z;
  s_frames_processed : Z;
  s_frames_failed : Z;
  s_retries : Z;
  s_processing_time_seconds : T;
  s_fps_processing : T;
  s_latency_p50_ms : T;
  s_latency_p95_ms : T;
  s_latency_p99_ms : T;
  s_latency_avg_ms : T;
  s_latency_min_ms : T;
  s_latency_max_ms : T;
  s_worker_count : Z;
  s_filters_applied : gmap string Z
}.

Definition get_summary (mean : list T -> T) (m : MetricsCollector) (now now' : T)
    : result Summary :=
  let elapsed := nsub now (start_time m) in
  p50 <-! get_percentile m (of_int 50);
  p95 <-! get_percentile m (of_int 95);
  p99 <-! get_percentile m (of_int 99);
  let nonempty := negb (Nat.eqb (length (latencies m)) 0) in
  Return (mkSummary (frames_total m) (frames_processed m) (frames_failed m)
            (retries_count m) elapsed (get_fps_processing m now')
            p50 p95 p99
            (if nonempty then mean (latencies m) else of_int 0)
            (if nonempty then py_min (of_int 0) (latencies m) else of_int 0)
            (if nonempty then py_max (of_int 0) (latencies m) else of_int 0)
            (Z.of_nat (size (worker_stats m)))
            (filters_count m)).

(** The mutating calls of the collector, as data. *)
Inductive call :=
| RecordFrame (frame_number : Z) (processing_time_ms : T)
    (worker_id filter_applied : option string) (memory_mb : T) (failed : bool)
| RecordRetry
| SetTotalFrames (total : Z)
| Reset (now : T).

Definition step (m : MetricsCollector) (c : call) : MetricsCollector :=
  match c with
  | RecordFrame i t w f mem failed => record_frame m i t w f mem failed
  | RecordRetry => record_retry m
  | SetTotalFrames n => set_total_frames m n
  | Reset now => reset m now
  end.

Definition run (m : MetricsCollector) (cs : list call) : MetricsCollector :=
  fold_left step cs m.

(** The counter invariant of the collector. *)
Definition counters_consistent (m : MetricsCollector) : Prop :=
  frames_processed m = frames_failed m + Z.of_nat (length (latencies m)).

(** [a / b] on numbers: a zero divisor raises. *)
Definition py_div (a b : T) : result T :=
  if neqb b (of_int 0) then Raise ZeroDivisionError else Return (ndiv a b).

(** [get_eta_seconds] at wall-clock time [now]. *)
Definition get_eta_seconds (m : MetricsCollector) (now : T) : result T :=
  if (frames_processed m =? 0) || (frames_total m =? 0) then Return (of_int 0)
  else
    let elapsed := nsub now (start_time m) in
    let frames_remaining := frames_total m - frames_processed m in
    fps <-! py_div (of_int (frames_processed m)) elapsed;
    if neqb fps (of_int 0) then Return (of_int 0)
    else py_div (of_int frames_remaining) fps.

(** ** The lock

    [self.lock] is a [threading.Lock], which is not reentrant: a thread
    that enters [with self.lock:] while it holds the lock waits for
    itself.  A call is run for a thread of which [held] tells whether it
    holds the lock; inside [with self.lock:] it does. *)
Inductive outcome (A : Type) : Type :=
| Done (r : result A)   (** the call returned or raised *)
| Blocked.              (** the call never returns *)
Arguments Done {A} r.
Arguments Blocked {A}.

Definition with_lock {A} (held : bool) (body : outcome A) : outcome A :=
  if held then Blocked else body.

(** The next step of a method body, once a call it makes has returned. *)
Definition and_then {A B} (o : outcome A) (k : A -> outcome B) : outcome B :=
  match o with
  | Done (Return a) => k a
  | Done (Raise e) => Done (Raise e)
  | Blocked => Blocked
  end.

(** The methods as a caller meets them: their bodies under the lock. *)
Definition locked_get_percentile (held : bool) (m : MetricsCollector) (percentile : T)
    : outcome T :=
  with_lock held (Done (get_percentile m percentile)).

Definition locked_get_fps_processing (held : bool) (m : MetricsCollector) (now : T)
    : outcome T :=
  with_lock held (Done (Return (get_fps_processing m now))).

Definition locked_get_eta_seconds (held : bool) (m : MetricsCollector) (now : T)
    : outcome T :=
  with_lock held (Done (get_eta_seconds m now)).

(** The dictionary [get_progress] would return. *)
Record Progress := mkProgress {
  p_frames_processed : Z;
  p_frames_total : Z;
  p_fps : T;
  p_eta_seconds : T;
  p_latency_p95_ms : T;
  p_retries : Z
}.

(** [get_progress]: the dictionary is built inside [with self.lock:], and
    three of its values are calls of methods that take the lock. *)
Definition get_progress (held : bool) (m : MetricsCollector) (now now' : T)
    : outcome Progress :=
  with_lock held
    (and_then (locked_get_fps_processing true m now) (fun fps =>
     and_then (locked_get_eta_seconds true m now') (fun eta_seconds =>
     and_then (locked_get_percentile true m (of_int 95)) (fun latency_p95_ms =>
     Done (Return (mkProgress (frames_processed m) (frames_total m) fps eta_seconds
                     latency_p95_ms (retries_count m))))))).

(** ** Specification vocabulary *)

(** The frames counted per worker, added up, and the same for filters. *)
Definition frames_by_worker (m : MetricsCollector) : Z :=
  map_fold (fun _ w acc => w_frames_processed w + acc) 0 (worker_stats m).

Definition frames_by_filter (m : MetricsCollector) : Z :=
  map_fold (fun _ n acc => n + acc) 0 (filters_count m).

End MetricsCollector.
Arguments WorkerStats T : clear implicits.
Arguments Progress T : clear implicits.
Arguments Done {A} r.
Arguments Blocked {A}.
Arguments MetricsCollector T : clear implicits.
Arguments Summary T : clear implicits.
Arguments call T : clear implicits.
End stats.


(* ===================================================================== *)
(** * Frames and the OpenCV boundary *)
(* ===================================================================== *)

(** A decoded frame: a [numpy] array of shape [(height, width, 3)], its
    samples kept row-major. *)
Record Frame := mkFrame {
  height : Z;
  width : Z;
  pixels : list Z
}.

(** [(width, height)], the order [VideoWriter.frame_size] uses. *)
Definition size_of (f : Frame) : Z * Z := (width f, height f).

(** [np.zeros((h, w, 3), dtype=np.uint8)]. *)
Definition np_zeros (h w : Z) : result Frame :=
  if (h <? 0) || (w <? 0) then Raise (ValueError "negative dimensions are not allowed")
  else Return (mkFrame h w (replicate (Z.to_nat (h * w * 3)) 0)).

(** Container metadata read through [cv2.VideoCapture.get]. *)
Record VideoProps := mkVideoProps {
  vp_fps : float;
  vp_total_frames : Z;
  vp_width : Z;
  vp_height : Z
}.

(** What the embedded code asks of OpenCV.  The library is not part of the
    repository: its answers are parameters of the development.
    [cv_resize] is taken total (non-empty frame, positive target size). *)
Class OpenCV := {
  (** does [cv2.VideoWriter(path, fourcc, fps, size).isOpened()] hold *)
  cv_writer_opens : string -> string -> float -> Z * Z -> bool;
  (** does [cv2.VideoWriter.write] raise, given what was encoded so far *)
  cv_write_raises : list Frame -> Frame -> bool;
  (** [cv2.resize(frame, (width, height))] *)
  cv_resize : Frame -> Z * Z -> Frame;
  (** [cv2.imdecode(np.frombuffer(data), IMREAD_COLOR)]; [None] as in Python *)
  cv_imdecode : list Byte.byte -> option Frame;
  (** [cv2.imencode('.png', frame)]: [None] when [success] is false *)
  cv_imencode : Frame -> option (list Byte.byte);
  (** [cv2.VideoCapture] on a file's bytes: [None] when it does not open *)
  cv_capture : list Byte.byte -> option (VideoProps * list Frame);
  (** the return value of [cv2.imwrite(path, frame)] *)
  cv_imwrite_ok : string -> Frame -> bool;
  (** the bytes of the container file a released [cv2.VideoWriter] leaves *)
  cv_container : string -> float -> Z * Z -> list Frame -> list Byte.byte
}.

(** The documented contract of [cv2.resize]: the output has the requested
    [(width, height)]. *)
Class OpenCVResize `{OpenCV} :=
  resize_size : forall f sz, size_of (cv_resize f sz) = sz.

(* ===================================================================== *)
(** * storage/writer.py *)
(* ===================================================================== *)

Module writer.
Section Writer.
Context `{OpenCV}.

(** The [cv2.VideoWriter] held by a [VideoWriter]: the frames it has
    encoded, in order, and whether [release] was called. *)
Record cv2_VideoWriter := mkCv {
  cv_frames : list Frame;
  cv_released : bool
}.

Record VideoWriter := mkVideoWriter {
  output_path : string;
  fourcc_str : string;
  fps : float;
  frame_size : option (Z * Z);
  writer : option cv2_VideoWriter;
  is_open : bool;
  frame_count : Z
}.

(** [VideoWriter(output_path, fourcc, fps, frame_size)] *)
Definition VideoWriter_init (output_path fourcc : string) (fps : float)
    (frame_size : option (Z * Z)) : VideoWriter :=
  mkVideoWriter output_path fourcc fps frame_size None false 0.

Definition open (w : VideoWriter) (first_frame : option Frame)
    : result bool * VideoWriter :=
  if is_open w then (Return true, w)
  else
    let size :=
      match frame_size w with
      | Some sz => Return sz
      | None =>
          match first_frame with
          | None => Raise (ValueError "Se necesita frame_size o first_frame para abrir el writer")
          | Some f => Return (width f, height f)
          end
      end in
    match size with
    | Raise e => (Raise e, w)
    | Return sz =>
        let w1 := mkVideoWriter (output_path w) (fourcc_str w) (fps w)
                    (Some sz) (Some (mkCv [] false)) false (frame_count w) in
        if cv_writer_opens (output_path w) (fourcc_str w) (fps w) sz
        then (Return true,
              mkVideoWriter (output_path w1) (fourcc_str w1) (fps w1)
                (frame_size w1) (writer w1) true (frame_count w1))
        else (Return false, w1)
    end.

(** The frame a writer of size [sz] passes to its encoder: resized when
    its [(width, height)] is not [sz]. *)
Definition fit_to (sz : Z * Z) (frame : Frame) : Frame :=
  if decide ((width frame, height frame) = sz) then frame else cv_resize frame sz.

(** The size check of [write].  With no [frame_size] the comparison with
    [None] is unequal and [cv2.resize(frame, None)] raises. *)
Definition fit (w : VideoWriter) (frame : Frame) : result Frame :=
  match frame_size w with
  | Some sz => Return (fit_to sz frame)
  | None => Raise cv2_error
  end.

Definition write (w : VideoWriter) (frame : Frame) : result bool * VideoWriter :=
  let '(opened, w) :=
    if is_open w then (Return true, w) else open w (Some frame) in
  match opened with
  | Raise e => (Raise e, w)
  | Return false => (Return false, w)
  | Return true =>
      match fit w frame with
      | Raise e => (Raise e, w)
      | Return frame =>
          match writer w with
          | None => (Return false, w)
          | Some cv =>
              if cv_write_raises (cv_frames cv) frame then (Return false, w)
              else
                (Return true,
                 mkVideoWriter (output_path w) (fourcc_str w) (fps w) (frame_size w)
                   (Some (mkCv (cv_frames cv ++ [frame]) (cv_released cv)))
                   (is_open w) (frame_count w + 1))
          end
      end
  end.

Definition close (w : VideoWriter) : VideoWriter :=
  match is_open w, writer w with
  | true, Some cv =>
      mkVideoWriter (output_path w) (fourcc_str w) (fps w) (frame_size w)
        (Some (mkCv (cv_frames cv) true)) false (frame_count w)
  | _, _ => w
  end.

(** The frames the underlying encoder has received. *)
Definition encoded (w : VideoWriter) : list Frame :=
  match writer w with
  | Some cv => cv_frames cv
  | None => []
  end.

(** [VideoFrameBuffer].  [handed] is a history of the calls
    [self.writer.write(frame)] made by the buffer, each with the value of
    [next_frame_number] at the call; no code reads it. *)
Record VideoFrameBuffer := mkBuffer {
  fb_writer : VideoWriter;
  buffer : gmap Z Frame;
  next_frame_number : Z;
  handed : list (Z * Frame)
}.

Definition VideoFrameBuffer_init (w : VideoWriter) : VideoFrameBuffer :=
  mkBuffer w ∅ 0 [].

(** One pass of a loop body: [self.writer.write(frame)] for the frame at
    [next_frame_number], then [self.next_frame_number += 1]. *)
Definition emit (fb : VideoFrameBuffer) (frame : Frame)
    : result bool * VideoFrameBuffer :=
  let '(r, w') := write (fb_writer fb) frame in
  let log := handed fb ++ [(next_frame_number fb, frame)] in
  match r with
  | Raise e =>
      (Raise e, mkBuffer w' (delete (next_frame_number fb) (buffer fb))
                  (next_frame_number fb) log)
  | Return b =>
      (Return b, mkBuffer w' (delete (next_frame_number fb) (buffer fb))
                   (next_frame_number fb + 1) log)
  end.

(** [while self.next_frame_number in self.buffer: ...]; every pass pops
    one key, so [fuel] above the size of the buffer is never exhausted. *)
Fixpoint drain (fuel : nat) (fb : VideoFrameBuffer) (written : Z)
    : result Z * VideoFrameBuffer :=
  match fuel with
  | O => (Return written, fb)
  | S fuel' =>
      match buffer fb !! next_frame_number fb with
      | None => (Return written, fb)
      | Some frame_to_write =>
          match emit fb frame_to_write with
          | (Raise e, fb') => (Raise e, fb')
          | (Return _, fb') => drain fuel' fb' (written + 1)
          end
      end
  end.

Definition add_frame (fb : VideoFrameBuffer) (frame_number : Z) (frame : Frame)
    : result Z * VideoFrameBuffer :=
  let fb1 := mkBuffer (fb_writer fb) (<[frame_number := frame]> (buffer fb))
               (next_frame_number fb) (handed fb) in
  drain (S (size (buffer fb1))) fb1 0.

(** The body of [while self.next_frame_number < total_frames], run
    [passes] times. *)
Fixpoint flush_loop (passes : nat) (fb : VideoFrameBuffer) (written : Z)
    : result Z * VideoFrameBuffer :=
  match passes with
  | O => (Return written, fb)
  | S passes' =>
      let frame :=
        match buffer fb !! next_frame_number fb with
        | Some frame => Return frame
        | None =>
            match frame_size (fb_writer fb) with
            | None => Raise TypeError
            | Some (w, h) => np_zeros h w
            end
        end in
      match frame with
      | Raise e => (Raise e, fb)
      | Return frame =>
          match emit fb frame with
          | (Raise e, fb') => (Raise e, fb')
          | (Return _, fb') => flush_loop passes' fb' (written + 1)
          end
      end
  end.

(** The loop runs while [next_frame_number < total_frames] and each pass
    adds one to the cursor: [total_frames - next_frame_number] passes. *)
Definition flush_remaining (fb : VideoFrameBuffer) (total_frames : Z)
    : result Z * VideoFrameBuffer :=
  flush_loop (Z.to_nat (total_frames - next_frame_number fb)) fb 0.

Definition get_pending_count (fb : VideoFrameBuffer) : Z :=
  Z.of_nat (size (buffer fb)).

(** A run of [add_frame] calls, stopping at the first that raises. *)
Fixpoint add_frames (fb : VideoFrameBuffer) (calls : list (Z * Frame))
    : result unit * VideoFrameBuffer :=
  match calls with
  | [] => (Return tt, fb)
  | (i, f) :: calls' =>
      match add_frame fb i f with
      | (Raise e, fb') => (Raise e, fb')
      | (Return _, fb') => add_frames fb' calls'
      end
  end.

(** [add_frame] calls followed by one [flush_remaining(total)]. *)
Definition session (fb : VideoFrameBuffer) (calls : list (Z * Frame)) (total : Z)
    : result Z * VideoFrameBuffer :=
  match add_frames fb calls with
  | (Raise e, fb') => (Raise e, fb')
  | (Return _, fb') => flush_remaining fb' total
  end.

(** ** Specification vocabulary *)

(** An encoder that always opens and never fails a write. *)
Definition reliable : Prop :=
  (forall p c r sz, cv_writer_opens p c r sz = true) /\
  (forall frames f, cv_write_raises frames f = false).

(** An open writer knows its frame size and holds an encoder. *)
Definition open_sized (w : VideoWriter) : Prop :=
  is_open w = true -> is_Some (frame_size w) /\ is_Some (writer w).

(** A writer is either not yet opened (no encoder) or open on one. *)
Definition fresh_or_open (w : VideoWriter) : Prop :=
  match is_open w, writer w with
  | false, None | true, Some _ => True
  | _, _ => False
  end.

(** What holds of a buffer whose writer was declared [w] by [h], after the
    [add_frame] calls [calls]: the history lists the indices below the
    cursor in order; every frame handed over was supplied for its index,
    or (once [flush_remaining] runs: [black]) is the black frame of an
    index never supplied; buffered entries were supplied; supplied indices
    at or above the cursor are still buffered; a reliable encoder has
    received the fitted frames of the history. *)
Record buffer_inv (black : Prop) (w h : Z) (calls : list (Z * Frame))
    (fb : VideoFrameBuffer) : Prop := {
  inv_size : frame_size (fb_writer fb) = Some (w, h);
  inv_cursor : 0 <= next_frame_number fb;
  inv_order : fst <$> handed fb = seqZ 0 (next_frame_number fb);
  inv_frames : forall i f, (i, f) ∈ handed fb ->
    (i, f) ∈ calls \/ black /\ (i ∉ fst <$> calls) /\ np_zeros h w = Return f;
  inv_buffered : forall i f, buffer fb !! i = Some f -> (i, f) ∈ calls;
  inv_pending : forall i, i ∈ fst <$> calls -> next_frame_number fb <= i ->
    is_Some (buffer fb !! i);
  inv_encoded : reliable ->
    fresh_or_open (fb_writer fb) /\
    encoded (fb_writer fb) = fit_to (w, h) <$> (snd <$> handed fb)
}.

(** The public calls of a [VideoWriter], as data, and a run of them. *)
Inductive call :=
| Open (first_frame : option Frame)
| Write (frame : Frame)
| Close.

Definition step (w : VideoWriter) (c : call) : VideoWriter :=
  match c with
  | Open first_frame => snd (open w first_frame)
  | Write frame => snd (write w frame)
  | Close => close w
  end.

Definition run (w : VideoWriter) (calls : list call) : VideoWriter :=
  fold_left step calls w.

(** How many [write] calls of a run returned [True]. *)
Fixpoint successes (w : VideoWriter) (calls : list call) : Z :=
  match calls with
  | [] => 0
  | c :: calls' =>
      (match c with
       | Write frame =>
           match fst (write w frame) with
           | Return true => 1
           | _ => 0
           end
       | _ => 0
       end) + successes (step w c) calls'
  end.

(** Every frame the encoder holds has the writer's [frame_size]. *)
Definition sized (w : VideoWriter) : Prop :=
  match frame_size w with
  | Some sz => Forall (fun f => size_of f = sz) (encoded w)
  | None => encoded w = []
  end.

(** An encoder that cannot be opened (missing codec, unwritable path). *)
Definition never_opens : Prop :=
  forall p c r sz, cv_writer_opens p c r sz = false.

(** [fb'] is [fb] after more calls: the cursor has not moved back, the
    history has grown by entries at or above the old cursor, and what was
    buffered below the old cursor is still buffered. *)
Definition extends (fb fb' : VideoFrameBuffer) : Prop :=
  next_frame_number fb <= next_frame_number fb' /\
  (exists new, handed fb' = handed fb ++ new /\
     Forall (fun e => next_frame_number fb <= fst e) new) /\
  (forall j, j < next_frame_number fb ->
     is_Some (buffer fb !! j) -> is_Some (buffer fb' !! j)).

(** The encoder of [w] has been given [frames] and is not released: [w]
    is open on it, or was never opened and [frames] is empty. *)
Definition holds (w : VideoWriter) (frames : list Frame) : Prop :=
  match is_open w, writer w with
  | false, None => frames = []
  | true, Some cv => cv = mkCv frames false
  | _, _ => False
  end.

End Writer.
End writer.

(* ===================================================================== *)
(** * JSON values and the [json] library boundary *)
(* ===================================================================== *)

(** Python objects that travel as messages.  [JNull] is [None]; a [dict]
    keeps its insertion order. *)
Inductive json : Type :=
| JNull
| JBool (b : bool)
| JInt (z : Z)
| JFloat (x : float)
| JStr (s : string)
| JList (l : list json)
| JDict (d : list (string * json)).

(** [d.get(key)] on a [dict]. *)
Fixpoint dict_get (d : list (string * json)) (key : string) : option json :=
  match d with
  | [] => None
  | (k, v) :: d' => if String.eqb k key then Some v else dict_get d' key
  end.

(** Truth value of an object ([not obj] is its negation). *)
Definition truthy (v : json) : bool :=
  match v with
  | JNull => false
  | JBool b => b
  | JInt z => negb (z =? 0)
  | JFloat x => negb (PrimFloat.eqb x 0%float)
  | JStr s => negb (String.eqb s "")
  | JList l => negb (Nat.eqb (length l) 0)
  | JDict d => negb (Nat.eqb (length d) 0)
  end.

(** The standard [json] module with UTF-8 text encoding.  It is not part
    of the repository: its functions are parameters. *)
Class JSONLib := {
  (** [json.dumps(obj).encode('utf-8')]; raises on unserializable objects *)
  json_dumps : json -> result (list Byte.byte);
  (** does [payload.decode('utf-8')] succeed *)
  utf8_decodes : list Byte.byte -> bool;
  (** [json.loads] of the decoded text; [None] is [JSONDecodeError] *)
  json_loads : list Byte.byte -> option json
}.

(* ===================================================================== *)
(** * protocol/messages.py *)
(* ===================================================================== *)

Module messages.

Definition byte_of_Z (z : Z) : Byte.byte :=
  default Byte.x00 (Byte.of_N (Z.to_N z)).

Definition Z_of_byte (b : Byte.byte) : Z := Z.of_N (Byte.to_N b).

(** [struct.pack('!I', n)]: four bytes, most significant first. *)
Definition pack_I (n : Z) : result (list Byte.byte) :=
  if (0 <=? n) && (n <? 2 ^ 32) then
    Return [byte_of_Z (Z.land (Z.shiftr n 24) 255);
            byte_of_Z (Z.land (Z.shiftr n 16) 255);
            byte_of_Z (Z.land (Z.shiftr n 8) 255);
            byte_of_Z (Z.land n 255)]
  else Raise struct_error.

(** [struct.unpack('!I', b)[0]]: needs exactly four bytes. *)
Definition unpack_I (b : list Byte.byte) : result Z :=
  match b with
  | [b3; b2; b1; b0] =>
      Return (Z.lor (Z.shiftl (Z_of_byte b3) 24)
             (Z.lor (Z.shiftl (Z_of_byte b2) 16)
             (Z.lor (Z.shiftl (Z_of_byte b1) 8) (Z_of_byte b0))))
  | _ => Raise struct_error
  end.

(** What the peer's side of a connection delivers: runs of bytes as the
    successive [recv] calls will see them, or a failure of the
    connection.  The end of the list is the peer's orderly close. *)
Inductive segment :=
| Data (d : list Byte.byte)
| Reset.

Record socket := mkSocket {
  incoming : list segment;
  outgoing : list Byte.byte;
  broken : bool
}.

(** [sock.recv(bufsize)], [bufsize > 0]: at most [bufsize] bytes of the
    next run, [b''] once the peer has closed. *)
Fixpoint recv_from (inc : list segment) (bufsize : nat)
    : result (list Byte.byte) * list segment :=
  match inc with
  | [] => (Return [], [])
  | Reset :: rest => (Raise OSError, rest)
  | Data [] :: rest => recv_from rest bufsize
  | Data d :: rest =>
      (Return (take bufsize d),
       match drop bufsize d with
       | [] => rest
       | d' => Data d' :: rest
       end)
  end.

Definition recv (sock : socket) (bufsize : Z) : result (list Byte.byte) * socket :=
  let '(r, inc) := recv_from (incoming sock) (Z.to_nat bufsize) in
  (r, mkSocket inc (outgoing sock) (broken sock)).

(** [sock.sendall(data)] *)
Definition sendall (sock : socket) (data : list Byte.byte) : result unit * socket :=
  if broken sock then (Raise OSError, sock)
  else (Return tt, mkSocket (incoming sock) (outgoing sock ++ data) (broken sock)).

Definition chunk_size : Z := 256 * 1024.

Definition len {A} (l : list A) : Z := Z.of_nat (length l).

(** The loop of [_recv_exact]; every pass that continues adds at least
    one byte, so [n] passes are enough. *)
Fixpoint _recv_exact_loop (fuel : nat) (sock : socket) (n : Z)
    (data : list Byte.byte) : result (list Byte.byte) * socket :=
  match fuel with
  | O => (Return data, sock)
  | S fuel' =>
      if len data <? n then
        match recv sock (Z.min chunk_size (n - len data)) with
        | (Raise e, sock') => (Raise e, sock')
        | (Return [], sock') => (Return data, sock')
        | (Return chunk, sock') => _recv_exact_loop fuel' sock' n (data ++ chunk)
        end
      else (Return data, sock)
  end.

Definition _recv_exact (sock : socket) (n : Z) : result (list Byte.byte) * socket :=
  _recv_exact_loop (Z.to_nat n) sock n [].

Definition max_message : Z := 100 * 1024 * 1024.

Section Codec.
Context `{JSONLib}.

Definition send_message (sock : socket) (message : json) : result unit * socket :=
  match json_dumps message with
  | Raise e => (Raise e, sock)
  | Return payload =>
      match pack_I (len payload) with
      | Raise e => (Raise e, sock)
      | Return length =>
          match sendall sock (length ++ payload) with
          | (Raise OSError, sock') =>
              (Raise (ProtocolError "Error enviando mensaje"), sock')
          | (r, sock') => (r, sock')
          end
      end
  end.

(** The two [except] clauses of [recv_message]. *)
Definition recv_except (e : exn) : exn :=
  match e with
  | JSONDecodeError => ProtocolError "Error decodificando JSON"
  | OSError => ProtocolError "Error recibiendo mensaje"
  | e => e
  end.

(** [json.loads(payload.decode('utf-8'))] *)
Definition decode_payload (payload : list Byte.byte) : result json :=
  if utf8_decodes payload then
    match json_loads payload with
    | Some m => Return m
    | None => Raise JSONDecodeError
    end
  else Raise UnicodeDecodeError.

Definition recv_message (sock : socket) : result json * socket :=
  match _recv_exact sock 4 with
  | (Raise e, sock) => (Raise (recv_except e), sock)
  | (Return [], sock) => (Return JNull, sock)
  | (Return length_bytes, sock) =>
      match unpack_I length_bytes with
      | Raise e => (Raise (recv_except e), sock)
      | Return length =>
          if max_message <? length then
            (Raise (recv_except (ProtocolError "Mensaje demasiado grande")), sock)
          else
            match _recv_exact sock length with
            | (Raise e, sock) => (Raise (recv_except e), sock)
            | (Return payload, sock) =>
                if negb (len payload =? length) then
                  (Raise (recv_except (ProtocolError "Payload incompleto")), sock)
                else
                  match decode_payload payload with
                  | Raise e => (Raise (recv_except e), sock)
                  | Return m => (Return m, sock)
                  end
            end
      end
  end.
End Codec.

Definition send_bytes (sock : socket) (data : list Byte.byte) : result unit * socket :=
  match sendall sock data with
  | (Raise OSError, sock') => (Raise (ProtocolError "Error enviando bytes"), sock')
  | (r, sock') => (r, sock')
  end.

Definition recv_bytes (sock : socket) (size : Z) : result (list Byte.byte) * socket :=
  match _recv_exact sock size with
  | (Raise e, sock') => (Raise e, sock')
  | (Return data, sock') =>
      if negb (len data =? size) then
        (Raise (ProtocolError "No se recibieron todos los bytes"), sock')
      else (Return data, sock')
  end.

(** ** Message constructors *)

Definition make_handshake_ack (accepted : bool) (session_id : string)
    (preview_url : json) : json :=
  JDict [("type", JStr "handshake_ack"); ("accepted", JBool accepted);
         ("session_id", JStr session_id); ("preview_url", preview_url)].

Definition make_progress (frames_processed frames_total fps eta_seconds : json) : json :=
  JDict [("type", JStr "progress"); ("frames_processed", frames_processed);
         ("frames_total", frames_total); ("fps", fps);
         ("eta_seconds", eta_seconds)].

Definition make_result (ok : json) (output_path : string) (size_bytes : Z)
    (metrics : json) : json :=
  JDict [("type", JStr "result"); ("ok", ok); ("output_path", JStr output_path);
         ("size_bytes", JInt size_bytes); ("metrics", metrics)].

Definition make_error (code message : string) (recoverable : bool) : json :=
  JDict [("type", JStr "error"); ("code", JStr code);
         ("message", JStr message); ("recoverable", JBool recoverable)].

(** A peer socket on which the bytes [sent] arrive cut into [segs]. *)
Definition delivers (segs : list (list Byte.byte)) (sent : list Byte.byte) : Prop :=
  concat segs = sent.

Definition receiving (segs : list (list Byte.byte)) : socket :=
  mkSocket (map Data segs) [] false.

End messages.

(* ===================================================================== *)
(** * protocol/message_stream.py *)
(* ===================================================================== *)

(** The generators of this file are embedded by what they produce when
    iterated to their end: the messages yielded, in order; how the
    iteration ended ([Return tt] when the generator is exhausted,
    [Raise e] when [e] came out of it); and the socket as it is left.  A
    consumer that stops early has seen a prefix of the messages.

    Every pass of a loop that goes on has read a four-byte header, so one
    more pass than there are bytes on the way is never needed; a loop cut
    short by this bound would give [None]. *)
Module message_stream.
Section Streams.
Context `{JSONLib}.

Definition run : Type := list json * result unit * messages.socket.

(** The bytes still to be delivered to a socket. *)
Definition bytes_on_the_way (sock : messages.socket) : nat :=
  sum_list (map (fun seg => match seg with
                            | messages.Data d => length d
                            | messages.Reset => 0%nat
                            end) (messages.incoming sock)).

Definition yield (msg : json) (rest : option run) : option run :=
  match rest with
  | Some (msgs, ending, sock) => Some (msg :: msgs, ending, sock)
  | None => None
  end.

(** [msg.get("type")]: only a dict has [get]. *)
Definition get_type (msg : json) : result (option json) :=
  match msg with
  | JDict d => Return (dict_get d "type")
  | _ => Raise AttributeError
  end.

(** [msg.get("type") == stop_type] for a string [stop_type]. *)
Definition type_is (msg_type : option json) (stop_type : string) : bool :=
  match msg_type with
  | Some (JStr t) => String.eqb t stop_type
  | _ => false
  end.

Fixpoint message_stream_loop (fuel : nat) (sock : messages.socket) : option run :=
  match fuel with
  | O => None
  | S fuel' =>
      match messages.recv_message sock with
      | (Raise e, sock') => Some ([], Raise e, sock')
      | (Return msg, sock') =>
          if negb (truthy msg) then Some ([], Return tt, sock')
          else yield msg (message_stream_loop fuel' sock')
      end
  end.

Definition message_stream (sock : messages.socket) : option run :=
  message_stream_loop (S (bytes_on_the_way sock)) sock.

(** [message_stream_typed] has the same loop, ended by [break]. *)
Fixpoint message_stream_typed_loop (fuel : nat) (sock : messages.socket) : option run :=
  match fuel with
  | O => None
  | S fuel' =>
      match messages.recv_message sock with
      | (Raise e, sock') => Some ([], Raise e, sock')
      | (Return msg, sock') =>
          if negb (truthy msg) then Some ([], Return tt, sock')
          else yield msg (message_stream_typed_loop fuel' sock')
      end
  end.

Definition message_stream_typed (sock : messages.socket) : option run :=
  message_stream_typed_loop (S (bytes_on_the_way sock)) sock.

Fixpoint message_stream_until_loop (fuel : nat) (sock : messages.socket)
    (stop_type : string) : option run :=
  match fuel with
  | O => None
  | S fuel' =>
      match messages.recv_message sock with
      | (Raise e, sock') => Some ([], Raise e, sock')
      | (Return msg, sock') =>
          if negb (truthy msg) then Some ([], Return tt, sock')
          else
            (* yield msg, then the test of the message's type *)
            match get_type msg with
            | Raise e => Some ([msg], Raise e, sock')
            | Return msg_type =>
                if type_is msg_type stop_type then Some ([msg], Return tt, sock')
                else yield msg (message_stream_until_loop fuel' sock' stop_type)
            end
      end
  end.

Definition message_stream_until (sock : messages.socket) (stop_type : string)
    : option run :=
  message_stream_until_loop (S (bytes_on_the_way sock)) sock stop_type.

(** ** [MessageIterator] *)

Record MessageIterator := mkIterator {
  it_sock : messages.socket;
  it_stop_on : option string;
  it_stopped : bool
}.

Definition MessageIterator_init (sock : messages.socket) (stop_on : option string)
    : MessageIterator :=
  mkIterator sock stop_on false.

(** What a call of [__next__] gives. *)
Inductive next_result :=
| Next (msg : json)
| StopIteration
| Fails (e : exn).

(** Truthiness of [self.stop_on]: [None] and [""] are falsy. *)
Definition stop_type_of (stop_on : option string) : option string :=
  match stop_on with
  | Some EmptyString => None
  | _ => stop_on
  end.

Definition __next__ (it : MessageIterator) : next_result * MessageIterator :=
  if it_stopped it then (StopIteration, it)
  else
    match messages.recv_message (it_sock it) with
    | (Raise e, sock') => (Fails e, mkIterator sock' (it_stop_on it) false)
    | (Return msg, sock') =>
        if negb (truthy msg) then (StopIteration, mkIterator sock' (it_stop_on it) true)
        else
          match stop_type_of (it_stop_on it) with
          | None => (Next msg, mkIterator sock' (it_stop_on it) false)
          | Some stop_on =>
              match get_type msg with
              | Raise e => (Fails e, mkIterator sock' (it_stop_on it) false)
              | Return msg_type =>
                  (Next msg, mkIterator sock' (it_stop_on it) (type_is msg_type stop_on))
              end
          end
    end.

(** [for msg in it]: [__next__] until it raises. *)
Fixpoint iterate (fuel : nat) (it : MessageIterator) : option run :=
  match fuel with
  | O => None
  | S fuel' =>
      match __next__ it with
      | (StopIteration, it') => Some ([], Return tt, it_sock it')
      | (Fails e, it') => Some ([], Raise e, it_sock it')
      | (Next msg, it') => yield msg (iterate fuel' it')
      end
  end.

(** One pass more than for the generators: the pass that finds
    [stopped] set reads nothing. *)
Definition iterate_all (it : MessageIterator) : option run :=
  iterate (S (S (bytes_on_the_way (it_sock it)))) it.

(** ** [MessageStream] *)

(** [filter_types] is a list of strings or [None]; the constructor keeps
    [set(filter_types) if filter_types else None]. *)
Record MessageStream := mkStream {
  ms_sock : messages.socket;
  ms_filter_types : option (list string);
  ms_stop_on : option string
}.

Definition MessageStream_init (sock : messages.socket)
    (filter_types : option (list string)) (stop_on : option string) : MessageStream :=
  mkStream sock
    (match filter_types with
     | Some [] | None => None
     | Some types => Some types
     end)
    stop_on.

(** [msg_type not in self.filter_types]: a list or a dict cannot be
    hashed; anything else that is not a string is in no set of strings. *)
Definition not_in_filter (msg_type : option json) (types : list string) : result bool :=
  match msg_type with
  | Some (JStr t) => Return (negb (bool_decide (t ∈ types)))
  | Some (JList _) | Some (JDict _) => Raise TypeError
  | _ => Return true
  end.

Fixpoint __iter___loop (fuel : nat) (sock : messages.socket)
    (filter_types : option (list string)) (stop_on : option string) : option run :=
  match fuel with
  | O => None
  | S fuel' =>
      match messages.recv_message sock with
      | (Raise e, sock') => Some ([], Raise e, sock')
      | (Return msg, sock') =>
          if negb (truthy msg) then Some ([], Return tt, sock')
          else
            let skipped :=
              match filter_types with
              | None => Return false
              | Some types =>
                  match get_type msg with
                  | Raise e => Raise e
                  | Return msg_type => not_in_filter msg_type types
                  end
              end in
            match skipped with
            | Raise e => Some ([], Raise e, sock')
            | Return true => __iter___loop fuel' sock' filter_types stop_on
            | Return false =>
                match stop_type_of stop_on with
                | None => yield msg (__iter___loop fuel' sock' filter_types stop_on)
                | Some stop_type =>
                    match get_type msg with
                    | Raise e => Some ([msg], Raise e, sock')
                    | Return msg_type =>
                        if type_is msg_type stop_type then Some ([msg], Return tt, sock')
                        else yield msg (__iter___loop fuel' sock' filter_types stop_on)
                    end
                end
            end
      end
  end.

Definition __iter__ (s : MessageStream) : option run :=
  __iter___loop (S (bytes_on_the_way (ms_sock s))) (ms_sock s)
    (ms_filter_types s) (ms_stop_on s).

(** ** Specification vocabulary *)

(** A message the codec carries: the [json] library writes it as text of
    at most 100 MiB and reads that text back as the same object. *)
Definition transmissible (m : json) : Prop :=
  exists payload, json_dumps m = Return payload /\
    utf8_decodes payload = true /\
    json_loads payload = Some m /\
    messages.len payload <= messages.max_message.

(** [send_message] for each message of a list, on one socket. *)
Fixpoint send_messages (sock : messages.socket) (msgs : list json)
    : result unit * messages.socket :=
  match msgs with
  | [] => (Return tt, sock)
  | m :: msgs' =>
      match messages.send_message sock m with
      | (Raise e, sock') => (Raise e, sock')
      | (Return _, sock') => send_messages sock' msgs'
      end
  end.

(** The bytes a run of [send_message] calls puts on the wire. *)
Definition wire (msgs : list json) : list Byte.byte :=
  messages.outgoing (snd (send_messages (messages.mkSocket [] [] false) msgs)).

(** The [type] of a message, when it is a string. *)
Definition type_of (m : json) : option string :=
  match m with
  | JDict d =>
      match dict_get d "type" with
      | Some (JStr t) => Some t
      | _ => None
      end
  | _ => None
  end.

(** Does a [MessageStream] with the filter [types] let a message through. *)
Definition selected (types : list string) (m : json) : bool :=
  match type_of m with
  | Some t => bool_decide (t ∈ types)
  | None => false
  end.

End Streams.
End message_stream.

(* ===================================================================== *)
(** * Text formatting, files, filters *)
(* ===================================================================== *)

(** Python's text conversions of floats and containers (not repository
    code): parameters. *)
Class PyFormat := {
  py_repr : json -> string;            (** [str(obj)] of a list or dict *)
  float_str : float -> string;         (** [str(x)] *)
  float_fmt : float -> nat -> string;  (** [f"{x:.nf}"] *)
  statistics_mean : list float -> float
}.

(** [str(obj)], as f-strings apply it. *)
Definition str_of `{PyFormat} (v : json) : string :=
  match v with
  | JStr s => s
  | JInt z => pretty z
  | JNull => "None"
  | JBool true => "True"
  | JBool false => "False"
  | JFloat x => float_str x
  | _ => py_repr v
  end.

(** [f"{n:06d}"]: zero-padded to six characters, sign included. *)
Definition pad_zeros (width : nat) (s : string) : string :=
  String.concat "" (replicate (width - String.length s) "0") +:+ s.

Definition fmt_06d (n : Z) : string :=
  if n <? 0 then "-" +:+ pad_zeros 5 (pretty (- n))
  else pad_zeros 6 (pretty n).

(** Files on the shared volume, by what a reader can get out of them. *)
Inductive file :=
| FFrame (f : Frame)           (** an image [cv2.imread] decodes *)
| FJsonDoc (j : json)          (** a document [json.load] parses *)
| FRaw (b : list Byte.byte).   (** anything else *)

(** [os.path.join(dir, name)] for a relative [name]. *)
Definition path_join (dir name : string) : string := dir +:+ "/" +:+ name.

Definition frames_dir_of (session_id : string) : string :=
  "/app/data/frames/" +:+ session_id.

Definition frame_png (frames_dir : string) (frame_number : Z) : string :=
  path_join frames_dir ("frame_" +:+ fmt_06d frame_number +:+ ".png").

Definition frame_json (frames_dir : string) (frame_number : Z) : string :=
  path_join frames_dir ("frame_" +:+ fmt_06d frame_number +:+ ".json").

(** The image filters of [filters/]: leaf functions over a frame, each of
    which may raise.  Detector caches are inside the parameters. *)
Class Filters := {
  apply_blur : Frame -> option json -> list (string * json) -> result Frame;
  apply_edge_detection : Frame -> option json -> json -> result Frame;
  detect_and_draw_faces : Frame -> json -> result Frame;
  detect_motion : string -> Frame -> json -> json -> result Frame
}.

(* ===================================================================== *)
(** * worker.py *)
(* ===================================================================== *)

Module worker.
Section Worker.
Context `{OpenCV} `{Filters} `{PyFormat}.

(** What Celery and the process report to one run of the task. *)
Record Request := mkRequest {
  retries : Z;               (** [self.request.retries] *)
  request_id : string;       (** [self.request.id] *)
  hostname : string;         (** [self.request.hostname] *)
  processing_time_ms : float;
  memory_start : float;
  memory_end : float
}.

(** [max_retries=3] of the task decorator. *)
Definition max_retries : Z := 3.

Definition as_dict (v : json) : result (list (string * json)) :=
  match v with
  | JDict d => Return d
  | _ => Raise AttributeError
  end.

Definition dict_get_default (d : list (string * json)) (key : string) (dflt : json) : json :=
  default dflt (dict_get d key).

Fixpoint dict_remove (d : list (string * json)) (key : string) : list (string * json) :=
  match d with
  | [] => []
  | (k, v) :: d' => if String.eqb k key then dict_remove d' key else (k, v) :: dict_remove d' key
  end.

Definition session_of (metadata : list (string * json)) : string :=
  str_of (dict_get_default metadata "session_id" (JStr "default")).

(** One entry of a [custom] pipeline: [filter_spec[0]] and
    [filter_spec[1] if len(filter_spec) > 1 else {}]. *)
Definition custom_step (processed_frame : Frame) (filter_spec : json)
    : result (Frame * string) :=
  match filter_spec with
  | JList (filter_type :: rest) =>
      let filter_params := match rest with p :: _ => p | [] => JDict [] end in
      frame <-!
        (match filter_type with
         | JStr "blur" =>
             kw <-! as_dict filter_params;
             apply_blur processed_frame (dict_get kw "blur_type") (dict_remove kw "blur_type")
         | JStr "edges" => apply_edge_detection processed_frame None filter_params
         | JStr "faces" => detect_and_draw_faces processed_frame filter_params
         | _ => Return processed_frame
         end);
      match filter_type with
      | JStr t => Return (frame, t +:+ "_")
      | _ => Raise TypeError
      end
  | _ => Raise IndexError
  end.

Fixpoint custom_pipeline (processed_frame : Frame) (filter_name : string)
    (filters_list : list json) : result (Frame * string) :=
  match filters_list with
  | [] => Return (processed_frame, filter_name)
  | filter_spec :: rest =>
      step <-! custom_step processed_frame filter_spec;
      custom_pipeline (fst step) (filter_name +:+ snd step) rest
  end.

(** The [if processing_type == ...] chain: the processed frame and
    [filter_name]. *)
Definition apply_processing (frame : Frame) (processing_type : string)
    (metadata : list (string * json)) : result (Frame * string) :=
  if String.eqb processing_type "blur" then
    params <-! as_dict (dict_get_default metadata "blur_params"
                 (JDict [("blur_type", JStr "gaussian"); ("kernel", JInt 31)]));
    let blur_type := dict_get_default params "blur_type" (JStr "gaussian") in
    processed <-! apply_blur frame (Some blur_type) (dict_remove params "blur_type");
    Return (processed, "blur_" +:+ str_of blur_type)
  else if String.eqb processing_type "edges" then
    let params := dict_get_default metadata "edge_params"
                    (JDict [("edge_type", JStr "canny")]) in
    d <-! as_dict params;
    let edge_type := dict_get_default d "edge_type" (JStr "canny") in
    processed <-! apply_edge_detection frame (Some edge_type) params;
    Return (processed, "edges_" +:+ str_of edge_type)
  else if String.eqb processing_type "faces" then
    let params := dict_get_default metadata "face_params" (JDict []) in
    processed <-! detect_and_draw_faces frame params;
    Return (processed, "face_detection")
  else if String.eqb processing_type "motion" then
    let session_id := session_of metadata in
    let params := dict_get_default metadata "motion_params"
                    (JDict [("motion_type", JStr "diff")]) in
    d <-! as_dict params;
    let motion_type := dict_get_default d "motion_type" (JStr "diff") in
    processed <-! detect_motion session_id frame motion_type params;
    Return (processed, "motion_" +:+ str_of motion_type)
  else if String.eqb processing_type "custom" then
    match dict_get_default metadata "filters" (JList []) with
    | JList filters_list => custom_pipeline frame "custom_" filters_list
    | _ => Raise TypeError
    end
  else Return (frame, "none").

(** The body of the [try] block: decode, filter, save the frame, save
    the stats. *)
Definition process_frame_try (req : Request) (fs : gmap string file)
    (frame_data : list Byte.byte) (frame_number : Z) (processing_type : string)
    (metadata : list (string * json)) : result json * gmap string file :=
  match cv_imdecode frame_data with
  | None => (Raise (ValueError "No se pudo decodificar el frame"), fs)
  | Some frame =>
      match apply_processing frame processing_type metadata with
      | Raise e => (Raise e, fs)
      | Return (processed_frame, filter_name) =>
          let frames_dir := frames_dir_of (session_of metadata) in
          let frame_path := frame_png frames_dir frame_number in
          if cv_imwrite_ok frame_path processed_frame then
            let fs1 := <[frame_path := FFrame processed_frame]> fs in
            let stats :=
              JDict [("processing_time_ms", JFloat (processing_time_ms req));
                     ("memory_mb", JFloat (memory_end req));
                     ("memory_delta_mb", JFloat (memory_end req - memory_start req)%float);
                     ("filter_applied", JStr filter_name);
                     ("worker_id", JStr (request_id req));
                     ("hostname", JStr (hostname req))] in
            let stats_path := frame_json frames_dir frame_number in
            let fs2 := <[stats_path := FJsonDoc stats]> fs1 in
            (Return (JDict [("frame_path", JStr frame_path);
                            ("frame_number", JInt frame_number);
                            ("stats", stats)]), fs2)
          else (Raise (ValueError "No se pudo guardar el frame procesado"), fs)
      end
  end.

(** [str(e)]: the message of the exceptions the code raises itself; the
    text the interpreter gives to the others is not modelled (empty). *)
Definition exn_str (e : exn) : string :=
  match e with
  | ValueError msg | RuntimeError msg | ProtocolError msg => msg
  | _ => ""
  end.

(** The [except Exception] block once the retries are used up. *)
Definition process_frame_give_up (req : Request) (fs : gmap string file)
    (frame_data : list Byte.byte) (frame_number : Z)
    (metadata : list (string * json)) (e : exn) : result json * gmap string file :=
  let frames_dir := frames_dir_of (session_of metadata) in
  let frame_path := frame_png frames_dir frame_number in
  let fs1 :=
    match cv_imdecode frame_data with
    | Some frame =>
        if cv_imwrite_ok frame_path frame then <[frame_path := FFrame frame]> fs else fs
    | None => fs
    end in
  (Return (JDict [("frame_path", JStr frame_path);
                  ("frame_number", JInt frame_number);
                  ("stats", JDict [("processing_time_ms", JInt 0);
                                   ("memory_mb", JInt 0);
                                   ("memory_delta_mb", JInt 0);
                                   ("filter_applied", JStr "error");
                                   ("worker_id", JStr (request_id req));
                                   ("error", JStr (exn_str e))])]), fs1).

(** One run of the task body.  [metadata or {}] is done by the caller of
    this definition: [metadata] is the resulting dict. *)
Definition process_frame (req : Request) (fs : gmap string file)
    (frame_data : list Byte.byte) (frame_number : Z) (processing_type : string)
    (metadata : list (string * json)) : result json * gmap string file :=
  match process_frame_try req fs frame_data frame_number processing_type metadata with
  | (Return r, fs') => (Return r, fs')
  | (Raise e, fs') =>
      if retries req <? max_retries then (Raise Retry, fs')
      else process_frame_give_up req fs' frame_data frame_number metadata e
  end.

(** The files of a frame index in a session's artifact directory. *)
Definition artifact_files (fs : gmap string file) (session_id : string)
    (frame_number : Z) : list string :=
  filter (fun p => bool_decide (is_Some (fs !! p)))
    [frame_png (frames_dir_of session_id) frame_number;
     frame_json (frames_dir_of session_id) frame_number].

End Worker.
End worker.

(* ===================================================================== *)
(** * server.py *)
(* ===================================================================== *)

Module server.
Section Server.
Context `{OpenCV} `{JSONLib} `{PyFormat}.

(** What has been written to the client's stream. *)
Inductive item :=
| Message (m : json)           (** one length-prefixed JSON message *)
| Bytes (b : list Byte.byte).  (** raw bytes *)

(** One [process_frame.apply_async(args=..., queue='frames')]. *)
Record task := mkTask {
  t_frame_data : list Byte.byte;
  t_frame_number : Z;
  t_processing_type : json;
  t_metadata : list (string * json)
}.

(** The surroundings of one connection. *)
Record World := mkWorld {
  session_id : string;            (** [str(uuid.uuid4())[:8]] *)
  redis_client : bool;            (** is the module's [redis_client] not [None] *)
  redis_fails : nat -> bool;      (** does the n-th Redis command raise *)
  write_fails : nat -> bool;      (** does the n-th write-and-drain raise *)
  broker_fails : nat -> bool;     (** does the n-th [apply_async] raise *)
  now : nat -> float;             (** successive readings of [time.time()] *)
  (** the shared volume once the workers are done with the queue, or the
      collector's deadline has passed *)
  run_workers : list task -> gmap string file -> gmap string file
}.

Record state := mkState {
  reader : list messages.segment;          (** what the client sends *)
  sent : list item;
  writes : nat;
  closed : bool;
  redis : gmap string (string * option Z); (** value and time to live *)
  redis_ops : nat;
  ticks : nat;
  fs : gmap string file;
  queue : list task;
  console : list string
}.

Definition initial (client : list messages.segment) : state :=
  mkState client [] 0 false ∅ 0 0 ∅ [] [].

Context (W : World).

(** ** State and exceptions *)

Definition M (A : Type) : Type := state -> result A * state.

Definition ret {A} (a : A) : M A := fun s => (Return a, s).
Definition raise {A} (e : exn) : M A := fun s => (Raise e, s).
Definition bind {A B} (m : M A) (k : A -> M B) : M B :=
  fun s => match m s with
           | (Return a, s') => k a s'
           | (Raise e, s') => (Raise e, s')
           end.
Definition lift {A} (r : result A) : M A := fun s => (r, s).

(** [try: m except Exception as e: handler e] *)
Definition try_except {A} (m : M A) (handler : exn -> M A) : M A :=
  fun s => match m s with
           | (Return a, s') => (Return a, s')
           | (Raise e, s') => handler e s'
           end.

(** [try: m finally: final] *)
Definition try_finally {A} (m : M A) (final : M unit) : M A :=
  fun s => match m s with
           | (r, s') =>
               match final s' with
               | (Return _, s'') => (r, s'')
               | (Raise e, s'') => (Raise e, s'')
               end
           end.

Notation "x <- m ;; k" := (bind m (fun x => k))
  (at level 100, m at next level, right associativity).
Notation "m ;;; k" := (bind m (fun _ => k))
  (at level 100, right associativity).

Definition when (b : bool) (m : M unit) : M unit := if b then m else ret tt.

(** ** Field updates *)

Definition with_reader (r : list messages.segment) (s : state) : state :=
  mkState r (sent s) (writes s) (closed s) (redis s) (redis_ops s) (ticks s)
    (fs s) (queue s) (console s).
Definition with_sent (x : list item) (n : nat) (s : state) : state :=
  mkState (reader s) x n (closed s) (redis s) (redis_ops s) (ticks s)
    (fs s) (queue s) (console s).
Definition with_closed (s : state) : state :=
  mkState (reader s) (sent s) (writes s) true (redis s) (redis_ops s) (ticks s)
    (fs s) (queue s) (console s).
Definition with_redis (r : gmap string (string * option Z)) (n : nat) (s : state) : state :=
  mkState (reader s) (sent s) (writes s) (closed s) r n (ticks s)
    (fs s) (queue s) (console s).
Definition with_ticks (n : nat) (s : state) : state :=
  mkState (reader s) (sent s) (writes s) (closed s) (redis s) (redis_ops s) n
    (fs s) (queue s) (console s).
Definition with_fs (f : gmap string file) (s : state) : state :=
  mkState (reader s) (sent s) (writes s) (closed s) (redis s) (redis_ops s) (ticks s)
    f (queue s) (console s).
Definition with_queue (q : list task) (s : state) : state :=
  mkState (reader s) (sent s) (writes s) (closed s) (redis s) (redis_ops s) (ticks s)
    (fs s) q (console s).
Definition with_console (c : list string) (s : state) : state :=
  mkState (reader s) (sent s) (writes s) (closed s) (redis s) (redis_ops s) (ticks s)
    (fs s) (queue s) c.

(** ** The outside world *)

Definition time_time : M float :=
  fun s => (Return (now W (ticks s)), with_ticks (S (ticks s)) s).

Definition print (line : string) : M unit :=
  fun s => (Return tt, with_console (console s ++ [line]) s).

(** [self.writer.write(data); await self.writer.drain()] *)
Definition write_drain (x : item) : M unit :=
  fun s =>
    if write_fails W (writes s) then (Raise OSError, with_sent (sent s) (S (writes s)) s)
    else (Return tt, with_sent (sent s ++ [x]) (S (writes s)) s).

(** [self.writer.close(); await self.writer.wait_closed()] *)
Definition writer_close : M unit := fun s => (Return tt, with_closed s).

(** [redis_client.set(key, value)]: the value replaces any old one and
    its time to live. *)
Definition redis_set (key value : string) : M unit :=
  fun s =>
    if redis_fails W (redis_ops s) then (Raise RedisError, with_redis (redis s) (S (redis_ops s)) s)
    else (Return tt, with_redis (<[key := (value, None)]> (redis s)) (S (redis_ops s)) s).

(** [redis_client.expire(key, seconds)] *)
Definition redis_expire (key : string) (seconds : Z) : M unit :=
  fun s =>
    if redis_fails W (redis_ops s) then (Raise RedisError, with_redis (redis s) (S (redis_ops s)) s)
    else (Return tt,
          with_redis (alter (fun e => (fst e, Some seconds)) key (redis s))
            (S (redis_ops s)) s).

Definition session_key (field : string) : string :=
  "session:" +:+ session_id W +:+ ":" +:+ field.

Fixpoint for_each {A} (l : list A) (body : A -> M unit) : M unit :=
  match l with
  | [] => ret tt
  | x :: l' => body x ;;; for_each l' body
  end.

(** [StreamReader.readexactly(n)] *)
Fixpoint readexactly (inc : list messages.segment) (n : nat)
    : result (list Byte.byte) * list messages.segment :=
  match n with
  | O => (Return [], inc)
  | S _ =>
      match inc with
      | [] => (Raise IncompleteReadError, [])
      | messages.Reset :: rest => (Raise OSError, rest)
      | messages.Data d :: rest =>
          if Nat.ltb (length d) n then
            match readexactly rest (n - length d) with
            | (Return d', rest') => (Return (d ++ d'), rest')
            | (Raise e, rest') => (Raise e, rest')
            end
          else (Return (take n d), messages.Data (drop n d) :: rest)
      end
  end.

Definition reader_readexactly (n : Z) : M (list Byte.byte) :=
  fun s => let '(r, inc) := readexactly (reader s) (Z.to_nat n) in (r, with_reader inc s).

(** The loop of [_receive_video]: [reader.read(65536)] until [b'']. *)
Fixpoint read_to_eof (inc : list messages.segment)
    : result (list Byte.byte) * list messages.segment :=
  match inc with
  | [] => (Return [], [])
  | messages.Reset :: rest => (Raise OSError, rest)
  | messages.Data d :: rest =>
      match read_to_eof rest with
      | (Return d', rest') => (Return (d ++ d'), rest')
      | (Raise e, rest') => (Raise e, rest')
      end
  end.

(** ** [ClientHandler] *)

Definition _send_message (message : json) : M unit :=
  payload <- lift (json_dumps message) ;;
  length <- lift (messages.pack_I (messages.len payload)) ;;
  write_drain (Message message).

Definition _send_error (code message : string) : M unit :=
  _send_message (messages.make_error code message false).

(** [_recv_message]: any exception gives [None]. *)
Definition _recv_message : M json :=
  try_except
    (length_bytes <- reader_readexactly 4 ;;
     length <- lift (messages.unpack_I length_bytes) ;;
     payload <- reader_readexactly length ;;
     lift (messages.decode_payload payload))
    (fun _ => ret JNull).

Definition input_path : string := "input_" +:+ session_id W +:+ ".mp4".
Definition output_path : string := "output_" +:+ session_id W +:+ ".mp4".

Definition _receive_video : M string :=
  chunks <- (fun s => let '(r, inc) := read_to_eof (reader s) in (r, with_reader inc s)) ;;
  (fun s => (Return tt, with_fs (<[input_path := FRaw chunks]> (fs s)) s)) ;;;
  ret input_path.

Definition _read_video_file (video_path : string) : M (list Byte.byte) :=
  fun s =>
    match fs s !! video_path with
    | Some (FRaw b) => (Return b, s)
    | _ => (Raise OSError, s)
    end.

(** ** [VideoProcessor] *)

Definition frames_dir : string := frames_dir_of (session_id W).

(** [shutil.rmtree(frames_dir)] followed by [os.makedirs]. *)
Definition rmtree (dir : string) (f : gmap string file) : gmap string file :=
  filter (fun kv => String.prefix (dir +:+ "/") (fst kv) = false) f.

Definition apply_async (t : task) : M unit :=
  fun s =>
    if broker_fails W (length (queue s)) then (Raise BrokerError, s)
    else (Return tt, with_queue (queue s ++ [t]) s).

(** The [while True: ret, frame = cap.read()] loop.  A frame that does
    not encode is skipped without advancing [frame_number]. *)
Fixpoint dispatch_loop (frames : list Frame) (frame_number : Z) (tasks : list Z)
    (original_frames : gmap Z Frame) (processing_type : json)
    (metadata : list (string * json)) : M (list Z * gmap Z Frame) :=
  match frames with
  | [] => ret (tasks, original_frames)
  | frame :: rest =>
      let original_frames := <[frame_number := frame]> original_frames in
      match cv_imencode frame with
      | None =>
          print "Error codificando frame" ;;;
          dispatch_loop rest frame_number tasks original_frames processing_type metadata
      | Some encoded =>
          let metadata_with_session :=
            worker.dict_remove metadata "session_id" ++ [("session_id", JStr (session_id W))] in
          apply_async (mkTask encoded frame_number processing_type metadata_with_session) ;;;
          dispatch_loop rest (frame_number + 1) (tasks ++ [frame_number])
            original_frames processing_type metadata
      end
  end.

(** [_extract_and_dispatch_frames_sync] (run by [dispatch_tasks]) *)
Definition dispatch_tasks (processing_type : json) (metadata : list (string * json))
    (metrics : stats.MetricsCollector float) (video_path : string)
    : M (list Z * gmap Z Frame * VideoProps * stats.MetricsCollector float) :=
  (fun s => (Return tt, with_fs (rmtree frames_dir (fs s)) s)) ;;;
  content <- (fun s => (Return (fs s !! video_path), s)) ;;
  match match content with Some (FRaw b) => cv_capture b | _ => None end with
  | None => raise (ValueError ("No se pudo abrir el video: " +:+ video_path))
  | Some (video_props, frames) =>
      let metrics := stats.set_total_frames metrics (vp_total_frames video_props) in
      r <- dispatch_loop frames 0 [] ∅ processing_type metadata ;;
      ret (fst r, snd r, video_props, metrics)
  end.

Definition default_stats : json :=
  JDict [("processing_time_ms", JInt 0); ("memory_mb", JInt 0);
         ("memory_delta_mb", JInt 0); ("filter_applied", JStr "unknown");
         ("worker_id", JStr "unknown"); ("hostname", JStr "unknown")].

(** [wait_for_frame] against the volume as the workers leave it: the
    result once both files exist, [TimeoutError] when they never do. *)
Definition wait_for_frame (f : gmap string file) (frame_number : Z) : result json :=
  let frame_path := frame_png frames_dir frame_number in
  let stats_path := frame_json frames_dir frame_number in
  match f !! frame_path, f !! stats_path with
  | Some _, Some doc =>
      let stats :=
        match doc with
        | FJsonDoc j => j
        | FRaw b => match messages.decode_payload b with Return j => j | Raise _ => default_stats end
        | FFrame _ => default_stats
        end in
      Return (JDict [("frame_path", JStr frame_path);
                     ("frame_number", JInt frame_number);
                     ("stats", stats)])
  | _, _ => Raise TimeoutError
  end.

(** [get_celery_results]: [asyncio.gather(..., return_exceptions=True)] *)
Definition get_celery_results (tasks : list Z) : M (list (result json)) :=
  fun s =>
    let f := run_workers W (queue s) (fs s) in
    (Return (map (wait_for_frame f) tasks), with_fs f s).

(** [stats] as the loop uses it: a dict, or the exception its first
    [in] or [.get] raises. *)
Definition stats_dict (stats : json) : result (list (string * json)) :=
  match stats with
  | JDict d => Return d
  | JList _ | JStr _ => Raise AttributeError
  | _ => Raise TypeError
  end.

(** A numeric field of the sidecar, as a float.  (A field that is not a
    number is a [TypeError] here; Python raises it at the first arithmetic
    on the value.) *)
Definition number_of (v : json) : result float :=
  match v with
  | JInt z => Return (float_of_int z)
  | JFloat x => Return x
  | JBool b => Return (if b then 1%float else 0%float)
  | _ => Raise TypeError
  end.

Definition optional_str (v : option json) : option string :=
  match v with
  | None | Some JNull => None
  | Some v => Some (str_of v)
  end.

(** The choice of [processed_frame] for one result:
    the frame, the stats and [is_fallback]. *)
Definition choose_frame (f : gmap string file) (original_frames : gmap Z Frame)
    (video_props : VideoProps) (frame_num : Z) (res : result json)
    : result (Frame * list (string * json) * bool) :=
  chosen <-!
    (match res with
     | Raise _ => Return (original_frames !! frame_num, [], true)
     | Return r =>
         d <-! worker.as_dict r;
         stats <-! stats_dict (worker.dict_get_default d "stats" (JDict []));
         if bool_decide (is_Some (dict_get stats "error")) then
           Return (original_frames !! frame_num, stats, true)
         else
           match dict_get d "frame_path" with
           | Some (JStr frame_path) =>
               match f !! frame_path with
               | Some (FFrame processed) => Return (Some processed, stats, false)
               | _ => Return (original_frames !! frame_num, stats, true)
               end
           | _ => Return (original_frames !! frame_num, stats, true)
           end
     end);
  let '(processed_frame, stats, is_fallback) := chosen in
  match processed_frame with
  | Some frame => Return (frame, stats, is_fallback)
  | None =>
      black <-! np_zeros (vp_height video_props) (vp_width video_props);
      Return (black, stats, true)
  end.

(** The [for i, result in enumerate(all_results)] loop. *)
Fixpoint results_loop (results : list (result json * Z))
    (original_frames : gmap Z Frame) (video_props : VideoProps)
    (frame_buffer : writer.VideoFrameBuffer) (metrics : stats.MetricsCollector float)
    : M (writer.VideoFrameBuffer * stats.MetricsCollector float) :=
  match results with
  | [] => ret (frame_buffer, metrics)
  | (res, frame_num) :: rest =>
      f <- (fun s => (Return (fs s), s)) ;;
      chosen <- lift (choose_frame f original_frames video_props frame_num res) ;;
      let '(processed_frame, stats, is_fallback) := chosen in
      frame_buffer <-
        (match writer.add_frame frame_buffer frame_num processed_frame with
         | (Return _, fb) => ret fb
         | (Raise e, _) => raise e
         end) ;;
      time_ms <- lift (number_of (worker.dict_get_default stats "processing_time_ms" (JInt 0))) ;;
      memory <- lift (number_of (worker.dict_get_default stats "memory_mb" (JInt 0))) ;;
      let metrics :=
        stats.record_frame metrics frame_num time_ms
          (optional_str (dict_get stats "hostname"))
          (if is_fallback then Some "fallback"
           else optional_str (dict_get stats "filter_applied"))
          memory is_fallback in
      when (bool_decide ((frame_num + 1) mod 30 = 0))
        (print ("Progreso: " +:+ pretty (frame_num + 1) +:+ "/"
                +:+ pretty (vp_total_frames video_props) +:+ " frames procesados")) ;;;
      results_loop rest original_frames video_props frame_buffer metrics
  end.

Definition summary_json (s : stats.Summary float) : json :=
  JDict [("total_frames", JInt (stats.s_total_frames s));
         ("frames_processed", JInt (stats.s_frames_processed s));
         ("frames_failed", JInt (stats.s_frames_failed s));
         ("retries", JInt (stats.s_retries s));
         ("processing_time_seconds", JFloat (stats.s_processing_time_seconds s));
         ("fps_processing", JFloat (stats.s_fps_processing s));
         ("latency_p50_ms", JFloat (stats.s_latency_p50_ms s));
         ("latency_p95_ms", JFloat (stats.s_latency_p95_ms s));
         ("latency_p99_ms", JFloat (stats.s_latency_p99_ms s));
         ("latency_avg_ms", JFloat (stats.s_latency_avg_ms s));
         ("latency_min_ms", JFloat (stats.s_latency_min_ms s));
         ("latency_max_ms", JFloat (stats.s_latency_max_ms s));
         ("worker_count", JInt (stats.s_worker_count s));
         ("filters_applied",
          JDict (map (fun kv => (fst kv, JInt (snd kv)))
                   (map_to_list (stats.s_filters_applied s))))].

(** The file a [cv2.VideoWriter] that opened leaves at its path. *)
Definition output_file (w : writer.VideoWriter) (f : gmap string file) : gmap string file :=
  match writer.writer w, writer.frame_size w with
  | Some cv, Some sz =>
      if writer.cv_released cv then
        <[writer.output_path w :=
            FRaw (cv_container (writer.fourcc_str w) (writer.fps w) sz (writer.cv_frames cv))]> f
      else f
  | _, _ => f
  end.

Definition _process_results_sync (all_results : list (result json)) (tasks : list Z)
    (original_frames : gmap Z Frame) (video_props : VideoProps)
    (output_path : string) (codec : json) (metrics : stats.MetricsCollector float)
    : M (list (string * json)) :=
  let w := writer.VideoWriter_init output_path (str_of codec) (vp_fps video_props)
             (Some (vp_width video_props, vp_height video_props)) in
  let frame_buffer := writer.VideoFrameBuffer_init w in
  r <- results_loop (zip all_results tasks) original_frames video_props frame_buffer metrics ;;
  let '(frame_buffer, metrics) := r in
  frame_buffer <-
    (match writer.flush_remaining frame_buffer (vp_total_frames video_props) with
     | (Return _, fb) => ret fb
     | (Raise e, _) => raise e
     end) ;;
  let w := writer.close (writer.fb_writer frame_buffer) in
  (fun s => (Return tt, with_fs (output_file w (fs s)) s)) ;;;
  t <- time_time ;;
  t' <- time_time ;;
  summary <- lift (stats.get_summary statistics_mean metrics t t') ;;
  ret [("ok", JBool true); ("output_path", JStr output_path);
       ("metrics", summary_json summary)].

(** [process_results]: the [progress_callback] argument is accepted and
    not passed on to [_process_results_sync]. *)
Definition process_results (all_results : list (result json)) (tasks : list Z)
    (original_frames : gmap Z Frame) (video_props : VideoProps)
    (output_path : string) (codec : json) (metrics : stats.MetricsCollector float)
    (progress_callback : list (string * json) -> M unit)
    : M (list (string * json)) :=
  _process_results_sync all_results tasks original_frames video_props
    output_path codec metrics.

(** ** [ClientHandler.handle] *)

(** [d[key]] *)
Definition dict_item (d : list (string * json)) (key : string) : M json :=
  match dict_get d key with
  | Some v => ret v
  | None => raise (RuntimeError ("KeyError: " +:+ key))
  end.

Definition fmt_number (v : json) (digits : nat) : M string :=
  x <- lift (number_of v) ;; ret (float_fmt x digits).

(** The closure [progress_callback] defined in [handle]. *)
Definition progress_callback (progress : list (string * json)) : M unit :=
  frames_processed <- dict_item progress "frames_processed" ;;
  frames_total <- dict_item progress "frames_total" ;;
  fps <- dict_item progress "fps" ;;
  eta_seconds <- dict_item progress "eta_seconds" ;;
  _send_message (messages.make_progress frames_processed frames_total fps eta_seconds) ;;;
  when (redis_client W)
    (try_except
       (redis_set (session_key "processed_frames") (str_of frames_processed) ;;;
        fps_text <- fmt_number fps 2 ;;
        redis_set (session_key "current_fps") fps_text ;;;
        eta_text <- fmt_number eta_seconds 1 ;;
        redis_set (session_key "eta_seconds") eta_text ;;;
        for_each ["processed_frames"; "current_fps"; "eta_seconds"]
          (fun key => redis_expire (session_key key) 3600))
       (fun _ => ret tt)).

(** The metadata block written after dispatch. *)
Definition publish_metadata (handshake : list (string * json)) (video_props : VideoProps)
    : M unit :=
  when (redis_client W)
    (try_except
       (let video_info := worker.dict_get_default handshake "video_info" (JDict []) in
        redis_set (session_key "total_frames") (pretty (vp_total_frames video_props)) ;;;
        redis_set (session_key "fps") (float_fmt (vp_fps video_props) 2) ;;;
        redis_set (session_key "resolution")
          (pretty (vp_width video_props) +:+ "x" +:+ pretty (vp_height video_props)) ;;;
        redis_set (session_key "status") "processing" ;;;
        redis_set (session_key "processing_type")
          (str_of (worker.dict_get_default handshake "processing" (JStr "none"))) ;;;
        video_info <- lift (worker.as_dict video_info) ;;
        redis_set (session_key "video_name")
          (str_of (worker.dict_get_default video_info "filename" (JStr "unknown"))) ;;;
        t <- time_time ;;
        redis_set (session_key "start_time") (float_str t) ;;;
        for_each ["total_frames"; "fps"; "resolution"; "status";
                  "processing_type"; "video_name"; "start_time"]
          (fun key => redis_expire (session_key key) 3600) ;;;
        print "Metadata guardada en Redis")
       (fun _ => print "Error guardando metadata en Redis")).

Definition publish_completed : M unit :=
  when (redis_client W)
    (try_except
       (redis_set (session_key "status") "completed" ;;;
        t <- time_time ;;
        redis_set (session_key "end_time") (float_str t) ;;;
        redis_expire (session_key "end_time") 3600 ;;;
        print "Estado actualizado a 'completed' en Redis")
       (fun _ => print "Error actualizando estado en Redis")).

(** [handle] from the acknowledgement on, for a handshake dict. *)
Definition handle_session (handshake : list (string * json)) : M unit :=
  _send_message (messages.make_handshake_ack true (session_id W) JNull) ;;;
  video_path <- _receive_video ;;
  t0 <- time_time ;;
  let metrics := stats.init t0 in
  r <- dispatch_tasks (worker.dict_get_default handshake "processing" (JStr "blur"))
         handshake metrics video_path ;;
  let '(tasks, original_frames, video_props, metrics) := r in
  publish_metadata handshake video_props ;;;
  all_results <- get_celery_results tasks ;;
  res <- process_results all_results tasks original_frames video_props output_path
           (worker.dict_get_default handshake "codec" (JStr "mp4v")) metrics
           progress_callback ;;
  when (truthy (worker.dict_get_default res "ok" JNull)) publish_completed ;;;
  video_data <- _read_video_file output_path ;;
  ok <- dict_item res "ok" ;;
  metrics_summary <- dict_item res "metrics" ;;
  _send_message (messages.make_result ok output_path (messages.len video_data)
                   metrics_summary) ;;;
  write_drain (Bytes video_data).

(** [handshake.get("type")]: only a dict has [get]. *)
Definition get_type (handshake : json) : M (option json) :=
  match handshake with
  | JDict d => ret (dict_get d "type")
  | _ => raise AttributeError
  end.

Definition is_handshake (ty : option json) : bool :=
  match ty with
  | Some (JStr s) => String.eqb s "handshake"
  | _ => false
  end.

(** The body of the [try] block of [handle]. *)
Definition handle_try : M unit :=
  handshake <- _recv_message ;;
  if negb (truthy handshake) then _send_error "INVALID_HANDSHAKE" "Se esperaba handshake"
  else
    ty <- get_type handshake ;;
    if negb (is_handshake ty) then _send_error "INVALID_HANDSHAKE" "Se esperaba handshake"
    else
      match handshake with
      | JDict d => handle_session d
      | _ => raise AttributeError
      end.

Definition handle : M unit :=
  try_finally
    (try_except handle_try
       (fun e => _send_error "PROCESSING_ERROR" (worker.exn_str e)))
    writer_close.

(** ** Specification vocabulary *)

(** The [type] of a message written to the client. *)
Definition message_type (x : item) : option string :=
  match x with
  | Message (JDict d) =>
      match dict_get d "type" with
      | Some (JStr t) => Some t
      | _ => None
      end
  | _ => None
  end.

(** The [code] of an [error] message written to the client. *)
Definition message_code (x : item) : option string :=
  match x with
  | Message (JDict d) =>
      match dict_get d "code" with
      | Some (JStr c) => Some c
      | _ => None
      end
  | _ => None
  end.

Definition is_progress (x : item) : bool :=
  match message_type x with
  | Some t => String.eqb t "progress"
  | None => false
  end.

(** The fields a progress tick would publish (under the name the
    dashboard reads and the one [progress_callback] writes). *)
Definition progress_fields : list string :=
  ["frames_processed"; "processed_frames"; "current_fps"; "eta_seconds"].

(** The value stored under a key, without its time to live. *)
Definition stored (r : gmap string (string * option Z)) (key : string) : option string :=
  fst <$> r !! key.

(** What a session's [status] can be, given what it was at the start. *)
Definition status_ok (before after : option string) : Prop :=
  after = before \/ after = Some "processing" \/ after = Some "completed".

(** Since state [s0]: no [progress] message was written to the client, no
    progress field was published, and [status] was only ever set to
    [processing] or [completed]. *)
Definition quiet (s0 s : state) : Prop :=
  (exists new, sent s = sent s0 ++ new /\ Forall (fun x => is_progress x = false) new) /\
  (forall field, field ∈ progress_fields ->
     stored (redis s) (session_key field) = stored (redis s0) (session_key field)) /\
  status_ok (stored (redis s0) (session_key "status"))
            (stored (redis s) (session_key "status")).

(** A computation keeps [P]: whatever it returns or raises, [P] holds of
    the state it leaves. *)
Definition preserves {A} (P : state -> Prop) (m : M A) : Prop :=
  forall s, P s -> P (snd (m s)).

(** A field and value [handle] may store without breaking [quiet]. *)
Definition may_store (field value : string) : bool :=
  negb (bool_decide (field ∈ progress_fields))
  && (negb (String.eqb field "status")
      || String.eqb value "processing" || String.eqb value "completed").

(** The first message is refused: it is absent or falsy, or a dict whose
    [type] is not [handshake]. *)
Definition refused (first : json) : Prop :=
  truthy first = false \/
  exists d, first = JDict d /\ is_handshake (dict_get d "type") = false.

(** ** The conversation with the client *)

(** The prefix of every key of the session in the state store. *)
Definition namespace : string := "session:" +:+ session_id W +:+ ":".

Definition acknowledgement : item :=
  Message (messages.make_handshake_ack true (session_id W) JNull).

(** A [result] message for a video: [ok] is [True] and [size_bytes] is
    the length of the video. *)
Definition announcement (metrics : json) (video : list Byte.byte) : item :=
  Message (messages.make_result (JBool true) output_path (messages.len video) metrics).

Definition error_item (code message : string) : item :=
  Message (messages.make_error code message false).

(** What a session that stops early has written. *)
Definition cut_short (l : list item) : Prop :=
  l = [] \/ l = [acknowledgement] \/
  exists metrics video, l = [acknowledgement; announcement metrics video].

(** What a session that runs to its end has written. *)
Definition complete (l : list item) : Prop :=
  exists metrics video, l = [acknowledgement; announcement metrics video; Bytes video].

(** The server's side of a conversation: a complete session, or one cut
    short and ended by at most one [error] message. *)
Definition conversation (l : list item) : Prop :=
  complete l \/
  exists begun, cut_short begun /\
    (l = begun \/
     exists code message,
       code ∈ ["INVALID_HANDSHAKE"; "PROCESSING_ERROR"] /\
       l = begun ++ [error_item code message]).

(** From a state whose stream holds [pre], [m] leaves a result and a
    stream of which [Q] holds. *)
Definition from_sent {A} (pre : list item) (m : M A)
    (Q : result A -> list item -> Prop) : Prop :=
  forall s, sent s = pre -> Q (fst (m s)) (sent (snd (m s))).

End Server.
End server.

(* ===================================================================== *)
(** * Reference instances of the library boundaries *)
(* ===================================================================== *)

(** Small executable stand-ins for [json], OpenCV, the filters and text
    formatting, used to run the embedded code on concrete inputs. *)
Module ref.

Definition dquote : ascii := ascii_of_nat 34.
Definition backslash : ascii := ascii_of_nat 92.

Fixpoint escape (s : string) : string :=
  match s with
  | EmptyString => EmptyString
  | String c s' =>
      if (Ascii.eqb c dquote || Ascii.eqb c backslash)%bool
      then String backslash (String c (escape s'))
      else String c (escape s')
  end.

Definition quoted (s : string) : string :=
  String dquote (escape s +:+ String dquote EmptyString).

(** A fraction without its trailing zeros (one digit kept). *)
Fixpoint strip_zeros (s : string) : string :=
  match s with
  | EmptyString => EmptyString
  | String c r =>
      let r' := strip_zeros r in
      if (Ascii.eqb c "0" && String.eqb r' EmptyString)%bool then EmptyString
      else String c r'
  end.

Definition fraction (digits : string) : string :=
  match strip_zeros digits with
  | EmptyString => "0"
  | f => f
  end.

(** The exact decimal expansion of a finite float. *)
Definition print_float (x : float) : result string :=
  match Prim2SF x with
  | S754_zero s => Return (if s then "-0.0" else "0.0")
  | S754_finite s m e =>
      let sign := if s then "-" else EmptyString in
      if 0 <=? e then Return (sign +:+ pretty (Z.pos m * 2 ^ e) +:+ ".0")
      else
        let k := Z.to_nat (- e) in
        let digits := pad_zeros (S k) (pretty (Z.pos m * 5 ^ (- e))) in
        let split := (String.length digits - k)%nat in
        Return (sign +:+ String.substring 0 split digits +:+ "."
                +:+ fraction (String.substring split k digits))
  | _ => Raise (ValueError "Out of range float values are not JSON compliant")
  end.

(** [json.dumps] with its default separators. *)
Fixpoint print (v : json) : result string :=
  match v with
  | JNull => Return "null"
  | JBool true => Return "true"
  | JBool false => Return "false"
  | JInt z => Return (pretty z)
  | JFloat x => print_float x
  | JStr s => Return (quoted s)
  | JList l =>
      parts <-! (fix go (l : list json) : result (list string) :=
                   match l with
                   | [] => Return []
                   | x :: l' => s <-! print x; r <-! go l'; Return (s :: r)
                   end) l;
      Return ("[" +:+ String.concat ", " parts +:+ "]")
  | JDict d =>
      parts <-! (fix go (d : list (string * json)) : result (list string) :=
                   match d with
                   | [] => Return []
                   | (k, x) :: d' =>
                       s <-! print x; r <-! go d'; Return ((quoted k +:+ ": " +:+ s) :: r)
                   end) d;
      Return ("{" +:+ String.concat ", " parts +:+ "}")
  end.

Definition is_ws (c : ascii) : bool :=
  (Ascii.eqb c " " || Ascii.eqb c (ascii_of_nat 9)
   || Ascii.eqb c (ascii_of_nat 10) || Ascii.eqb c (ascii_of_nat 13))%bool.

Fixpoint skip_ws (s : string) : string :=
  match s with
  | String c s' => if is_ws c then skip_ws s' else s
  | EmptyString => s
  end.

Definition expect (word : string) (s : string) (v : json) : option (json * string) :=
  if String.prefix word s
  then Some (v, String.substring (String.length word) (String.length s - String.length word) s)
  else None.

(** The text of a string literal after its opening quote. *)
Fixpoint parse_string (s : string) (acc : string) : option (string * string) :=
  match s with
  | EmptyString => None
  | String c s' =>
      if Ascii.eqb c dquote then Some (acc, s')
      else if Ascii.eqb c backslash then
        match s' with
        | String c2 s'' => parse_string s'' (acc +:+ String c2 EmptyString)
        | EmptyString => None
        end
      else parse_string s' (acc +:+ String c EmptyString)
  end.

Definition digit_of (c : ascii) : option Z :=
  let n := Z.of_nat (nat_of_ascii c) in
  if (48 <=? n) && (n <=? 57) then Some (n - 48) else None.

(** Leading decimal digits: their value, how many, and the rest. *)
Fixpoint parse_digits (s : string) (acc : Z) (count : nat) : Z * nat * string :=
  match s with
  | String c s' =>
      match digit_of c with
      | Some d => parse_digits s' (10 * acc + d) (S count)
      | None => (acc, count, s)
      end
  | EmptyString => (acc, count, s)
  end.

Definition float_of_decimal (negative : bool) (n : Z) (k : nat) : float :=
  let p5 := 5 ^ Z.of_nat k in
  let x :=
    if n mod p5 =? 0 then SF2Prim (binary_normalize prec emax (n / p5) (- Z.of_nat k) false)
    else (float_of_int n / float_of_int (10 ^ Z.of_nat k))%float in
  if negative then (- x)%float else x.

Definition parse_number (s : string) : option (json * string) :=
  let '(negative, s1) :=
    match s with
    | String "-" r => (true, r)
    | _ => (false, s)
    end in
  let '(int_part, n1, s2) := parse_digits s1 0 0 in
  if Nat.eqb n1 0 then None
  else
    match s2 with
    | String "." r =>
        let '(all_digits, n2, s3) := parse_digits r int_part 0 in
        if Nat.eqb n2 0 then None
        else Some (JFloat (float_of_decimal negative all_digits n2), s3)
    | _ => Some (JInt (if negative then - int_part else int_part), s2)
    end.

Fixpoint parse_value (fuel : nat) (s : string) : option (json * string) :=
  match fuel with
  | O => None
  | S fuel =>
      match skip_ws s with
      | EmptyString => None
      | String c r as s0 =>
          if Ascii.eqb c "n" then expect "null" s0 JNull
          else if Ascii.eqb c "t" then expect "true" s0 (JBool true)
          else if Ascii.eqb c "f" then expect "false" s0 (JBool false)
          else if Ascii.eqb c dquote then
            match parse_string r EmptyString with
            | Some (text, rest) => Some (JStr text, rest)
            | None => None
            end
          else if Ascii.eqb c "[" then
            match skip_ws r with
            | String "]" rest => Some (JList [], rest)
            | _ => parse_items fuel r []
            end
          else if Ascii.eqb c "{" then
            match skip_ws r with
            | String "}" rest => Some (JDict [], rest)
            | _ => parse_members fuel r []
            end
          else parse_number s0
      end
  end
with parse_items (fuel : nat) (s : string) (acc : list json) : option (json * string) :=
  match fuel with
  | O => None
  | S fuel =>
      match parse_value fuel s with
      | Some (v, rest) =>
          match skip_ws rest with
          | String "," r => parse_items fuel r (acc ++ [v])
          | String "]" r => Some (JList (acc ++ [v]), r)
          | _ => None
          end
      | None => None
      end
  end
with parse_members (fuel : nat) (s : string) (acc : list (string * json))
    : option (json * string) :=
  match fuel with
  | O => None
  | S fuel =>
      match skip_ws s with
      | String c r =>
          if Ascii.eqb c dquote then
            match parse_string r EmptyString with
            | Some (key, rest) =>
                match skip_ws rest with
                | String ":" r1 =>
                    match parse_value fuel r1 with
                    | Some (v, rest1) =>
                        match skip_ws rest1 with
                        | String "," r2 => parse_members fuel r2 (acc ++ [(key, v)])
                        | String "}" r2 => Some (JDict (acc ++ [(key, v)]), r2)
                        | _ => None
                        end
                    | None => None
                    end
                | _ => None
                end
            | None => None
            end
          else None
      | EmptyString => None
      end
  end.

Definition parse (s : string) : option json :=
  match parse_value (2 * String.length s + 2) s with
  | Some (v, rest) =>
      match skip_ws rest with
      | EmptyString => Some v
      | _ => None
      end
  | None => None
  end.

(** Well-formed UTF-8, by lead byte and continuation bytes. *)
Fixpoint utf8_ok (pending : nat) (b : list Byte.byte) : bool :=
  match b with
  | [] => Nat.eqb pending 0
  | x :: b' =>
      let n := messages.Z_of_byte x in
      match pending with
      | O =>
          if n <? 128 then utf8_ok 0 b'
          else if (194 <=? n) && (n <? 224) then utf8_ok 1 b'
          else if (224 <=? n) && (n <? 240) then utf8_ok 2 b'
          else if (240 <=? n) && (n <? 245) then utf8_ok 3 b'
          else false
      | S p => if (128 <=? n) && (n <? 192) then utf8_ok p b' else false
      end
  end.

#[export] Instance json_lib : JSONLib := {
  json_dumps := fun v => s <-! print v; Return (list_byte_of_string s);
  utf8_decodes := utf8_ok 0;
  json_loads := fun b => parse (string_of_list_byte b)
}.

(** Nearest-neighbour resampling to [(width, height)]. *)
Definition resize_nearest (f : Frame) (sz : Z * Z) : Frame :=
  mkFrame (snd sz) (fst sz)
    (flat_map (fun y =>
       flat_map (fun x =>
         map (fun c =>
                default 0 (pixels f !! Z.to_nat
                  (((y * height f / snd sz) * width f + x * width f / fst sz) * 3 + c)))
             [0; 1; 2])
         (seqZ 0 (fst sz)))
       (seqZ 0 (snd sz))).

(** A toy image format: height, width, then the samples, one byte each. *)
Definition encode_frame (f : Frame) : option (list Byte.byte) :=
  if (0 <=? height f) && (height f <? 256) && (0 <=? width f) && (width f <? 256)
  then Some (messages.byte_of_Z (height f) :: messages.byte_of_Z (width f)
             :: map messages.byte_of_Z (pixels f))
  else None.

Definition decode_frame (data : list Byte.byte) : option Frame :=
  match data with
  | h :: w :: px =>
      if messages.len px =? messages.Z_of_byte h * messages.Z_of_byte w * 3
      then Some (mkFrame (messages.Z_of_byte h) (messages.Z_of_byte w)
                   (map messages.Z_of_byte px))
      else None
  | _ => None
  end.

(** A toy container: every byte is one 1x1 frame, at 30 frames a second. *)
Definition capture (data : list Byte.byte) : option (VideoProps * list Frame) :=
  match data with
  | [] => None
  | _ =>
      Some (mkVideoProps 30%float (messages.len data) 1 1,
            map (fun b => let v := messages.Z_of_byte b in mkFrame 1 1 [v; v; v]) data)
  end.

#[export] Instance opencv : OpenCV := {
  cv_writer_opens := fun _ _ _ _ => true;
  cv_write_raises := fun _ _ => false;
  cv_resize := resize_nearest;
  cv_imdecode := decode_frame;
  cv_imencode := encode_frame;
  cv_capture := capture;
  cv_imwrite_ok := fun _ _ => true;
  cv_container := fun _ _ _ frames =>
    flat_map (fun f => map messages.byte_of_Z (pixels f)) frames
}.

(** The same, with an encoder that never opens. *)
Definition opencv_no_encoder : OpenCV := {|
  cv_writer_opens := fun _ _ _ _ => false;
  cv_write_raises := fun _ _ => false;
  cv_resize := resize_nearest;
  cv_imdecode := decode_frame;
  cv_imencode := encode_frame;
  cv_capture := capture;
  cv_imwrite_ok := fun _ _ => true;
  cv_container := fun _ _ _ frames =>
    flat_map (fun f => map messages.byte_of_Z (pixels f)) frames
|}.

#[export] Instance opencv_resize : OpenCVResize.
Proof. intros f [w h]. reflexivity. Qed.

(** [f"{x:.nf}"]: round half to even at [digits] decimals. *)
Definition fixed (x : float) (digits : nat) : string :=
  match Prim2SF x with
  | S754_finite s m e =>
      let scale := 10 ^ Z.of_nat digits in
      let num := Z.pos m * scale * (if 0 <=? e then 2 ^ e else 1) in
      let den := if 0 <=? e then 1 else 2 ^ (- e) in
      let q := num / den in
      let r := num mod den in
      let n := if (den <? 2 * r) || ((2 * r =? den) && Z.odd q) then q + 1 else q in
      (if s then "-" else EmptyString) +:+ pretty (n / scale)
      +:+ (if Nat.eqb digits 0 then EmptyString
           else "." +:+ pad_zeros digits (pretty (n mod scale)))
  | S754_zero _ =>
      "0" +:+ (if Nat.eqb digits 0 then EmptyString else "." +:+ pad_zeros digits EmptyString)
  | S754_infinity s => if s then "-inf" else "inf"
  | S754_nan => "nan"
  end.

#[export] Instance py_format : PyFormat := {
  py_repr := fun v => match print v with Return s => s | Raise _ => "?" end;
  float_str := fun x => match print_float x with Return s => s | Raise _ => "nan" end;
  float_fmt := fixed;
  statistics_mean := fun l =>
    (fold_left PrimFloat.add l 0 / float_of_int (Z.of_nat (length l)))%float
}.

(** Filters that return the frame unchanged. *)
Definition filters_identity : Filters := {|
  apply_blur := fun f _ _ => Return f;
  apply_edge_detection := fun f _ _ => Return f;
  detect_and_draw_faces := fun f _ => Return f;
  detect_motion := fun _ f _ _ => Return f
|}.

(** Filters that raise on every frame. *)
Definition filters_failing : Filters := {|
  apply_blur := fun _ _ _ => Raise (RuntimeError "filter failed");
  apply_edge_detection := fun _ _ _ => Raise (RuntimeError "filter failed");
  detect_and_draw_faces := fun _ _ => Raise (RuntimeError "filter failed");
  detect_motion := fun _ _ _ _ => Raise (RuntimeError "filter failed")
|}.

End ref.

(* ===================================================================== *)
(** * Concrete inputs *)
(* ===================================================================== *)

Module examples.

(** Two frames processed in 1.3 ms each. *)
Definition two_equal_latencies : stats.MetricsCollector float :=
  stats.run (stats.init 0%float)
    [stats.RecordFrame 0 1.3%float None None 0%float false;
     stats.RecordFrame 1 1.3%float None None 0%float false].

(** Latencies 30, 10 and 20 ms, as exact rationals. *)
Definition three_latencies : stats.MetricsCollector Q :=
  stats.run (stats.init (inject_Z 0))
    [stats.RecordFrame 0 (inject_Z 30) None None (inject_Z 0) false;
     stats.RecordFrame 1 (inject_Z 10) None None (inject_Z 0) false;
     stats.RecordFrame 2 (inject_Z 20) None None (inject_Z 0) false].

(** One frame of four processed, the collector created at time 0
    (exact) and at time 5 (binary64). *)
Definition one_of_four : stats.MetricsCollector Q :=
  stats.run (stats.init (inject_Z 0))
    [stats.SetTotalFrames 4;
     stats.RecordFrame 0 (inject_Z 30) (Some "worker-1") (Some "blur_gaussian")
       (inject_Z 0) false].

Definition one_of_four_float : stats.MetricsCollector float :=
  stats.run (stats.init 5%float)
    [stats.SetTotalFrames 4;
     stats.RecordFrame 0 30%float (Some "worker-1") (Some "blur_gaussian") 0%float false].

(** Two 2x1 frames and a 1x1 frame. *)
Definition frame_a : Frame := mkFrame 1 2 [10; 11; 12; 13; 14; 15].
Definition frame_b : Frame := mkFrame 1 2 [20; 21; 22; 23; 24; 25].
Definition frame_small : Frame := mkFrame 1 1 [7; 8; 9].

(** Index 2 arrives before index 0; index 1 never arrives. *)
Definition out_of_order : list (Z * Frame) := [(2, frame_a); (0, frame_b)].

(** A fresh buffer over a 2x1 writer, on the reference OpenCV. *)
Definition fresh_buffer : writer.VideoFrameBuffer :=
  writer.VideoFrameBuffer_init
    (writer.VideoWriter_init "output_ab12cd34.mp4" "mp4v" 30%float (Some (2, 1))).

(** An open 2x1 writer that has encoded one frame. *)
Definition open_writer : writer.VideoWriter :=
  snd (writer.write (H := ref.opencv)
         (writer.VideoWriter_init "output_ab12cd34.mp4" "mp4v" 30%float (Some (2, 1)))
         frame_a).

(** Two writes to a writer with no declared size, then [close] and one
    more write. *)
Definition reopening_calls : list writer.call :=
  [writer.Write frame_small; writer.Write frame_a; writer.Close; writer.Write frame_b].

Definition unsized_writer : writer.VideoWriter :=
  writer.VideoWriter_init "output_ab12cd34.mp4" "mp4v" 30%float None.

(** The fresh buffer after frame 0 has arrived and been written. *)
Definition buffer_after_first : writer.VideoFrameBuffer :=
  snd (writer.add_frame (H := ref.opencv) fresh_buffer 0 frame_b).

(** Indices 2, 0 and 1, each once. *)
Definition shuffled : list (Z * Frame) := [(2, frame_a); (0, frame_b); (1, frame_a)].

(** [n] copies of a character. *)
Fixpoint repeat_char (c : ascii) (n : nat) : string :=
  match n with
  | O => EmptyString
  | S n' => String c (repeat_char c n')
  end.

(** A string of 2^27 letters: its JSON text is 128 MiB and two quotes. *)
Definition big_message : json := JStr (repeat_char "a" (Nat.pow 2 27)).

(** A small handshake message. *)
Definition handshake : json :=
  JDict [("type", JStr "handshake"); ("version", JInt 1); ("mode", JStr "stream");
         ("codec", JStr "mp4v"); ("processing", JStr "blur"); ("filters", JList []);
         ("video_info", JDict [("filename", JStr "clip.mp4"); ("size_bytes", JInt 3)])].

(** A connection to a peer that has not sent anything yet. *)
Definition idle_socket : messages.socket := messages.mkSocket [] [] false.

(** The JSON text of [handshake], by the reference codec. *)
Definition handshake_payload : list Byte.byte :=
  match @json_dumps ref.json_lib handshake with
  | Return payload => payload
  | Raise _ => []
  end.

(** The four letters [null]. *)
Definition null_text : list Byte.byte := list_byte_of_string "null".

(** ** Messages on a stream *)

Definition progress_msg : json :=
  messages.make_progress (JInt 30) (JInt 60) (JInt 12) (JInt 3).

Definition result_msg : json :=
  messages.make_result (JBool true) "output_ab12cd34.mp4" 2 (JDict [("retries", JInt 0)]).

(** The bytes of messages sent one after the other, by the reference codec. *)
Definition wire_of_all (msgs : list json) : list Byte.byte :=
  message_stream.wire (H := ref.json_lib) msgs.

(** Bytes cut in two after the fifth. *)
Definition cut (data : list Byte.byte) : list (list Byte.byte) :=
  [take 5 data; drop 5 data].

Definition progress_then_result : list json := [progress_msg; result_msg].

Definition progress_result_progress : list json := [progress_msg; result_msg; progress_msg].

(** ** A session *)

Definition session : string := "ab12cd34".

(** The bytes of a message on the wire, by the reference codec. *)
Definition wire_of (m : json) : list Byte.byte :=
  messages.outgoing (snd (messages.send_message (H := ref.json_lib) idle_socket m)).

(** One task run as Celery runs it: again after each [Retry], with
    [retries] one higher. *)
Definition run_task (filters : Filters) (t : server.task) (fs : gmap string file)
    : gmap string file :=
  let processing_type :=
    match server.t_processing_type t with JStr s => s | _ => EmptyString end in
  (fix attempt (left : nat) (retries : Z) : gmap string file :=
     match left with
     | O => fs
     | S left' =>
         match worker.process_frame (H := ref.opencv) (H0 := filters) (H1 := ref.py_format)
                 (worker.mkRequest retries "task-1" "worker-1" 2.5%float 100%float 101%float)
                 fs (server.t_frame_data t) (server.t_frame_number t)
                 processing_type (server.t_metadata t) with
         | (Raise _, _) => attempt left' (retries + 1)
         | (Return _, fs') => fs'
         end
     end) 4%nat 0.

Definition pool (filters : Filters) (tasks : list server.task) (fs : gmap string file)
    : gmap string file :=
  fold_left (fun f t => run_task filters t f) tasks fs.

(** A world in which nothing fails: Redis, the stream and the broker
    work, and the workers apply [filters]. *)
Definition world (filters : Filters) : server.World :=
  server.mkWorld session true (fun _ => false) (fun _ => false) (fun _ => false)
    (fun n => float_of_int (Z.of_nat n)) (pool filters).

(** A client that sends [first] as its first message, then [video], then
    closes its side. *)
Definition client (first : json) (video : list Byte.byte) : server.state :=
  server.initial [messages.Data (wire_of first ++ video)].

(** Thirty bytes: a video of thirty frames in the reference container. *)
Definition thirty_frames : list Byte.byte := replicate 30 Byte.x07.

(** A first message whose [type] is [hello]. *)
Definition hello : json := JDict [("type", JStr "hello")].

(** The last run of a task whose filter keeps failing: frame 0 of the
    session, [retries] at its maximum. *)
Definition exhausted : worker.Request :=
  worker.mkRequest 3 "task-1" "worker-1" 2.5%float 100%float 101%float.

Definition frame_small_png : list Byte.byte :=
  default [] (ref.encode_frame frame_small).

Definition session_metadata : list (string * json) := [("session_id", JStr session)].

(** [handle] for a client that sends [first] and then [video], on the
    reference codec and formatting, for a given OpenCV and filters. *)
Definition handle_on (cv : OpenCV) (filters : Filters) (first : json)
    (video : list Byte.byte) : result unit * server.state :=
  server.handle (H := cv) (H0 := ref.json_lib) (H1 := ref.py_format)
    (world filters) (client first video).

(** ** Raw bytes, unknown filters, dispatch *)

Definition three_bytes : list Byte.byte := [Byte.x01; Byte.x02; Byte.x03].

(** Three bytes followed by one more, delivered as two runs of two. *)
Definition two_runs : list (list Byte.byte) :=
  [[Byte.x01; Byte.x02]; [Byte.x03; Byte.x04]].

(** A pipeline of two steps the worker has no filter for. *)
Definition unknown_steps : list (string * json) :=
  [("filters", JList [JList [JStr "motion"; JDict []]; JList [JStr "sepia"; JDict []]])].

(** A first run of a task of the session: frame 0, no retries yet. *)
Definition first_run : worker.Request :=
  worker.mkRequest 0 "task-1" "worker-1" 2.5%float 100%float 101%float.

(** The worker's run of frame 0 of the session with the [blur] filter,
    on an empty volume. *)
Definition blur_run : result json * gmap string file :=
  worker.process_frame_try (H := ref.opencv) (H0 := ref.filters_identity)
    (H1 := ref.py_format) first_run ∅ frame_small_png 0 "blur"
    (worker.dict_remove [("session_id", JStr "other")] "session_id"
     ++ [("session_id", JStr session)]).

Definition blur_result : json :=
  match fst blur_run with Return r => r | Raise _ => JNull end.

(** A frame too tall for the reference image format. *)
Definition frame_tall : Frame := mkFrame 300 1 (replicate 900 0).

(** A video whose second frame does not encode. *)
Definition three_frames : list Frame := [frame_a; frame_tall; frame_b].

(** ** A session beside another one *)

(** The status key of another session, an hour to live. *)
Definition other_status : string := "session:ffffffff:status".

(** A client that sends the handshake and a video of two frames, while
    the state store holds the status of another session. *)
Definition client_beside_other : server.state :=
  server.with_redis (<[other_status := ("processing", Some 3600)]> ∅) 0
    (client handshake [Byte.x07; Byte.x08]).

(** ** Results on the volume *)

(** The world of the examples with filters that do nothing. *)
Definition plain_world : server.World := world ref.filters_identity.

(** The results for tasks 0 and 1 on the volume [blur_run] leaves: the
    files of frame 0 are there, those of frame 1 never appear. *)
Definition two_results : list (result json) :=
  map (server.wait_for_frame (H0 := ref.json_lib) plain_world (snd blur_run)) [0; 1].

(** A video declared to have three 1x1 frames, of which two were read. *)
Definition three_declared : VideoProps := mkVideoProps 30%float 3 1 1.

Definition two_originals : gmap Z Frame := <[1 := frame_b]> (<[0 := frame_a]> ∅).

Definition results_run : result (list (string * json)) * server.state :=
  server._process_results_sync (H := ref.opencv) (H1 := ref.py_format) plain_world
    two_results (seqZ 0 (Z.of_nat (length two_results))) two_originals three_declared
    "output_ab12cd34.mp4" (JStr "mp4v") (stats.init 0%float)
    (server.with_fs (snd blur_run) (server.initial [])).

Definition results_dict : list (string * json) :=
  match fst results_run with Return r => r | Raise _ => [] end.

(** ** An upload *)

Definition two_byte_video : list Byte.byte := [Byte.x07; Byte.x08].

(** What the client puts on the wire: the handshake, then the video. *)
Definition upload : list Byte.byte :=
  messages.outgoing
    (snd (messages.sendall
            (snd (messages.send_message (H := ref.json_lib)
                    (messages.mkSocket [] [] false) handshake))
            two_byte_video)).

(** A server state whose reader delivers the upload cut in two. *)
Definition uploading : server.state :=
  server.initial (messages.Data <$> cut upload).

End examples.

(* ===================================================================== *)
(** * Theorems: metrics collector *)
(* ===================================================================== *)

Lemma step_consistent {T : Type} `{Number T} (m : stats.MetricsCollector T) (c : stats.call T) :
  stats.counters_consistent m -> stats.counters_consistent (stats.step m c).
Proof.
  unfold stats.counters_consistent. intros Hm.
  destruct c as [i t w f mem failed| | |now]; simpl; try done.
  destruct failed; simpl; [lia|].
  rewrite length_app. simpl. lia.
Qed.

Lemma run_consistent {T : Type} `{Number T} (calls : list (stats.call T)) :
  forall m, stats.counters_consistent m -> stats.counters_consistent (stats.run m calls).
Proof.
  induction calls as [|c calls IH]; intros m Hm; [done|].
  simpl. apply IH. by apply step_consistent.
Qed.

(** C8: after any sequence of [record_frame], [record_retry],
    [set_total_frames] (and [reset]) calls on a collector that starts from
    construction or from a reset, [frames_processed] equals [frames_failed]
    plus the number of latency samples. *)
Theorem metrics_counters_consistent {T : Type} `{Number T}
    (now : T) (m0 : stats.MetricsCollector T) (calls : list (stats.call T)) :
  stats.counters_consistent (stats.run (stats.init now) calls) /\
  stats.counters_consistent (stats.run (stats.reset m0 now) calls).
Proof. split; apply run_consistent; reflexivity. Qed.

(** The counters on a concrete run. *)
Example three_latencies_counters :
  stats.frames_processed examples.three_latencies = 3 /\
  stats.frames_failed examples.three_latencies = 0 /\
  length (stats.latencies examples.three_latencies) = 3%nat.
Proof. by vm_compute. Qed.

Section SortedFacts.
Context {T : Type} `{Number T}.

Lemma insert_sorted_perm (x : T) (l : list T) : insert_sorted x l ≡ₚ x :: l.
Proof.
  induction l as [|y l IH]; simpl; [done|].
  destruct (nlt y x); [|done].
  rewrite IH. apply Permutation_swap.
Qed.

Lemma sorted_perm (l : list T) : sorted l ≡ₚ l.
Proof.
  induction l as [|x l IH]; simpl; [done|].
  rewrite insert_sorted_perm. by rewrite IH.
Qed.

Lemma sorted_length (l : list T) : length (sorted l) = length l.
Proof. by rewrite sorted_perm. Qed.

Lemma py_index_elem (l : list T) (i : Z) (x : T) : py_index l i = Return x -> x ∈ l.
Proof.
  unfold py_index. destruct (_ && _); [|done].
  destruct (l !! _) eqn:E; [|done]. intros [= <-].
  by eapply list_elem_of_lookup_2.
Qed.

Lemma py_index_in_range (l : list T) (i : Z) :
  0 <= i < Z.of_nat (length l) -> exists x, py_index l i = Return x.
Proof.
  intros Hi. unfold py_index.
  destruct (i <? 0) eqn:E; [lia|].
  assert ((0 <=? i) && (i <? Z.of_nat (length l)) = true) as -> by (apply andb_true_intro; split; lia).
  destruct (lookup_lt_is_Some_2 l (Z.to_nat i)) as [x Hx]; [lia|].
  rewrite Hx. eauto.
Qed.

Lemma py_index_last (l : list T) :
  l <> [] -> exists x, py_index l (-1) = Return x.
Proof.
  intros Hl. unfold py_index. simpl.
  assert (0 < Z.of_nat (length l)) by (destruct l; [done|simpl; lia]).
  assert ((0 <=? -1 + Z.of_nat (length l)) && (-1 + Z.of_nat (length l) <? Z.of_nat (length l)) = true) as ->
    by (apply andb_true_intro; split; lia).
  destruct (lookup_lt_is_Some_2 l (Z.to_nat (-1 + Z.of_nat (length l)))) as [x Hx]; [lia|].
  rewrite Hx. eauto.
Qed.
End SortedFacts.

Lemma Q_ltb_lt a b : Q_ltb a b = true <-> (a < b)%Q.
Proof.
  unfold Q_ltb. rewrite Qlt_alt. destruct (a ?= b)%Q; split; congruence.
Qed.

Lemma Q_ltb_ge a b : Q_ltb a b = false <-> (b <= a)%Q.
Proof.
  pose proof (Q_ltb_lt a b) as Hlt. pose proof (Qnot_lt_le a b). pose proof (Qle_not_lt b a).
  destruct (Q_ltb a b); split; intros; try congruence.
  - exfalso. apply (Qle_not_lt b a); [done|]. by apply Hlt.
  - apply Qnot_lt_le. intros Hc. apply Hlt in Hc. congruence.
Qed.

Lemma fold_min_le (l : list Q) (x0 : Q) :
  let r := fold_left (fun m y => if Q_ltb y m then y else m) l x0 in
  (r <= x0)%Q /\ forall y, y ∈ l -> (r <= y)%Q.
Proof.
  revert x0. induction l as [|a l IH]; intros x0; simpl.
  - split; [apply Qle_refl|]. intros y Hy. inversion Hy.
  - destruct (IH (if Q_ltb a x0 then a else x0)) as [H1 H2].
    destruct (Q_ltb a x0) eqn:E.
    + apply Q_ltb_lt in E. split; [lra|].
      intros y Hy. apply elem_of_cons in Hy as [->|Hy]; [done|by apply H2].
    + apply Q_ltb_ge in E. split; [done|].
      intros y Hy. apply elem_of_cons in Hy as [->|Hy]; [lra|by apply H2].
Qed.

Lemma fold_max_ge (l : list Q) (x0 : Q) :
  let r := fold_left (fun m y => if Q_ltb m y then y else m) l x0 in
  (x0 <= r)%Q /\ forall y, y ∈ l -> (y <= r)%Q.
Proof.
  revert x0. induction l as [|a l IH]; intros x0; simpl.
  - split; [apply Qle_refl|]. intros y Hy. inversion Hy.
  - destruct (IH (if Q_ltb x0 a then a else x0)) as [H1 H2].
    destruct (Q_ltb x0 a) eqn:E.
    + apply Q_ltb_lt in E. split; [lra|].
      intros y Hy. apply elem_of_cons in Hy as [->|Hy]; [done|by apply H2].
    + apply Q_ltb_ge in E. split; [done|].
      intros y Hy. apply elem_of_cons in Hy as [->|Hy]; [lra|by apply H2].
Qed.

Lemma py_min_le (d : Q) (l : list Q) (y : Q) : y ∈ l -> (py_min d l <= y)%Q.
Proof.
  destruct l as [|x l]; [inversion 1|]. simpl. intros Hy.
  destruct (fold_min_le l x) as [H1 H2].
  apply elem_of_cons in Hy as [->|Hy]; [done|by apply H2].
Qed.

Lemma py_max_ge (d : Q) (l : list Q) (y : Q) : y ∈ l -> (y <= py_max d l)%Q.
Proof.
  destruct l as [|x l]; [inversion 1|]. simpl. intros Hy.
  destruct (fold_max_ge l x) as [H1 H2].
  apply elem_of_cons in Hy as [->|Hy]; [done|by apply H2].
Qed.

(** [int(k)] of a non-negative rational is its floor. *)
Lemma Q_trunc_floor (k : Q) :
  (0 <= k)%Q -> 0 <= Q_trunc k /\ (inject_Z (Q_trunc k) <= k)%Q /\ (k < inject_Z (Q_trunc k) + 1)%Q.
Proof.
  intros Hk. unfold Q_trunc.
  assert (0 <= Qnum k) as Hn.
  { unfold Qle in Hk. simpl in Hk. lia. }
  rewrite Z.quot_div_nonneg by lia.
  assert (Qnum k / Z.pos (Qden k) = Qfloor k) as -> by (by destruct k).
  split; [|split].
  - unfold Qfloor. destruct k as [n d]. simpl in *. apply Z.div_pos; lia.
  - apply Qfloor_le.
  - change 1%Q with (inject_Z 1). rewrite <- inject_Z_plus. apply Qlt_floor.
Qed.

Lemma interpolation_bounds (lo hi x0 x1 k f : Q) :
  (lo <= x0 <= hi)%Q -> (lo <= x1 <= hi)%Q -> (f <= k)%Q -> (k < f + 1)%Q ->
  (lo <= x0 * (f + 1 - k) + x1 * (k - f) <= hi)%Q.
Proof. intros. split; nra. Qed.



(** The empty sample over binary64: the result is [0.0]. *)
Lemma get_percentile_empty_float (m : stats.MetricsCollector float) (p : float) :
  stats.latencies m = [] -> stats.get_percentile m p = Return 0%float.
Proof. unfold stats.get_percentile. by intros ->. Qed.


(* ===================================================================== *)
(** * Theorems: video writer and frame buffer *)
(* ===================================================================== *)

Section WriterFacts.
Context `{OpenCV}.

(** With a declared [frame_size], [write] returns (never raises) and
    leaves [frame_size] as it is; on a writer.reliable encoder the fitted frame is
    appended to what the encoder has received. *)
Lemma write_sized (w : writer.VideoWriter) (frame : Frame) (sz : Z * Z) :
  writer.frame_size w = Some sz ->
  exists b w', writer.write w frame = (Return b, w') /\ writer.frame_size w' = Some sz /\
    (writer.reliable -> writer.fresh_or_open w ->
     writer.fresh_or_open w' /\ writer.encoded w' = writer.encoded w ++ [writer.fit_to sz frame]).
Proof.
  intros Hsz. unfold writer.write, writer.open, writer.fit, writer.fresh_or_open, writer.encoded, writer.fit_to.
  destruct (writer.is_open w) eqn:Ho.
  - rewrite Hsz. destruct (decide _); destruct (writer.writer w) as [cv|] eqn:Hw;
      try destruct (cv_write_raises _ _) eqn:Hr; simpl; rewrite ?Ho, ?Hw;
      eexists _, _; (split; [done|]); (split; [done|]);
      intros [_ Hnr] Hf; try done; by rewrite Hnr in Hr.
  - rewrite Hsz. destruct (cv_writer_opens _ _ _ _) eqn:Hop; simpl.
    + destruct (decide _); destruct (cv_write_raises _ _) eqn:Hr; simpl;
        eexists _, _; (split; [done|]); (split; [done|]);
        intros [_ Hnr] Hf; rewrite ?Hnr in Hr; try done;
        destruct (writer.writer w); done.
    + eexists _, _. split; [done|]. split; [done|].
      intros [Hopens _]. by rewrite Hopens in Hop.
Qed.

Lemma emit_sized (fb : writer.VideoFrameBuffer) (frame : Frame) (sz : Z * Z) :
  writer.frame_size (writer.fb_writer fb) = Some sz ->
  exists b w',
    writer.emit fb frame =
      (Return b,
       writer.mkBuffer w' (delete (writer.next_frame_number fb) (writer.buffer fb))
         (writer.next_frame_number fb + 1)
         (writer.handed fb ++ [(writer.next_frame_number fb, frame)])) /\
    writer.frame_size w' = Some sz /\
    (writer.reliable -> writer.fresh_or_open (writer.fb_writer fb) ->
     writer.fresh_or_open w' /\
     writer.encoded w' = writer.encoded (writer.fb_writer fb) ++ [writer.fit_to sz frame]).
Proof.
  intros Hsz. unfold writer.emit.
  destruct (write_sized _ frame _ Hsz) as (b & w' & -> & Hw' & He). eauto.
Qed.

(** ** The state of the buffer between calls *)

Lemma seqZ_snoc (n : Z) : 0 <= n -> seqZ 0 (n + 1) = seqZ 0 n ++ [n].
Proof.
  intros Hn. rewrite <- (Z2Nat.id n) at 1 by done.
  replace (Z.of_nat (Z.to_nat n) + 1) with (Z.of_nat (S (Z.to_nat n))) by lia.
  rewrite seqZ_S. rewrite Z2Nat.id by done. done.
Qed.

(** One pass over a buffered frame keeps the invariant. *)
Lemma emit_buffered_inv black w h calls fb frame :
  writer.buffer_inv black w h calls fb ->
  writer.buffer fb !! writer.next_frame_number fb = Some frame ->
  exists b fb', writer.emit fb frame = (Return b, fb') /\ writer.buffer_inv black w h calls fb' /\
    writer.next_frame_number fb' = writer.next_frame_number fb + 1 /\
    writer.buffer fb' = delete (writer.next_frame_number fb) (writer.buffer fb).
Proof.
  intros [Hsz Hc Ho Hf Hb Hp He] Hlook.
  destruct (emit_sized fb frame _ Hsz) as (b & w' & -> & Hw' & He').
  eexists _, _. split; [done|]. split; [|done].
  constructor; simpl; try done; cycle -1.
  { intros Hr. destruct (He Hr) as [Hfo Henc]. destruct (He' Hr Hfo) as [Hfo' Henc'].
    split; [done|]. by rewrite Henc', Henc, !fmap_app. }
  - lia.
  - rewrite fmap_app, Ho. simpl. by rewrite seqZ_snoc.
  - intros i f Hin. apply elem_of_app in Hin as [Hin|Hin]; [by apply Hf|].
    apply list_elem_of_singleton in Hin as [= -> ->]. left. by apply Hb.
  - intros i f Hin. apply lookup_delete_Some in Hin as [_ Hin]. by apply Hb.
  - intros i Hi Hle. rewrite lookup_delete_ne by lia. apply Hp; [done|lia].
Qed.

Lemma drain_inv black w h calls (fuel : nat) :
  forall fb written,
    writer.buffer_inv black w h calls fb ->
    exists n fb', writer.drain fuel fb written = (Return n, fb') /\ writer.buffer_inv black w h calls fb' /\
      ((size (writer.buffer fb) < fuel)%nat ->
       writer.buffer fb' !! writer.next_frame_number fb' = None).
Proof.
  induction fuel as [|fuel IH]; intros fb written Hinv; simpl.
  - eexists _, _. split; [done|]. split; [done|]. lia.
  - destruct (writer.buffer fb !! writer.next_frame_number fb) as [frame|] eqn:E.
    + destruct (emit_buffered_inv _ _ _ _ _ _ Hinv E) as (b & fb1 & -> & Hinv1 & Hn1 & Hb1).
      destruct (IH fb1 (written + 1) Hinv1) as (n & fb' & -> & Hinv' & Hexit).
      eexists _, _. split; [done|]. split; [done|].
      intros Hsize. apply Hexit. rewrite Hb1.
      pose proof (map_size_delete_Some (writer.next_frame_number fb) (writer.buffer fb)
                    (mk_is_Some _ _ E)) as Hd.
      assert (size (writer.buffer fb) <> 0%nat).
      { intros Hz. apply map_size_empty_inv in Hz. rewrite Hz in E. by rewrite lookup_empty in E. }
      lia.
    + eexists _, _. split; [done|]. split; [done|]. done.
Qed.

Lemma add_frame_inv w h calls fb i frame :
  writer.buffer_inv False w h calls fb ->
  exists n fb', writer.add_frame fb i frame = (Return n, fb') /\
    writer.buffer_inv False w h (calls ++ [(i, frame)]) fb' /\
    writer.buffer fb' !! writer.next_frame_number fb' = None.
Proof.
  intros [Hsz Hc Ho Hf Hb Hp He]. unfold writer.add_frame.
  set (fb1 := writer.mkBuffer _ _ _ _).
  assert (Hinv1 : writer.buffer_inv False w h (calls ++ [(i, frame)]) fb1).
  { constructor; simpl; try done.
    - intros j f Hin. left. apply elem_of_app. left.
      by destruct (Hf j f Hin) as [?|[[] _]].
    - intros j f Hl. apply lookup_insert_Some in Hl as [[<- <-]|[Hne Hl]].
      + apply elem_of_app. right. by apply list_elem_of_singleton.
      + apply elem_of_app. left. by apply Hb.
    - intros j Hj Hle. rewrite fmap_app in Hj. apply elem_of_app in Hj as [Hj|Hj].
      + destruct (decide (i = j)) as [->|Hne].
        * rewrite lookup_insert_eq. eauto.
        * rewrite lookup_insert_ne by done. by apply Hp.
      + simpl in Hj. apply list_elem_of_singleton in Hj as ->.
        rewrite lookup_insert_eq. eauto. }
  destruct (drain_inv False w h _ (S (size (writer.buffer fb1))) fb1 0 Hinv1) as (n & fb' & Hd & Hinv' & Hexit).
  eexists _, _. split; [done|]. split; [done|]. apply Hexit. lia.
Qed.

Lemma add_frames_inv w h (calls : list (Z * Frame)) :
  forall pre fb,
    writer.buffer_inv False w h pre fb ->
    exists fb', writer.add_frames fb calls = (Return tt, fb') /\
      writer.buffer_inv False w h (pre ++ calls) fb'.
Proof.
  induction calls as [|[i f] calls IH]; intros pre fb Hinv; simpl.
  - exists fb. by rewrite app_nil_r.
  - destruct (add_frame_inv w h pre fb i f Hinv) as (n & fb1 & -> & Hinv1 & _).
    destruct (IH _ fb1 Hinv1) as (fb' & -> & Hinv').
    exists fb'. split; [done|]. by rewrite <- app_assoc in Hinv'.
Qed.

Lemma buffer_inv_flush w h calls fb :
  writer.buffer_inv False w h calls fb -> writer.buffer_inv True w h calls fb.
Proof.
  intros [Hsz Hc Ho Hf Hb Hp He]. constructor; try done.
  intros i f Hin. destruct (Hf i f Hin) as [?|[[] _]]. by left.
Qed.

Lemma np_zeros_returns (h w : Z) : 0 <= h -> 0 <= w -> exists z, np_zeros h w = Return z.
Proof.
  intros Hh Hw. unfold np_zeros.
  assert ((h <? 0) || (w <? 0) = false) as ->; [|eauto].
  apply orb_false_intro; lia.
Qed.

Lemma flush_loop_inv w h calls (passes : nat) :
  0 <= w -> 0 <= h ->
  forall fb written,
    writer.buffer_inv True w h calls fb ->
    exists n fb', writer.flush_loop passes fb written = (Return n, fb') /\
      writer.buffer_inv True w h calls fb' /\
      writer.next_frame_number fb' = writer.next_frame_number fb + Z.of_nat passes.
Proof.
  intros Hw Hh. induction passes as [|passes IH]; intros fb written Hinv; simpl.
  - eexists _, _. split; [done|]. split; [done|]. lia.
  - destruct (writer.buffer fb !! writer.next_frame_number fb) as [frame|] eqn:E.
    + destruct (emit_buffered_inv _ _ _ _ _ _ Hinv E) as (b & fb1 & -> & Hinv1 & Hn1 & _).
      destruct (IH fb1 (written + 1) Hinv1) as (n & fb' & -> & Hinv' & Hn').
      eexists _, _. split; [done|]. split; [done|]. lia.
    + destruct Hinv as [Hsz Hc Ho Hf Hb Hp He]. rewrite Hsz.
      destruct (np_zeros_returns h w Hh Hw) as [z Hz]. rewrite Hz.
      destruct (emit_sized fb z _ Hsz) as (b & w' & -> & Hw' & He').
      set (fb1 := writer.mkBuffer _ _ _ _).
      assert (Hinv1 : writer.buffer_inv True w h calls fb1).
      { constructor; simpl; try done.
        - lia.
        - rewrite fmap_app, Ho. simpl. by rewrite seqZ_snoc.
        - intros i f Hin. apply elem_of_app in Hin as [Hin|Hin]; [by apply Hf|].
          apply list_elem_of_singleton in Hin as [= -> ->]. right.
          split; [done|]. split; [|done].
          intros Hs. destruct (Hp _ Hs ltac:(lia)) as [x Hx]. congruence.
        - intros i f Hin. apply lookup_delete_Some in Hin as [_ Hin]. by apply Hb.
        - intros i Hi Hle. rewrite lookup_delete_ne by lia. apply Hp; [done|lia].
        - intros Hr. destruct (He Hr) as [Hfo Henc]. destruct (He' Hr Hfo) as [Hfo' Henc'].
          split; [done|]. by rewrite Henc', Henc, !fmap_app. }
      destruct (IH fb1 (written + 1) Hinv1) as (n & fb' & -> & Hinv' & Hn').
      eexists _, _. split; [done|]. split; [done|]. subst fb1. simpl in Hn'. lia.
Qed.

Lemma init_inv (output_path fourcc : string) (fps : float) (w h : Z) :
  writer.buffer_inv False w h []
    (writer.VideoFrameBuffer_init
       (writer.VideoWriter_init output_path fourcc fps (Some (w, h)))).
Proof.
  constructor; simpl; try done.
  - intros i f Hin. inversion Hin.
  - intros i Hi. inversion Hi.
Qed.

(** The cursor never passes an index that was not supplied. *)
Lemma cursor_bound black w h calls fb (N : Z) :
  writer.buffer_inv black w h calls fb ->
  (forall i f, (i, f) ∈ writer.handed fb -> (i, f) ∈ calls) ->
  Forall (fun c => 0 <= fst c < N) calls ->
  writer.next_frame_number fb <= Z.max 0 N.
Proof.
  intros [Hsz Hc Ho Hf Hb Hp He] Hall Hcalls.
  destruct (decide (writer.next_frame_number fb = 0)) as [->|Hne]; [lia|].
  assert (writer.next_frame_number fb - 1 ∈ fst <$> writer.handed fb) as Hin.
  { rewrite Ho. apply elem_of_seqZ. lia. }
  apply list_elem_of_fmap in Hin as ([i f] & Hi & Hin). simpl in Hi.
  apply Hall in Hin. rewrite Forall_forall in Hcalls.
  specialize (Hcalls _ Hin). simpl in Hcalls. lia.
Qed.


(** Every writer obtained from the constructor by [open], [write] and
    [close] is [open_sized]. *)
Lemma open_sized_init output_path fourcc fps frame_size :
  writer.open_sized (writer.VideoWriter_init output_path fourcc fps frame_size).
Proof. by intros [=]. Qed.

Lemma open_sized_open (w : writer.VideoWriter) (first : option Frame) :
  writer.open_sized w -> writer.open_sized (snd (writer.open w first)).
Proof.
  intros Hw. unfold writer.open.
  destruct (writer.is_open w) eqn:Ho; [done|].
  destruct (writer.frame_size w) as [sz|]; [|destruct first as [f|]; [|done]];
    destruct (cv_writer_opens _ _ _ _); by intros ?; simpl in *; eauto.
Qed.

Lemma open_sized_write (w : writer.VideoWriter) (frame : Frame) :
  writer.open_sized w -> writer.open_sized (snd (writer.write w frame)).
Proof.
  intros Hw. unfold writer.write.
  destruct (writer.is_open w) eqn:Ho.
  - destruct (writer.fit w frame); [|done].
    destruct (writer.writer w) as [cv|] eqn:Ew; [|done].
    destruct (cv_write_raises _ _); [done|].
    intros _. simpl. split; [|by eauto]. by destruct (Hw Ho).
  - pose proof (open_sized_open w (Some frame) Hw) as Hopen.
    destruct (writer.open w (Some frame)) as [[[]|e] w1]; simpl in *; try done.
    destruct (writer.fit w1 frame); [|done].
    destruct (writer.writer w1) as [cv|] eqn:Ew; [|done].
    destruct (cv_write_raises _ _); [done|].
    intros Ho1. simpl in *. split; [|by eauto]. by destruct (Hopen Ho1).
Qed.

Lemma open_sized_close (w : writer.VideoWriter) :
  writer.open_sized w -> writer.open_sized (writer.close w).
Proof.
  intros Hw. unfold writer.close.
  destruct (writer.is_open w) eqn:Ho; [|by intros Ho'; rewrite Ho in Ho'].
  destruct (writer.writer w); [by intros [=]|by intros _; apply Hw].
Qed.

End WriterFacts.


(** The same session, run: frame 0, a black frame for the missing index 1,
    frame 2; the encoder received the three of them. *)
Example out_of_order_session :
  let '(r, fb) := writer.session (H := ref.opencv) examples.fresh_buffer
                    examples.out_of_order 3 in
  r = Return 2 /\
  writer.handed fb =
    [(0, examples.frame_b); (1, mkFrame 1 2 [0; 0; 0; 0; 0; 0]); (2, examples.frame_a)] /\
  writer.encoded (writer.fb_writer fb) =
    [examples.frame_b; mkFrame 1 2 [0; 0; 0; 0; 0; 0]; examples.frame_a] /\
  writer.frame_count (writer.fb_writer fb) = 3.
Proof. by vm_compute. Qed.


(** The 1x1 frame written to the open 2x1 writer reaches the encoder as a
    2x1 frame, and [frame_count] goes from 1 to 2. *)
Example write_resizes_small_frame :
  let '(r, w') := writer.write (H := ref.opencv) examples.open_writer examples.frame_small in
  r = Return true /\
  writer.encoded w' = [examples.frame_a; mkFrame 1 2 [7; 8; 9; 7; 8; 9]] /\
  writer.frame_count examples.open_writer = 1 /\ writer.frame_count w' = 2.
Proof. by vm_compute. Qed.

(* ===================================================================== *)
(** * Theorems: protocol codec *)
(* ===================================================================== *)

Lemma Z_of_byte_of_Z (z : Z) : 0 <= z < 256 -> messages.Z_of_byte (messages.byte_of_Z z) = z.
Proof.
  intros Hz. unfold messages.Z_of_byte, messages.byte_of_Z.
  destruct (Byte.of_N (Z.to_N z)) as [b|] eqn:E; simpl.
  - apply Byte.to_of_N in E. lia.
  - apply Byte.of_N_None_iff in E. lia.
Qed.

Lemma Z_of_byte_range (b : Byte.byte) : 0 <= messages.Z_of_byte b < 256.
Proof.
  unfold messages.Z_of_byte. pose proof (Byte.to_N_bounded b). lia.
Qed.

Lemma lor_shiftl_small (hi lo k : Z) :
  0 <= k -> 0 <= lo < 2 ^ k -> Z.lor (Z.shiftl hi k) lo = hi * 2 ^ k + lo.
Proof.
  intros Hk Hlo. rewrite Z.shiftl_mul_pow2 by done.
  symmetry. apply Z.add_nocarry_lor.
  apply Z.bits_inj'. intros i Hi. rewrite Z.land_spec, Z.bits_0.
  destruct (Z.ltb_spec i k).
  - by rewrite Z.mul_pow2_bits_low.
  - rewrite <- (Z.mod_small lo (2 ^ k)) by done.
    rewrite Z.mod_pow2_bits_high by lia. by rewrite andb_false_r.
Qed.

(** [struct.unpack] inverts [struct.pack] on 32-bit lengths. *)
Lemma unpack_pack (n : Z) :
  0 <= n < 2 ^ 32 ->
  exists b3 b2 b1 b0,
    messages.pack_I n = Return [b3; b2; b1; b0] /\
    messages.unpack_I [b3; b2; b1; b0] = Return n.
Proof.
  intros Hn. unfold messages.pack_I.
  assert ((0 <=? n) && (n <? 2 ^ 32) = true) as -> by (apply andb_true_intro; split; lia).
  eexists _, _, _, _. split; [done|]. unfold messages.unpack_I. f_equal.
  change 255 with (Z.ones 8).
  rewrite !Z.land_ones, !Z.shiftr_div_pow2 by lia.
  rewrite !Z_of_byte_of_Z by (apply Z.mod_pos_bound; lia).
  change (2 ^ 24) with (256 * 256 * 256). change (2 ^ 16) with (256 * 256).
  change (2 ^ 8) with 256. change (2 ^ 32) with 4294967296 in Hn.
  rewrite <- !Z.div_div by lia.
  set (q1 := n / 256). set (q2 := q1 / 256). set (q3 := q2 / 256).
  pose proof (Z.div_mod n 256 ltac:(lia)) as E1. fold q1 in E1.
  pose proof (Z.div_mod q1 256 ltac:(lia)) as E2. fold q2 in E2.
  pose proof (Z.div_mod q2 256 ltac:(lia)) as E3. fold q3 in E3.
  pose proof (Z.mod_pos_bound n 256 ltac:(lia)).
  pose proof (Z.mod_pos_bound q1 256 ltac:(lia)).
  pose proof (Z.mod_pos_bound q2 256 ltac:(lia)).
  assert (0 <= q3 < 256) as Hq3.
  { unfold q3, q2, q1. rewrite !Z.div_div by lia. split; [apply Z.div_pos; lia|].
    apply Z.div_lt_upper_bound; lia. }
  rewrite (Z.mod_small q3) by done.
  rewrite (lor_shiftl_small (q1 mod 256) (n mod 256) 8) by lia.
  rewrite (lor_shiftl_small (q2 mod 256) _ 16) by (change (2 ^ 8) with 256; change (2 ^ 16) with 65536; lia).
  rewrite (lor_shiftl_small q3 _ 24)
    by (change (2 ^ 8) with 256; change (2 ^ 16) with 65536; change (2 ^ 24) with 16777216; lia).
  change (2 ^ 8) with 256; change (2 ^ 16) with 65536; change (2 ^ 24) with 16777216. lia.
Qed.

(** ** Reading from a connection that delivers data *)

(** One [recv] on a connection that only delivers data: a prefix of what
    is still to come, empty only when nothing is. *)
Lemma recv_from_data (segs : list (list Byte.byte)) (k : nat) :
  (0 < k)%nat ->
  exists chunk segs',
    messages.recv_from (messages.Data <$> segs) k = (Return chunk, messages.Data <$> segs') /\
    concat segs = chunk ++ concat segs' /\
    (length chunk <= k)%nat /\
    (chunk = [] -> concat segs = []).
Proof.
  intros Hk. induction segs as [|d segs IH]; simpl.
  - exists [], []. repeat split; simpl; lia || done.
  - destruct d as [|x d]; [done|].
    exists (take k (x :: d)).
    destruct (drop k (x :: d)) as [|y d'] eqn:Ed.
    + exists segs. split; [done|]. split.
      * rewrite <- (take_drop k (x :: d)) at 1. by rewrite Ed, app_nil_r.
      * split; [rewrite length_take; lia|]. destruct k; [lia|done].
    + exists ((y :: d') :: segs). split; [done|]. split.
      * rewrite <- (take_drop k (x :: d)) at 1. by rewrite Ed, <- app_assoc.
      * split; [rewrite length_take; lia|]. destruct k; [lia|done].
Qed.

(** [_recv_exact] on such a connection returns the first [n] bytes still
    to come (all of them when fewer remain), and leaves the rest. *)
Lemma recv_exact_loop_data (fuel : nat) :
  forall (segs : list (list Byte.byte)) data out bk n,
    (Z.to_nat (n - messages.len data) <= fuel)%nat ->
    exists segs',
      messages._recv_exact_loop fuel (messages.mkSocket (messages.Data <$> segs) out bk) n data =
        (Return (data ++ take (Z.to_nat (n - messages.len data)) (concat segs)),
         messages.mkSocket (messages.Data <$> segs') out bk) /\
      concat segs' = drop (Z.to_nat (n - messages.len data)) (concat segs).
Proof.
  induction fuel as [|fuel IH]; intros segs data out bk n Hfuel; simpl.
  - assert (Z.to_nat (n - messages.len data) = 0%nat) as -> by lia.
    exists segs. by rewrite app_nil_r.
  - destruct (messages.len data <? n) eqn:Hlt.
    + apply Z.ltb_lt in Hlt.
      set (k := Z.to_nat (Z.min messages.chunk_size (n - messages.len data))).
      assert (0 < k)%nat by (unfold k, messages.chunk_size; lia).
      destruct (recv_from_data segs k ltac:(done)) as (chunk & segs1 & Hrecv & Hcat & Hlen & Hnil).
      unfold messages.recv. simpl. fold k. rewrite Hrecv.
      destruct chunk as [|c chunk].
      * exists segs1. rewrite (Hnil eq_refl) in *. simpl in Hcat.
        rewrite <- Hcat. by rewrite take_nil, drop_nil, app_nil_r.
      * set (ch := c :: chunk) in *.
        assert (1 <= length ch)%nat by (unfold ch; simpl; lia).
        assert (Z.of_nat (length ch) <= n - messages.len data) by (unfold k in Hlen; lia).
        destruct (IH segs1 (data ++ ch) out bk n) as (segs' & -> & Hrest).
        { unfold messages.len in *. rewrite length_app. lia. }
        exists segs'.
        assert (Z.to_nat (n - messages.len (data ++ ch))
                = (Z.to_nat (n - messages.len data) - length ch)%nat) as Em.
        { unfold messages.len. rewrite length_app. lia. }
        rewrite Em in *. rewrite Hcat. split.
        -- f_equal. rewrite <- app_assoc. f_equal.
           rewrite take_app, (take_ge ch) by lia. done.
        -- rewrite Hrest. rewrite drop_app, (drop_ge ch) by lia. done.
    + apply Z.ltb_ge in Hlt.
      assert (Z.to_nat (n - messages.len data) = 0%nat) as -> by lia.
      exists segs. by rewrite app_nil_r.
Qed.

Lemma recv_exact_data (segs : list (list Byte.byte)) (n : Z) :
  exists segs',
    messages._recv_exact (messages.receiving segs) n =
      (Return (take (Z.to_nat n) (concat segs)), messages.receiving segs') /\
    concat segs' = drop (Z.to_nat n) (concat segs).
Proof.
  unfold messages._recv_exact, messages.receiving.
  destruct (recv_exact_loop_data (Z.to_nat n) segs [] [] false n) as (segs' & Hloop & Hrest).
  { unfold messages.len. simpl. lia. }
  exists segs'. unfold messages.len in *. simpl in *.
  by rewrite Z.sub_0_r in *.
Qed.

(** ** Sending and receiving one message *)

Section CodecFacts.
Context `{JSONLib}.

Lemma send_message_wire (sender : messages.socket) (m : json) (payload : list Byte.byte) :
  json_dumps m = Return payload ->
  messages.len payload < 2 ^ 32 ->
  messages.broken sender = false ->
  exists b3 b2 b1 b0,
    messages.unpack_I [b3; b2; b1; b0] = Return (messages.len payload) /\
    messages.send_message sender m =
      (Return tt,
       messages.mkSocket (messages.incoming sender)
         (messages.outgoing sender ++ [b3; b2; b1; b0] ++ payload) false).
Proof.
  intros Hd Hlen Hb.
  destruct (unpack_pack (messages.len payload)) as (b3 & b2 & b1 & b0 & Hpack & Hunpack).
  { unfold messages.len in *. lia. }
  exists b3, b2, b1, b0. split; [done|].
  unfold messages.send_message, messages.sendall. by rewrite Hd, Hpack, Hb.
Qed.

(** A frame whose declared length is above the bound is refused as soon
    as its header is read. *)
Lemma recv_message_large (segs : list (list Byte.byte)) b3 b2 b1 b0 rest n :
  messages.unpack_I [b3; b2; b1; b0] = Return n ->
  messages.max_message < n ->
  concat segs = [b3; b2; b1; b0] ++ rest ->
  fst (messages.recv_message (messages.receiving segs))
  = Raise (ProtocolError "Mensaje demasiado grande").
Proof.
  intros Hun Hn Hcat. unfold messages.recv_message.
  destruct (recv_exact_data segs 4) as (segs1 & -> & Hrest).
  rewrite Hcat. change (take (Z.to_nat 4) ([b3; b2; b1; b0] ++ rest)) with [b3; b2; b1; b0].
  rewrite Hun. apply Z.ltb_lt in Hn. by rewrite Hn.
Qed.

(** A complete frame within the bound is read and its payload decoded. *)
Lemma recv_message_frame (segs : list (list Byte.byte)) b3 b2 b1 b0 payload tail :
  messages.unpack_I [b3; b2; b1; b0] = Return (messages.len payload) ->
  messages.len payload <= messages.max_message ->
  concat segs = [b3; b2; b1; b0] ++ payload ++ tail ->
  exists segs',
    messages.recv_message (messages.receiving segs) =
      (match messages.decode_payload payload with
       | Return m => Return m
       | Raise e => Raise (messages.recv_except e)
       end, messages.receiving segs') /\
    concat segs' = tail.
Proof.
  intros Hun Hn Hcat. unfold messages.recv_message.
  destruct (recv_exact_data segs 4) as (segs1 & -> & Hrest1).
  rewrite Hcat in *.
  change (take (Z.to_nat 4) ([b3; b2; b1; b0] ++ payload ++ tail)) with [b3; b2; b1; b0].
  change (drop (Z.to_nat 4) ([b3; b2; b1; b0] ++ payload ++ tail)) with (payload ++ tail) in Hrest1.
  rewrite Hun. apply Z.leb_le in Hn. rewrite Z.ltb_antisym, Hn. simpl.
  destruct (recv_exact_data segs1 (messages.len payload)) as (segs2 & -> & Hrest2).
  rewrite Hrest1 in *. unfold messages.len in *. rewrite Nat2Z.id in *.
  rewrite take_app_length, drop_app_length in *.
  rewrite Z.eqb_refl. simpl. exists segs2. split; [|done].
  by destruct (messages.decode_payload payload).
Qed.

(** C6 (amended): a message whose JSON text is at most 100 MiB, and which
    the [json] library itself round-trips, is received as sent, however
    the bytes are cut on the way and whatever follows them. *)
Theorem roundtrip_within_bound (sender : messages.socket) (m : json)
    (payload : list Byte.byte) :
  json_dumps m = Return payload ->
  utf8_decodes payload = true ->
  json_loads payload = Some m ->
  messages.len payload <= messages.max_message ->
  messages.broken sender = false ->
  exists wire,
    messages.send_message sender m =
      (Return tt,
       messages.mkSocket (messages.incoming sender) (messages.outgoing sender ++ wire) false) /\
    forall segs tail, concat segs = wire ++ tail ->
      exists segs',
        messages.recv_message (messages.receiving segs) = (Return m, messages.receiving segs') /\
        concat segs' = tail.
Proof.
  intros Hd Hu Hl Hn Hb.
  destruct (send_message_wire sender m payload Hd) as (b3 & b2 & b1 & b0 & Hun & Hsend);
    [unfold messages.max_message in Hn; lia|done|].
  exists ([b3; b2; b1; b0] ++ payload). split; [done|].
  intros segs tail Hcat. rewrite <- app_assoc in Hcat.
  destruct (recv_message_frame segs b3 b2 b1 b0 payload tail Hun Hn Hcat) as (segs' & Hrecv & Hrest).
  exists segs'. split; [|done]. rewrite Hrecv.
  unfold messages.decode_payload. by rewrite Hu, Hl.
Qed.

(** Beyond the bound the sender still succeeds and the receiver refuses. *)
Lemma roundtrip_refused_beyond_bound (sender : messages.socket) (m : json)
    (payload : list Byte.byte) :
  json_dumps m = Return payload ->
  messages.max_message < messages.len payload < 2 ^ 32 ->
  messages.broken sender = false ->
  exists wire,
    messages.send_message sender m =
      (Return tt,
       messages.mkSocket (messages.incoming sender) (messages.outgoing sender ++ wire) false) /\
    forall segs tail, concat segs = wire ++ tail ->
      fst (messages.recv_message (messages.receiving segs))
      = Raise (ProtocolError "Mensaje demasiado grande").
Proof.
  intros Hd [Hlo Hhi] Hb.
  destruct (send_message_wire sender m payload Hd Hhi Hb) as (b3 & b2 & b1 & b0 & Hun & Hsend).
  exists ([b3; b2; b1; b0] ++ payload). split; [done|].
  intros segs tail Hcat. rewrite <- app_assoc in Hcat.
  by eapply recv_message_large.
Qed.
End CodecFacts.

Lemma roundtrip_within_bound_witness :
  exists wire,
    messages.send_message (H := ref.json_lib) examples.idle_socket examples.handshake =
      (Return tt,
       messages.mkSocket (messages.incoming examples.idle_socket)
         (messages.outgoing examples.idle_socket ++ wire) false) /\
    forall segs tail, concat segs = wire ++ tail ->
      exists segs',
        messages.recv_message (H := ref.json_lib) (messages.receiving segs)
        = (Return examples.handshake, messages.receiving segs') /\
        concat segs' = tail.
Proof.
  apply (roundtrip_within_bound (H := ref.json_lib) examples.idle_socket
           examples.handshake examples.handshake_payload);
    by vm_compute.
Defined.

(** The handshake sent, then received in three pieces with the start of
    the video behind it. *)
Example handshake_in_three_pieces :
  match messages.send_message (H := ref.json_lib) examples.idle_socket examples.handshake with
  | (Return _, s) =>
      let wire := messages.outgoing s in
      messages.recv_message (H := ref.json_lib)
        (messages.receiving [take 2 wire; take 7 (drop 2 wire);
                             drop 9 wire ++ [Byte.x01; Byte.x02]])
      = (Return examples.handshake, messages.receiving [[Byte.x01; Byte.x02]])
  | _ => False
  end.
Proof. by vm_compute. Qed.

(** ** The reference codec on a long string *)

Lemma length_list_byte_of_string (s : string) :
  length (list_byte_of_string s) = String.length s.
Proof.
  unfold list_byte_of_string. rewrite length_map.
  induction s as [|c s IH]; simpl; [done|]. by rewrite IH.
Qed.

Lemma length_string_app (s1 s2 : string) :
  String.length (s1 +:+ s2) = (String.length s1 + String.length s2)%nat.
Proof. induction s1 as [|c s1 IH]; simpl; [done|]. by rewrite IH. Qed.

Lemma length_repeat_char (c : ascii) (n : nat) :
  String.length (examples.repeat_char c n) = n.
Proof. induction n as [|n IH]; simpl; [done|]. by rewrite IH. Qed.

Lemma escape_repeat_a (n : nat) :
  ref.escape (examples.repeat_char "a" n) = examples.repeat_char "a" n.
Proof. induction n as [|n IH]; simpl; [done|]. by rewrite IH. Qed.

Lemma length_quoted_repeat_a (n : nat) :
  messages.len (list_byte_of_string (ref.quoted (examples.repeat_char "a" n)))
  = Z.of_nat n + 2.
Proof.
  unfold messages.len, ref.quoted. rewrite length_list_byte_of_string.
  rewrite escape_repeat_a.
  change (String.length (String ref.dquote ?s)) with (S (String.length s)).
  rewrite length_string_app, length_repeat_char.
  change (String.length (String ref.dquote EmptyString)) with 1%nat. lia.
Qed.

(** C6, as stated, fails on the code: the 128 MiB string is sent, and the
    receiver refuses the frame on reading its length. *)
Lemma roundtrip_fails_beyond_bound :
  exists wire,
    messages.send_message (H := ref.json_lib) examples.idle_socket examples.big_message =
      (Return tt, messages.mkSocket [] wire false) /\
    fst (messages.recv_message (H := ref.json_lib) (messages.receiving [wire]))
    = Raise (ProtocolError "Mensaje demasiado grande").
Proof.
  destruct (roundtrip_refused_beyond_bound (H := ref.json_lib) examples.idle_socket
              examples.big_message
              (list_byte_of_string (ref.quoted (examples.repeat_char "a" (Nat.pow 2 27)))))
    as (wire & Hsend & Hrecv).
  - reflexivity.
  - rewrite length_quoted_repeat_a, Nat2Z.inj_pow.
    change (Z.of_nat 2) with 2. change (Z.of_nat 27) with 27.
    unfold messages.max_message. split; reflexivity.
  - reflexivity.
  - exists wire. split; [exact Hsend|].
    apply (Hrecv [wire] []). unfold concat. reflexivity.
Qed.

(** ** What [recv_message] does on malformed input *)

Section RecvFacts.
Context `{JSONLib}.

(** A peer that closes before sending anything: [None]. *)
Lemma recv_message_clean_close (segs : list (list Byte.byte)) :
  concat segs = [] ->
  fst (messages.recv_message (messages.receiving segs)) = Return JNull.
Proof.
  intros Hcat. unfold messages.recv_message.
  destruct (recv_exact_data segs 4) as (segs1 & -> & _).
  by rewrite Hcat.
Qed.

(** One to three header bytes, then the close: [struct.error] leaves
    [recv_message], not a [ProtocolError]. *)
Lemma recv_message_short_header (segs : list (list Byte.byte)) :
  (0 < length (concat segs) < 4)%nat ->
  fst (messages.recv_message (messages.receiving segs)) = Raise struct_error.
Proof.
  intros Hlen. unfold messages.recv_message.
  destruct (recv_exact_data segs 4) as (segs1 & -> & _).
  rewrite take_ge by (simpl; lia).
  destruct (concat segs) as [|b0 [|b1 [|b2 [|b3 l]]]]; simpl in *; try lia; done.
Qed.

(** C7, at the failing input: two header bytes and then the close make
    [recv_message] raise [struct.error]. *)
Theorem recv_message_two_header_bytes :
  fst (messages.recv_message (messages.receiving [[Byte.x00; Byte.x00]]))
  = Raise struct_error.
Proof. apply recv_message_short_header. simpl. lia. Qed.

(** A payload shorter than announced: [ProtocolError]. *)
Lemma recv_message_short_payload (segs : list (list Byte.byte)) b3 b2 b1 b0 partial n :
  messages.unpack_I [b3; b2; b1; b0] = Return n ->
  n <= messages.max_message ->
  messages.len partial < n ->
  concat segs = [b3; b2; b1; b0] ++ partial ->
  fst (messages.recv_message (messages.receiving segs))
  = Raise (ProtocolError "Payload incompleto").
Proof.
  intros Hun Hn Hshort Hcat. unfold messages.recv_message.
  destruct (recv_exact_data segs 4) as (segs1 & -> & Hrest1).
  rewrite Hcat in *.
  change (take (Z.to_nat 4) ([b3; b2; b1; b0] ++ partial)) with [b3; b2; b1; b0].
  change (drop (Z.to_nat 4) ([b3; b2; b1; b0] ++ partial)) with partial in Hrest1.
  rewrite Hun. apply Z.leb_le in Hn. rewrite Z.ltb_antisym, Hn. simpl.
  destruct (recv_exact_data segs1 n) as (segs2 & -> & _).
  rewrite Hrest1. unfold messages.len in *.
  rewrite take_ge by lia.
  assert ((Z.of_nat (length partial) =? n) = false) as -> by (apply Z.eqb_neq; lia).
  done.
Qed.

(** A complete frame whose payload is not JSON: [ProtocolError]. *)
Lemma recv_message_bad_json (segs : list (list Byte.byte)) b3 b2 b1 b0 payload tail :
  messages.unpack_I [b3; b2; b1; b0] = Return (messages.len payload) ->
  messages.len payload <= messages.max_message ->
  concat segs = [b3; b2; b1; b0] ++ payload ++ tail ->
  utf8_decodes payload = true ->
  json_loads payload = None ->
  fst (messages.recv_message (messages.receiving segs))
  = Raise (ProtocolError "Error decodificando JSON").
Proof.
  intros Hun Hn Hcat Hu Hl.
  destruct (recv_message_frame segs b3 b2 b1 b0 payload tail Hun Hn Hcat) as (segs' & -> & _).
  unfold messages.decode_payload. by rewrite Hu, Hl.
Qed.

(** A complete frame whose payload is not UTF-8: [UnicodeDecodeError]
    leaves [recv_message], not a [ProtocolError]. *)
Lemma recv_message_bad_utf8 (segs : list (list Byte.byte)) b3 b2 b1 b0 payload tail :
  messages.unpack_I [b3; b2; b1; b0] = Return (messages.len payload) ->
  messages.len payload <= messages.max_message ->
  concat segs = [b3; b2; b1; b0] ++ payload ++ tail ->
  utf8_decodes payload = false ->
  fst (messages.recv_message (messages.receiving segs)) = Raise UnicodeDecodeError.
Proof.
  intros Hun Hn Hcat Hu.
  destruct (recv_message_frame segs b3 b2 b1 b0 payload tail Hun Hn Hcat) as (segs' & -> & _).
  unfold messages.decode_payload. by rewrite Hu.
Qed.

(** A complete frame whose payload is the JSON text [null]: [None], as for
    a peer that closed. *)
Lemma recv_message_null_payload (segs : list (list Byte.byte)) b3 b2 b1 b0 payload tail :
  messages.unpack_I [b3; b2; b1; b0] = Return (messages.len payload) ->
  messages.len payload <= messages.max_message ->
  concat segs = [b3; b2; b1; b0] ++ payload ++ tail ->
  utf8_decodes payload = true ->
  json_loads payload = Some JNull ->
  fst (messages.recv_message (messages.receiving segs)) = Return JNull.
Proof.
  intros Hun Hn Hcat Hu Hl.
  destruct (recv_message_frame segs b3 b2 b1 b0 payload tail Hun Hn Hcat) as (segs' & -> & _).
  unfold messages.decode_payload. by rewrite Hu, Hl.
Qed.
End RecvFacts.

(** The three departures from C7 on the reference codec: a frame carrying
    [null] returns [None] although the peer did not close; a frame
    carrying the byte 0xff raises [UnicodeDecodeError]; a connection reset
    is a [ProtocolError]. *)
Example recv_message_departures :
  fst (messages.recv_message (H := ref.json_lib)
         (messages.receiving [[Byte.x00; Byte.x00; Byte.x00; Byte.x04] ++ examples.null_text]))
  = Return JNull /\
  fst (messages.recv_message (H := ref.json_lib)
         (messages.receiving [[Byte.x00; Byte.x00; Byte.x00; Byte.x01; Byte.xff]]))
  = Raise UnicodeDecodeError /\
  fst (messages.recv_message (H := ref.json_lib)
         (messages.mkSocket [messages.Data [Byte.x00]; messages.Reset] [] false))
  = Raise (ProtocolError "Error recibiendo mensaje").
Proof. by vm_compute. Qed.

(* ===================================================================== *)
(** * Theorems: worker body *)
(* ===================================================================== *)

Lemma append_inj_l (s a b : string) : s +:+ a = s +:+ b -> a = b.
Proof. induction s as [|c s IH]; simpl; [done|]. intros [= E]. by apply IH. Qed.

(** The image and the sidecar of a frame are different files. *)
Lemma frame_png_json_ne (dir : string) (n : Z) : frame_png dir n <> frame_json dir n.
Proof.
  unfold frame_png, frame_json, path_join. intros E.
  repeat apply append_inj_l in E. discriminate.
Qed.

Section WorkerFacts.
Context `{OpenCV} `{Filters} `{PyFormat}.

(** A run that succeeds leaves the two files of the frame. *)
Lemma process_frame_success_two_files (req : worker.Request) (fs : gmap string file)
    (data : list Byte.byte) (n : Z) (processing_type : string)
    (metadata : list (string * json)) (r : json) (fs' : gmap string file) :
  worker.process_frame_try req fs data n processing_type metadata = (Return r, fs') ->
  worker.artifact_files fs' (worker.session_of metadata) n =
    [frame_png (frames_dir_of (worker.session_of metadata)) n;
     frame_json (frames_dir_of (worker.session_of metadata)) n].
Proof.
  unfold worker.process_frame_try.
  destruct (cv_imdecode data) as [frame|]; [|done].
  destruct (worker.apply_processing _ _ _) as [[processed name]|]; [|done].
  destruct (cv_imwrite_ok _ _); [|done].
  intros [= _ <-]. unfold worker.artifact_files.
  rewrite filter_cons_True.
  2: { apply bool_decide_pack.
       rewrite lookup_insert_ne by (intros E; symmetry in E; by apply frame_png_json_ne in E).
       rewrite lookup_insert_eq. eauto. }
  rewrite filter_cons_True; [done|].
  apply bool_decide_pack. rewrite lookup_insert_eq. eauto.
Qed.

(** The block that runs once the retries are used up never writes the
    sidecar: the stats record it builds is only returned. *)
Lemma give_up_writes_no_stats (req : worker.Request) (fs : gmap string file)
    (data : list Byte.byte) (n : Z) (metadata : list (string * json)) (e : exn) :
  snd (worker.process_frame_give_up req fs data n metadata e)
    !! frame_json (frames_dir_of (worker.session_of metadata)) n
  = fs !! frame_json (frames_dir_of (worker.session_of metadata)) n.
Proof.
  unfold worker.process_frame_give_up. simpl.
  destruct (cv_imdecode data) as [frame|]; [|done].
  destruct (cv_imwrite_ok _ _); [|done].
  by rewrite lookup_insert_ne by apply frame_png_json_ne.
Qed.

(** A run whose filter fails with the retries used up returns a record
    and leaves no sidecar where there was none. *)
Lemma process_frame_failure_no_stats (req : worker.Request) (fs : gmap string file)
    (data : list Byte.byte) (n : Z) (processing_type : string)
    (metadata : list (string * json)) (frame : Frame) (e : exn) :
  cv_imdecode data = Some frame ->
  worker.apply_processing frame processing_type metadata = Raise e ->
  worker.max_retries <= worker.retries req ->
  fs !! frame_json (frames_dir_of (worker.session_of metadata)) n = None ->
  exists r fs',
    worker.process_frame req fs data n processing_type metadata = (Return r, fs') /\
    fs' !! frame_json (frames_dir_of (worker.session_of metadata)) n = None.
Proof.
  intros Hd Hf Hr Hfs. unfold worker.process_frame, worker.process_frame_try.
  rewrite Hd, Hf.
  assert ((worker.retries req <? worker.max_retries) = false) as -> by (apply Z.ltb_ge; lia).
  pose proof (give_up_writes_no_stats req fs data n metadata e) as Hg.
  unfold worker.process_frame_give_up in *. simpl in Hg.
  eexists _, _. split; [reflexivity|]. by rewrite Hg.
Qed.
End WorkerFacts.

(** C5, at the failing input: the last run of a task whose filter fails
    writes the decoded original frame and returns the [error] stats, but
    the artifact directory holds one file for the frame, not two: there is
    no [frame_000000.json]. *)
Theorem permanent_failure_leaves_one_file :
  let '(r, fs) :=
    worker.process_frame (H := ref.opencv) (H0 := ref.filters_failing) (H1 := ref.py_format)
      examples.exhausted ∅ examples.frame_small_png 0 "blur" examples.session_metadata in
  r = Return (JDict [("frame_path", JStr "/app/data/frames/ab12cd34/frame_000000.png");
                     ("frame_number", JInt 0);
                     ("stats", JDict [("processing_time_ms", JInt 0);
                                      ("memory_mb", JInt 0);
                                      ("memory_delta_mb", JInt 0);
                                      ("filter_applied", JStr "error");
                                      ("worker_id", JStr "task-1");
                                      ("error", JStr "filter failed")])]) /\
  fs !! "/app/data/frames/ab12cd34/frame_000000.png" = Some (FFrame examples.frame_small) /\
  fs !! "/app/data/frames/ab12cd34/frame_000000.json" = None /\
  worker.artifact_files fs examples.session 0 = ["/app/data/frames/ab12cd34/frame_000000.png"].
Proof. by vm_compute. Qed.

(** The same frame through filters that work: two files. *)
Example success_leaves_two_files :
  let '(r, fs) :=
    worker.process_frame (H := ref.opencv) (H0 := ref.filters_identity) (H1 := ref.py_format)
      examples.exhausted ∅ examples.frame_small_png 0 "blur" examples.session_metadata in
  worker.artifact_files fs examples.session 0 =
    ["/app/data/frames/ab12cd34/frame_000000.png";
     "/app/data/frames/ab12cd34/frame_000000.json"].
Proof. by vm_compute. Qed.

(** An earlier run of the failing task asks for a retry and leaves no file. *)
Example failing_attempt_retries :
  worker.process_frame (H := ref.opencv) (H0 := ref.filters_failing) (H1 := ref.py_format)
    (worker.mkRequest 0 "task-1" "worker-1" 2.5%float 100%float 101%float)
    ∅ examples.frame_small_png 0 "blur" examples.session_metadata
  = (Raise Retry, ∅).
Proof. by vm_compute. Qed.

(* ===================================================================== *)
(** * Theorems: session orchestrator *)
(* ===================================================================== *)

Section ServerFacts.
Context `{OpenCV} `{JSONLib} `{PyFormat}.
Variable W : server.World.

#[local] Abbreviation M := server.M.
#[local] Abbreviation preserves := server.preserves.

(** ** Preservation through the control structure *)

Lemma preserves_ret {A} (P : server.state -> Prop) (a : A) : preserves P (server.ret a).
Proof. by intros s Hs. Qed.

Lemma preserves_raise {A} (P : server.state -> Prop) (e : exn) :
  preserves P (server.raise (A := A) e).
Proof. by intros s Hs. Qed.

Lemma preserves_lift {A} (P : server.state -> Prop) (r : result A) :
  preserves P (server.lift r).
Proof. by intros s Hs. Qed.

Lemma preserves_bind {A B} (P : server.state -> Prop) (m : M A) (k : A -> M B) :
  preserves P m -> (forall a, preserves P (k a)) -> preserves P (server.bind m k).
Proof.
  intros Hm Hk s Hs. unfold server.bind. specialize (Hm s Hs).
  destruct (m s) as [[a|e] s1]; simpl in *; [by apply Hk|done].
Qed.

Lemma preserves_try_except {A} (P : server.state -> Prop) (m : M A) (h : exn -> M A) :
  preserves P m -> (forall e, preserves P (h e)) -> preserves P (server.try_except m h).
Proof.
  intros Hm Hh s Hs. unfold server.try_except. specialize (Hm s Hs).
  destruct (m s) as [[a|e] s1]; simpl in *; [done|by apply Hh].
Qed.

Lemma preserves_try_finally {A} (P : server.state -> Prop) (m : M A) (final : M unit) :
  preserves P m -> preserves P final -> preserves P (server.try_finally m final).
Proof.
  intros Hm Hf s Hs. unfold server.try_finally. specialize (Hm s Hs).
  destruct (m s) as [r s1]; simpl in *. specialize (Hf s1 Hm).
  by destruct (final s1) as [[?|?] s2].
Qed.

Lemma preserves_when (P : server.state -> Prop) (b : bool) (m : M unit) :
  preserves P m -> preserves P (server.when b m).
Proof. destruct b; [done|]. intros _. apply preserves_ret. Qed.

Lemma preserves_for_each {A} (P : server.state -> Prop) (l : list A) (body : A -> M unit) :
  (forall x, x ∈ l -> preserves P (body x)) -> preserves P (server.for_each l body).
Proof.
  induction l as [|x l IH]; intros Hb; simpl; [apply preserves_ret|].
  apply preserves_bind; [apply Hb; left|]. intros _. apply IH.
  intros y Hy. apply Hb. by right.
Qed.

(** ** The steps of [handle] keep [quiet] *)

Section Quiet.
Variable s0 : server.state.
#[local] Abbreviation Q := (server.quiet W s0).

(** A step that leaves the stream and the store alone. *)
Lemma quiet_untouched {A} (m : M A) :
  (forall s, server.sent (snd (m s)) = server.sent s /\
             server.redis (snd (m s)) = server.redis s) ->
  preserves Q m.
Proof.
  intros Hm s Hs. destruct (Hm s) as [E1 E2].
  unfold server.quiet in *. by rewrite E1, E2.
Qed.

Lemma quiet_time : preserves Q (server.time_time W).
Proof. apply quiet_untouched. by intros []. Qed.

Lemma quiet_print line : preserves Q (server.print line).
Proof. apply quiet_untouched. by intros []. Qed.

Lemma quiet_close : preserves Q server.writer_close.
Proof. apply quiet_untouched. by intros []. Qed.

Lemma quiet_readexactly n : preserves Q (server.reader_readexactly n).
Proof.
  apply quiet_untouched. intros []. unfold server.reader_readexactly. simpl.
  by destruct (server.readexactly _ _).
Qed.

Lemma quiet_apply_async t : preserves Q (server.apply_async W t).
Proof.
  apply quiet_untouched. intros []. unfold server.apply_async. simpl.
  by destruct (server.broker_fails _ _).
Qed.

Lemma quiet_read_video_file path : preserves Q (server._read_video_file path).
Proof.
  apply quiet_untouched. intros s. unfold server._read_video_file.
  by destruct (server.fs s !! path) as [[]|].
Qed.

Lemma quiet_write_drain (x : server.item) :
  server.is_progress x = false -> preserves Q (server.write_drain W x).
Proof.
  intros Hx s ((new & Hsent & Hnew) & Hf & Hst). unfold server.write_drain.
  destruct (server.write_fails W (server.writes s)); destruct s; simpl in *.
  - repeat split; eauto.
  - repeat split; eauto. exists (new ++ [x]). rewrite Hsent, app_assoc. split; [done|].
    apply Forall_app. split; [done|]. by apply Forall_singleton.
Qed.

Lemma quiet_send_message (m : json) :
  server.is_progress (server.Message m) = false -> preserves Q (server._send_message W m).
Proof.
  intros Hm. unfold server._send_message.
  apply preserves_bind; [apply preserves_lift|]. intros payload.
  apply preserves_bind; [apply preserves_lift|]. intros length.
  by apply quiet_write_drain.
Qed.

Lemma quiet_send_error code message : preserves Q (server._send_error W code message).
Proof. by apply quiet_send_message. Qed.

Lemma session_key_inj (f1 f2 : string) :
  server.session_key W f1 = server.session_key W f2 -> f1 = f2.
Proof.
  unfold server.session_key. intros E. by repeat apply append_inj_l in E.
Qed.

Lemma quiet_redis_set (field value : string) :
  server.may_store field value = true ->
  preserves Q (server.redis_set W (server.session_key W field) value).
Proof.
  intros Hok s (Hsent & Hf & Hst). unfold server.redis_set, server.with_redis.
  destruct (server.redis_fails W (server.redis_ops s)); destruct s; simpl in *; [done|].
  unfold server.may_store in Hok. apply andb_true_iff in Hok as [Hnp Hv].
  apply negb_true_iff, bool_decide_eq_false in Hnp.
  split; [done|]. unfold server.stored in *. split.
  - intros g Hg. simpl. rewrite lookup_insert_ne; [by apply Hf|].
    intros E. apply session_key_inj in E. by subst.
  - simpl. destruct (decide (field = "status")) as [->|Hne].
    + rewrite lookup_insert_eq. simpl. simpl in Hv.
      apply orb_true_iff in Hv as [Hv|Hv]; apply String.eqb_eq in Hv; subst; unfold server.status_ok; eauto.
    + rewrite lookup_insert_ne; [done|]. intros E. by apply session_key_inj in E.
Qed.

Lemma quiet_redis_expire (key : string) (seconds : Z) :
  preserves Q (server.redis_expire W key seconds).
Proof.
  intros s (Hsent & Hf & Hst). unfold server.redis_expire, server.with_redis.
  destruct (server.redis_fails W (server.redis_ops s)); destruct s; simpl in *; [done|].
  assert (Hal : forall k, server.stored (alter (fun e => (e.1, Some seconds)) key redis) k
                          = server.stored redis k).
  { intros k. unfold server.stored. rewrite lookup_alter. case_decide; [|done].
    subst. by destruct (redis !! k). }
  split; [done|]. simpl. split.
  - intros g Hg. rewrite Hal. by apply Hf.
  - by rewrite Hal.
Qed.

Lemma quiet_state_read {A} (f : server.state -> A) :
  preserves Q (fun s => (Return (f s), s)).
Proof. apply quiet_untouched. by intros []. Qed.

Lemma quiet_with_fs (f : server.state -> gmap string file) :
  preserves Q (fun s => (Return tt, server.with_fs (f s) s)).
Proof. apply quiet_untouched. by intros []. Qed.

(** One step of a proof that a computation keeps [quiet]: through the
    control structure, into a case analysis, or by a lemma on a step. *)
Ltac quiet_step :=
  match goal with
  | |- server.preserves _ (server.ret _) => apply preserves_ret
  | |- server.preserves _ (server.raise _) => apply preserves_raise
  | |- server.preserves _ (server.lift _) => apply preserves_lift
  | |- server.preserves _ (server.bind _ _) => apply preserves_bind; [|intros ?]
  | |- server.preserves _ (server.try_except _ _) => apply preserves_try_except; [|intros ?]
  | |- server.preserves _ (server.try_finally _ _) => apply preserves_try_finally
  | |- server.preserves _ (server.when _ _) => apply preserves_when
  | |- server.preserves _ (server.for_each _ _) => apply preserves_for_each; intros ? _
  | |- server.preserves _ (server.time_time _) => apply quiet_time
  | |- server.preserves _ (server.print _) => apply quiet_print
  | |- server.preserves _ server.writer_close => apply quiet_close
  | |- server.preserves _ (server.reader_readexactly _) => apply quiet_readexactly
  | |- server.preserves _ (server.apply_async _ _) => apply quiet_apply_async
  | |- server.preserves _ (server._read_video_file _) => apply quiet_read_video_file
  | |- server.preserves _ (server._send_error _ _ _) => apply quiet_send_error
  | |- server.preserves _ (server._send_message _ _) => apply quiet_send_message; reflexivity
  | |- server.preserves _ (server.write_drain _ _) => apply quiet_write_drain; reflexivity
  | |- server.preserves _ (server.redis_set _ _ _) => apply quiet_redis_set; reflexivity
  | |- server.preserves _ (server.redis_expire _ _ _) => apply quiet_redis_expire
  | |- server.preserves _ (fun s => (Return tt, server.with_fs _ s)) =>
      apply (quiet_with_fs _)
  | |- server.preserves _ (match ?x with _ => _ end) => destruct x
  end.

Ltac quiet := repeat quiet_step.

Lemma quiet_recv_message : preserves Q (server._recv_message).
Proof. unfold server._recv_message. quiet. Qed.

Lemma quiet_receive_video : preserves Q (server._receive_video W).
Proof.
  unfold server._receive_video. quiet.
  apply quiet_untouched. intros []. simpl. by destruct (server.read_to_eof _).
Qed.

Lemma quiet_dispatch_loop frames : forall n tasks originals processing metadata,
  preserves Q (server.dispatch_loop W frames n tasks originals processing metadata).
Proof.
  induction frames as [|frame frames IH]; intros; simpl; quiet; apply IH.
Qed.

Lemma quiet_dispatch_tasks processing metadata metrics path :
  preserves Q (server.dispatch_tasks W processing metadata metrics path).
Proof.
  unfold server.dispatch_tasks. quiet.
  - apply (quiet_state_read (fun s => server.fs s !! path)).
  - apply quiet_dispatch_loop.
Qed.

Lemma quiet_publish_metadata handshake props :
  preserves Q (server.publish_metadata W handshake props).
Proof. unfold server.publish_metadata. quiet. Qed.

Lemma quiet_publish_completed : preserves Q (server.publish_completed W).
Proof. unfold server.publish_completed. quiet. Qed.

Lemma quiet_get_celery_results tasks : preserves Q (server.get_celery_results W tasks).
Proof. apply quiet_untouched. by intros []. Qed.

Lemma quiet_results_loop results : forall originals props fb metrics,
  preserves Q (server.results_loop results originals props fb metrics).
Proof.
  induction results as [|[res n] results IH]; intros; simpl; quiet;
    try apply IH.
  apply (quiet_state_read server.fs).
Qed.

Lemma quiet_process_results results tasks originals props path codec metrics callback :
  preserves Q (server.process_results W results tasks originals props path codec metrics callback).
Proof.
  unfold server.process_results, server._process_results_sync. quiet.
  apply quiet_results_loop.
Qed.

Lemma quiet_handle_session handshake : preserves Q (server.handle_session W handshake).
Proof.
  unfold server.handle_session, server.dict_item. quiet.
  - apply quiet_receive_video.
  - apply quiet_dispatch_tasks.
  - apply quiet_publish_metadata.
  - apply quiet_get_celery_results.
  - apply quiet_process_results.
  - apply quiet_publish_completed.
Qed.

Lemma quiet_handle_try : preserves Q (server.handle_try W).
Proof.
  unfold server.handle_try, server.get_type. quiet; try apply quiet_recv_message;
    apply quiet_handle_session.
Qed.

Lemma quiet_handle : preserves Q (server.handle W).
Proof. unfold server.handle. quiet. apply quiet_handle_try. Qed.
End Quiet.

Lemma quiet_refl (s : server.state) : server.quiet W s s.
Proof.
  split; [|split]; [|done|by left].
  exists []. by rewrite app_nil_r.
Qed.

(** ** Sending one message *)

(** [_send_message] leaves everything but the stream alone; it writes the
    message when it serializes and the stream takes it, and nothing
    otherwise. *)
Lemma send_message_effect (m : json) (s : server.state) :
  let '(r, s') := server._send_message W m s in
  server.redis s' = server.redis s /\ server.closed s' = server.closed s /\
  server.reader s' = server.reader s /\
  (server.sent s' = server.sent s \/ server.sent s' = server.sent s ++ [server.Message m]) /\
  (forall payload, json_dumps m = Return payload -> messages.len payload < 2 ^ 32 ->
     server.write_fails W (server.writes s) = false ->
     r = Return tt /\ server.sent s' = server.sent s ++ [server.Message m]).
Proof.
  unfold server._send_message, server.bind, server.lift, server.write_drain.
  destruct (json_dumps m) as [payload|e] eqn:Hd.
  - destruct (messages.pack_I (messages.len payload)) as [length|e] eqn:Hp.
    + destruct (server.write_fails W (server.writes s)) eqn:Hw; destruct s; simpl in *;
        split_and!; eauto; intros; congruence.
    + split_and!; eauto. intros p [= ->] Hlen _.
      destruct (unpack_pack (messages.len p)) as (? & ? & ? & ? & Hpack & _);
        [unfold messages.len in *; lia|congruence].
  - split_and!; eauto. intros; congruence.
Qed.

(** [_recv_message] only consumes from the reader. *)
Lemma recv_message_effect (s : server.state) :
  let '(r, s') := server._recv_message s in
  (exists first, r = Return first) /\
  server.redis s' = server.redis s /\ server.closed s' = server.closed s /\
  server.sent s' = server.sent s /\ server.writes s' = server.writes s.
Proof.
  unfold server._recv_message, server.try_except, server.bind, server.lift,
    server.reader_readexactly, server.ret.
  destruct s as [rd sn wr cl rs ro tk f q c]; simpl.
  destruct (server.readexactly rd _) as [[b|e] inc]; simpl; [|by eauto 10].
  destruct (messages.unpack_I b) as [n|e]; simpl; [|by eauto 10].
  destruct (server.readexactly inc _) as [[p|e] inc']; simpl; [|by eauto 10].
  destruct (messages.decode_payload p); simpl; eauto 10.
Qed.


(** C3 (amended): when the body of [handle] raises, the handler sends an
    [error] message with code [PROCESSING_ERROR] (provided it serializes
    and the stream takes the write), does not touch the state store, and
    the connection is closed; the session's [status] is what it was before
    the session, [processing] or [completed]: no code path stores
    [failed]. *)
Theorem error_path_keeps_status (s s1 : server.state) (e : exn) :
  server.handle_try W s = (Raise e, s1) ->
  let reply := messages.make_error "PROCESSING_ERROR" (worker.exn_str e) false in
  let s' := snd (server.handle W s) in
  server.closed s' = true /\
  server.redis s' = server.redis s1 /\
  server.status_ok (server.stored (server.redis s) (server.session_key W "status"))
    (server.stored (server.redis s') (server.session_key W "status")) /\
  (forall payload, json_dumps reply = Return payload -> messages.len payload < 2 ^ 32 ->
     server.write_fails W (server.writes s1) = false ->
     server.sent s' = server.sent s1 ++ [server.Message reply]).
Proof.
  intros Htry reply s'.
  pose proof (quiet_handle s s (quiet_refl s)) as (_ & _ & Hstatus). fold s' in Hstatus.
  split; [|split; [|split; [done|]]]; subst s';
    unfold server.handle, server.try_finally, server.try_except, server.writer_close;
    rewrite Htry; unfold server._send_error; fold reply;
    pose proof (send_message_effect reply s1) as Hm1;
    destruct (server._send_message W reply s1) as [r2 s2];
    destruct Hm1 as (Hr & Hc & _ & _ & Hok); simpl.
  - by destruct s2.
  - by destruct s2.
  - intros payload Hd Hlen Hw. destruct (Hok payload Hd Hlen Hw) as [_ Hsent].
    by destruct s2.
Qed.

(** C2, in general: whatever the client and the world do, [handle] writes
    no [progress] message to the client and publishes no progress field. *)
Lemma handle_never_reports_progress (s : server.state) :
  server.quiet W s (snd (server.handle W s)).
Proof. apply quiet_handle, quiet_refl. Qed.
End ServerFacts.

(** ** The orchestrator on concrete sessions *)


(** The same session, run: one [error] message, the connection closed, an
    empty state store. *)
Example hello_is_refused :
  let '(r, s') := examples.handle_on ref.opencv ref.filters_identity examples.hello [] in
  r = Return tt /\
  server.sent s' =
    [server.Message (messages.make_error "INVALID_HANDSHAKE" "Se esperaba handshake" false)] /\
  server.closed s' = true /\
  server.redis s' = ∅.
Proof. by vm_compute. Qed.

(** A first message that is not an object has no [get]: the handler's
    [PROCESSING_ERROR] is sent instead, and the store stays empty. *)
Example list_is_refused_differently :
  let '(r, s') := examples.handle_on ref.opencv ref.filters_identity (JList [JInt 1]) [] in
  server.message_code <$> server.sent s' = [Some "PROCESSING_ERROR"] /\
  server.closed s' = true /\
  server.redis s' = ∅.
Proof. by vm_compute. Qed.

Lemma error_path_keeps_status_witness :
  let W := examples.world ref.filters_identity in
  let s := examples.client examples.handshake [] in
  let s1 := snd (server.handle_try (H := ref.opencv) (H0 := ref.json_lib)
                   (H1 := ref.py_format) W s) in
  let reply := messages.make_error "PROCESSING_ERROR"
                 (worker.exn_str (ValueError "No se pudo abrir el video: input_ab12cd34.mp4"))
                 false in
  let s' := snd (server.handle (H := ref.opencv) (H0 := ref.json_lib) (H1 := ref.py_format) W s) in
  server.closed s' = true /\
  server.redis s' = server.redis s1 /\
  server.status_ok (server.stored (server.redis s) (server.session_key W "status"))
    (server.stored (server.redis s') (server.session_key W "status")) /\
  (forall payload, @json_dumps ref.json_lib reply = Return payload -> messages.len payload < 2 ^ 32 ->
     server.write_fails W (server.writes s1) = false ->
     server.sent s' = server.sent s1 ++ [server.Message reply]).
Proof.
  apply (error_path_keeps_status (H := ref.opencv) (H0 := ref.json_lib)
           (H1 := ref.py_format) (examples.world ref.filters_identity)
           (examples.client examples.handshake [])
           (snd (server.handle_try (H := ref.opencv) (H0 := ref.json_lib)
                   (H1 := ref.py_format) (examples.world ref.filters_identity)
                   (examples.client examples.handshake [])))
           (ValueError "No se pudo abrir el video: input_ab12cd34.mp4")).
  by vm_compute.
Defined.

(** C3, as stated, fails on the code: the client sends its handshake and
    closes; the video does not open, the [try] body raises, the client is
    sent [PROCESSING_ERROR], the connection is closed, and the state store
    holds no [status] for the session: [failed] was not written. *)
Lemma disconnect_never_marks_failed :
  let W := examples.world ref.filters_identity in
  let s := examples.client examples.handshake [] in
  fst (server.handle_try (H := ref.opencv) (H0 := ref.json_lib) (H1 := ref.py_format) W s)
  = Raise (ValueError "No se pudo abrir el video: input_ab12cd34.mp4") /\
  let s' := snd (server.handle (H := ref.opencv) (H0 := ref.json_lib) (H1 := ref.py_format) W s) in
  server.message_type <$> server.sent s' = [Some "handshake_ack"; Some "error"] /\
  server.closed s' = true /\
  server.redis s' = ∅ /\
  server.stored (server.redis s') "session:ab12cd34:status" <> Some "failed".
Proof. by vm_compute. Qed.

(** An error after the results are in: with an encoder that does not
    open there is no output file to read; the client is sent
    [PROCESSING_ERROR] while [status] reads [completed]. *)
Example missing_output_reads_completed :
  let s' := snd (examples.handle_on ref.opencv_no_encoder ref.filters_identity
                   examples.handshake [Byte.x07; Byte.x08]) in
  server.message_type <$> server.sent s' = [Some "handshake_ack"; Some "error"] /\
  server.stored (server.redis s') "session:ab12cd34:status" = Some "completed".
Proof. by vm_compute. Qed.

(** C2, at the failing input: a video of thirty frames is processed and
    delivered; the client is sent the acknowledgement, the result and the
    video, and no [progress] message; the state store holds no progress
    field; the thirtieth frame only prints a line on the console. *)
Theorem thirty_frames_no_progress :
  let '(r, s') := examples.handle_on ref.opencv ref.filters_identity
                    examples.handshake examples.thirty_frames in
  r = Return tt /\
  server.message_type <$> server.sent s' = [Some "handshake_ack"; Some "result"; None] /\
  (fun field => server.stored (server.redis s') ("session:ab12cd34:" +:+ field))
    <$> server.progress_fields = [None; None; None; None] /\
  server.stored (server.redis s') "session:ab12cd34:total_frames" = Some "30" /\
  server.console s' =
    ["Metadata guardada en Redis"; "Progreso: 30/30 frames procesados";
     "Estado actualizado a 'completed' en Redis"].
Proof. by vm_compute. Qed.

(** With filters that always fail the workers leave no sidecar, the
    collector's wait for each frame ends in a timeout, and the session
    completes on the original frames, all counted as failed. *)
Example failing_filters_fall_back :
  let '(r, s') := examples.handle_on ref.opencv ref.filters_failing
                    examples.handshake [Byte.x07; Byte.x08] in
  r = Return tt /\
  server.message_type <$> server.sent s' = [Some "handshake_ack"; Some "result"; None] /\
  last (server.sent s') = Some (server.Bytes [Byte.x07; Byte.x07; Byte.x07;
                                              Byte.x08; Byte.x08; Byte.x08]) /\
  server.fs s' !! "/app/data/frames/ab12cd34/frame_000000.png"
    = Some (FFrame (mkFrame 1 1 [7; 7; 7])) /\
  server.fs s' !! "/app/data/frames/ab12cd34/frame_000000.json" = None.
Proof. by vm_compute. Qed.

(* ===================================================================== *)
(** * Theorems: runs of the writer, late frames, unopened encoders *)
(* ===================================================================== *)

Section WriterRuns.
Context `{OpenCV}.

(** ** [open], [write] and [close] one at a time *)

Lemma sized_open (w : writer.VideoWriter) (first : option Frame) :
  writer.sized w -> writer.sized (snd (writer.open w first)).
Proof.
  unfold writer.sized, writer.open, writer.encoded. intros Hw.
  destruct (writer.is_open w); [done|].
  destruct (writer.frame_size w) as [sz|] eqn:Hsz.
  - destruct (cv_writer_opens _ _ _ _); simpl; apply Forall_nil_2.
  - destruct first as [f|]; [|by simpl; rewrite Hsz].
    destruct (cv_writer_opens _ _ _ _); simpl; apply Forall_nil_2.
Qed.
Lemma open_true_is_open (w w1 : writer.VideoWriter) first :
  writer.open w first = (Return true, w1) -> writer.is_open w1 = true.
Proof.
  unfold writer.open. destruct (writer.is_open w) eqn:Ho; [by intros [= <-]|].
  destruct (writer.frame_size w) as [sz|]; [|destruct first as [f|]; [|done]];
    destruct (cv_writer_opens _ _ _ _); by intros [= <-].
Qed.

Lemma write_unopened (w : writer.VideoWriter) (frame : Frame) :
  writer.is_open w = false ->
  writer.write w frame =
    match writer.open w (Some frame) with
    | (Return true, w1) => writer.write w1 frame
    | (Return false, w1) => (Return false, w1)
    | (Raise e, w1) => (Raise e, w1)
    end.
Proof.
  intros Ho. unfold writer.write at 1. rewrite Ho.
  destruct (writer.open w (Some frame)) as [[[]|e] w1] eqn:E; try done.
  pose proof (open_true_is_open _ _ _ E) as Ho1.
  unfold writer.write. by rewrite !Ho1.
Qed.

Lemma sized_write_open {Hresize : OpenCVResize} (w : writer.VideoWriter) (frame : Frame) :
  writer.is_open w = true -> writer.sized w -> writer.sized (snd (writer.write w frame)).
Proof.
  intros Ho. unfold writer.write, writer.fit, writer.sized, writer.encoded. rewrite Ho.
  destruct (writer.frame_size w) as [sz|] eqn:Hsz; [|by simpl; rewrite Hsz].
  destruct (writer.writer w) as [cv|] eqn:Ew; [|by simpl; rewrite Hsz, Ew].
  destruct (cv_write_raises _ _); simpl; rewrite ?Hsz, ?Ew; [done|].
  intros Hw. apply Forall_app. split; [done|]. apply Forall_singleton.
  unfold writer.fit_to. destruct (decide _) as [E|E]; [done|apply resize_size].
Qed.

Lemma sized_write {Hresize : OpenCVResize} (w : writer.VideoWriter) (frame : Frame) :
  writer.sized w -> writer.sized (snd (writer.write w frame)).
Proof.
  intros Hw. destruct (writer.is_open w) eqn:Ho; [by apply sized_write_open|].
  rewrite write_unopened by done.
  pose proof (sized_open w (Some frame) Hw) as Hs.
  destruct (writer.open w (Some frame)) as [[[]|e] w1] eqn:E; simpl in *; try done.
  apply sized_write_open; [|done]. by apply (open_true_is_open _ _ _ E).
Qed.

Lemma sized_close (w : writer.VideoWriter) : writer.sized w -> writer.sized (writer.close w).
Proof.
  unfold writer.sized, writer.close, writer.encoded.
  destruct (writer.is_open w); [|done].
  destruct (writer.writer w) as [cv|] eqn:E; simpl; [|by rewrite E].
  done.
Qed.

(** X1: whatever sequence of [open], [write] and [close] calls a
    [VideoWriter] receives after its construction, with or without a
    declared [frame_size] and whatever the encoder answers, every frame
    its encoder holds has the writer's [frame_size] (given by the
    constructor, or taken from the first frame); without a [frame_size]
    the encoder holds nothing. *)
Theorem encoder_frames_have_frame_size {Hresize : OpenCVResize}
    (output_path fourcc : string) (fps : float) (frame_size : option (Z * Z))
    (calls : list writer.call) :
  writer.sized
    (writer.run (writer.VideoWriter_init output_path fourcc fps frame_size) calls).
Proof.
  unfold writer.run.
  assert (Hinit : writer.sized (writer.VideoWriter_init output_path fourcc fps frame_size)).
  { unfold writer.sized. simpl. by destruct frame_size. }
  revert Hinit. generalize (writer.VideoWriter_init output_path fourcc fps frame_size).
  induction calls as [|c calls IH]; intros w Hw; [done|].
  simpl. apply IH. destruct c; simpl.
  - by apply sized_open.
  - by apply sized_write.
  - by apply sized_close.
Qed.

Lemma open_frame_count (w : writer.VideoWriter) (first : option Frame) :
  writer.frame_count (snd (writer.open w first)) = writer.frame_count w.
Proof.
  unfold writer.open. destruct (writer.is_open w); [done|].
  destruct (writer.frame_size w) as [sz|]; [|destruct first as [f|]; [|done]];
    by destruct (cv_writer_opens _ _ _ _).
Qed.

Lemma write_frame_count (w : writer.VideoWriter) (frame : Frame) :
  writer.frame_count (snd (writer.write w frame))
  = writer.frame_count w
    + match fst (writer.write w frame) with Return true => 1 | _ => 0 end.
Proof.
  unfold writer.write. destruct (writer.is_open w) eqn:Ho.
  - destruct (writer.fit w frame); simpl; [|lia].
    destruct (writer.writer w); simpl; [|lia].
    destruct (cv_write_raises _ _); simpl; lia.
  - pose proof (open_frame_count w (Some frame)) as Hc.
    destruct (writer.open w (Some frame)) as [[[]|e] w1]; simpl in *; try lia.
    destruct (writer.fit w1 frame); simpl; [|lia].
    destruct (writer.writer w1); simpl; [|lia].
    destruct (cv_write_raises _ _); simpl; lia.
Qed.

(** X2: over any sequence of [open], [write] and [close] calls,
    [frame_count] grows by exactly the number of [write] calls that
    returned [True]: a write that returns [False] or raises, an [open]
    and a [close] leave it as it is. *)
Theorem frame_count_counts_successful_writes
    (w : writer.VideoWriter) (calls : list writer.call) :
  writer.frame_count (writer.run w calls)
  = writer.frame_count w + writer.successes w calls.
Proof.
  unfold writer.run. revert w.
  induction calls as [|c calls IH]; intros w; simpl; [lia|].
  rewrite IH. destruct c; simpl.
  - rewrite open_frame_count. lia.
  - rewrite write_frame_count. lia.
  - unfold writer.close. destruct (writer.is_open w), (writer.writer w); simpl; lia.
Qed.

(** X3: [write] on a writer that was closed opens a new encoder on the
    same path: the call returns [True], the new encoder holds this one
    frame (what was encoded before [close] is no longer in the file being
    written), and [frame_count] goes on from its old value. *)
Theorem write_after_close_starts_over
    (w : writer.VideoWriter) (frame : Frame) (sz : Z * Z) :
  writer.is_open w = true ->
  writer.frame_size w = Some sz ->
  is_Some (writer.writer w) ->
  cv_writer_opens (writer.output_path w) (writer.fourcc_str w) (writer.fps w) sz = true ->
  cv_write_raises [] (writer.fit_to sz frame) = false ->
  exists w', writer.write (writer.close w) frame = (Return true, w') /\
    writer.encoded w' = [writer.fit_to sz frame] /\
    writer.frame_count w' = writer.frame_count w + 1 /\
    writer.is_open w' = true.
Proof.
  intros Ho Hsz [cv Hcv] Hopens Hwrites.
  unfold writer.close. rewrite Ho, Hcv.
  unfold writer.write, writer.open, writer.fit. simpl. rewrite Hsz, Hopens. simpl.
  rewrite Hwrites. eexists. split; [done|]. done.
Qed.

End WriterRuns.

Section BufferRuns.
Context `{OpenCV}.

(** ** What one pass of a loop body does to the buffer *)

Lemma emit_effect (fb : writer.VideoFrameBuffer) (frame : Frame) :
  writer.buffer (snd (writer.emit fb frame))
    = delete (writer.next_frame_number fb) (writer.buffer fb) /\
  writer.handed (snd (writer.emit fb frame))
    = writer.handed fb ++ [(writer.next_frame_number fb, frame)] /\
  writer.fb_writer (snd (writer.emit fb frame))
    = snd (writer.write (writer.fb_writer fb) frame) /\
  writer.next_frame_number (snd (writer.emit fb frame))
    = writer.next_frame_number fb
      + match fst (writer.emit fb frame) with Return _ => 1 | Raise _ => 0 end.
Proof.
  unfold writer.emit. destruct (writer.write _ _) as [[b|e] w']; simpl;
    repeat split; lia.
Qed.

Lemma extends_refl (fb : writer.VideoFrameBuffer) : writer.extends fb fb.
Proof.
  split; [lia|]. split; [|done]. exists []. by rewrite app_nil_r.
Qed.

Lemma extends_trans (a b c : writer.VideoFrameBuffer) :
  writer.extends a b -> writer.extends b c -> writer.extends a c.
Proof.
  intros (Hab & (n1 & Hn1 & Hf1) & Hb1) (Hbc & (n2 & Hn2 & Hf2) & Hb2).
  split; [lia|]. split.
  - exists (n1 ++ n2). split; [by rewrite Hn2, Hn1, app_assoc|].
    apply Forall_app. split; [done|].
    eapply Forall_impl; [done|]. intros e He. simpl in *. lia.
  - intros j Hj Hs. apply Hb2; [lia|]. by apply Hb1.
Qed.

Lemma emit_extends (fb : writer.VideoFrameBuffer) (frame : Frame) :
  writer.extends fb (snd (writer.emit fb frame)).
Proof.
  destruct (emit_effect fb frame) as (Hb & Hh & _ & Hn).
  split; [|split].
  - rewrite Hn. destruct (fst _); lia.
  - eexists. split; [done|]. apply Forall_singleton. simpl. lia.
  - intros j Hj Hs. rewrite Hb, lookup_delete_ne by lia. done.
Qed.

Lemma drain_extends (fuel : nat) :
  forall fb written, writer.extends fb (snd (writer.drain fuel fb written)).
Proof.
  induction fuel as [|fuel IH]; intros fb written; simpl; [apply extends_refl|].
  destruct (writer.buffer fb !! writer.next_frame_number fb) as [frame|];
    [|apply extends_refl].
  pose proof (emit_extends fb frame) as He.
  destruct (writer.emit fb frame) as [[b|e] fb1]; simpl in *; [|done].
  eapply extends_trans; [done|apply IH].
Qed.

Lemma add_frame_extends (fb : writer.VideoFrameBuffer) (i : Z) (frame : Frame) :
  writer.extends fb (snd (writer.add_frame fb i frame)).
Proof.
  unfold writer.add_frame.
  eapply extends_trans; [|apply drain_extends].
  split; [simpl; lia|]. split; simpl.
  - exists []. by rewrite app_nil_r.
  - intros j Hj Hs. destruct (decide (i = j)) as [->|Hne].
    + rewrite lookup_insert_eq. eauto.
    + by rewrite lookup_insert_ne.
Qed.

Lemma add_frames_extends (calls : list (Z * Frame)) :
  forall fb, writer.extends fb (snd (writer.add_frames fb calls)).
Proof.
  induction calls as [|[i f] calls IH]; intros fb; simpl; [apply extends_refl|].
  pose proof (add_frame_extends fb i f) as Ha.
  destruct (writer.add_frame fb i f) as [[n|e] fb1]; simpl in *; [|done].
  eapply extends_trans; [done|apply IH].
Qed.

Lemma flush_loop_extends (passes : nat) :
  forall fb written, writer.extends fb (snd (writer.flush_loop passes fb written)).
Proof.
  induction passes as [|passes IH]; intros fb written; simpl; [apply extends_refl|].
  set (frame := match writer.buffer fb !! writer.next_frame_number fb with
                | Some frame => Return frame
                | None => _
                end).
  destruct frame as [frame|e]; [|apply extends_refl].
  pose proof (emit_extends fb frame) as He.
  destruct (writer.emit fb frame) as [[b|e] fb1]; simpl in *; [|done].
  eapply extends_trans; [done|apply IH].
Qed.

Lemma session_extends (fb : writer.VideoFrameBuffer) (calls : list (Z * Frame)) (total : Z) :
  writer.extends fb (snd (writer.session fb calls total)).
Proof.
  unfold writer.session.
  pose proof (add_frames_extends calls fb) as Ha.
  destruct (writer.add_frames fb calls) as [[[]|e] fb1]; simpl in *; [|done].
  eapply extends_trans; [done|apply flush_loop_extends].
Qed.

(** X4: a frame added for an index the cursor has already passed (a late
    or repeated result) is never written: [add_frame] returns 0 and calls
    the writer not at all, and whatever [add_frame] and [flush_remaining]
    calls follow, the writer only receives indices above it while the
    entry stays in the buffer, so [get_pending_count] never returns to
    zero. *)
Theorem late_frame_is_never_written
    (fb : writer.VideoFrameBuffer) (i : Z) (frame : Frame)
    (calls : list (Z * Frame)) (total : Z) :
  i < writer.next_frame_number fb ->
  writer.buffer fb !! writer.next_frame_number fb = None ->
  exists fb1, writer.add_frame fb i frame = (Return 0, fb1) /\
    writer.fb_writer fb1 = writer.fb_writer fb /\
    writer.handed fb1 = writer.handed fb /\
    let fb2 := snd (writer.session fb1 calls total) in
    (exists new, writer.handed fb2 = writer.handed fb ++ new /\
       Forall (fun e => i < fst e) new) /\
    1 <= writer.get_pending_count fb2.
Proof.
  intros Hlate Hnone. unfold writer.add_frame. simpl.
  rewrite lookup_insert_ne by lia. rewrite Hnone.
  eexists. split; [done|]. simpl. split; [done|]. split; [done|].
  set (fb1 := writer.mkBuffer _ _ _ _).
  destruct (session_extends fb1 calls total) as (Hn & (new & Hnew & Hall) & Hb).
  split.
  - exists new. split; [done|]. eapply Forall_impl; [done|].
    intros e He. simpl in *. lia.
  - assert (is_Some (writer.buffer (snd (writer.session fb1 calls total)) !! i)) as [x Hx].
    { apply Hb; [done|]. simpl. rewrite lookup_insert_eq. eauto. }
    unfold writer.get_pending_count.
    assert (size (writer.buffer (snd (writer.session fb1 calls total))) <> 0%nat); [|lia].
    intros Hz. apply map_size_empty_inv in Hz. rewrite Hz in Hx. by rewrite lookup_empty in Hx.
Qed.

(** ** Properties of the writer carried through the buffer *)

Section Carried.
Variable P : writer.VideoWriter -> Prop.
Hypothesis P_write : forall w f, P w -> P (snd (writer.write w f)).

Lemma emit_carries (fb : writer.VideoFrameBuffer) (frame : Frame) :
  P (writer.fb_writer fb) -> P (writer.fb_writer (snd (writer.emit fb frame))).
Proof.
  intros Hp. destruct (emit_effect fb frame) as (_ & _ & -> & _). by apply P_write.
Qed.

Lemma drain_carries (fuel : nat) :
  forall fb written, P (writer.fb_writer fb) ->
    P (writer.fb_writer (snd (writer.drain fuel fb written))).
Proof.
  induction fuel as [|fuel IH]; intros fb written Hp; simpl; [done|].
  destruct (writer.buffer fb !! writer.next_frame_number fb) as [frame|]; [|done].
  pose proof (emit_carries fb frame Hp) as He.
  destruct (writer.emit fb frame) as [[b|e] fb1]; simpl in *; [|done].
  by apply IH.
Qed.

Lemma add_frames_carries (calls : list (Z * Frame)) :
  forall fb, P (writer.fb_writer fb) ->
    P (writer.fb_writer (snd (writer.add_frames fb calls))).
Proof.
  induction calls as [|[i f] calls IH]; intros fb Hp; simpl; [done|].
  assert (Ha : P (writer.fb_writer (snd (writer.add_frame fb i f)))).
  { unfold writer.add_frame. by apply drain_carries. }
  destruct (writer.add_frame fb i f) as [[n|e] fb1]; simpl in *; [|done].
  by apply IH.
Qed.

Lemma flush_loop_carries (passes : nat) :
  forall fb written, P (writer.fb_writer fb) ->
    P (writer.fb_writer (snd (writer.flush_loop passes fb written))).
Proof.
  induction passes as [|passes IH]; intros fb written Hp; simpl; [done|].
  set (frame := match writer.buffer fb !! writer.next_frame_number fb with
                | Some frame => Return frame
                | None => _
                end).
  destruct frame as [frame|e]; [|done].
  pose proof (emit_carries fb frame Hp) as He.
  destruct (writer.emit fb frame) as [[b|e] fb1]; simpl in *; [|done].
  by apply IH.
Qed.

Lemma session_carries (fb : writer.VideoFrameBuffer) (calls : list (Z * Frame)) (total : Z) :
  P (writer.fb_writer fb) ->
  P (writer.fb_writer (snd (writer.session fb calls total))).
Proof.
  intros Hp. unfold writer.session.
  pose proof (add_frames_carries calls fb Hp) as Ha.
  destruct (writer.add_frames fb calls) as [[[]|e] fb1]; simpl in *; [|done].
  by apply flush_loop_carries.
Qed.
End Carried.

(** ** A whole session *)

(** With a declared, non-negative [frame_size] and indices below [N], a
    session returns, the cursor ends at [N] and the invariant holds. *)
Lemma session_returns (output_path fourcc : string) (fps : float) (w h N : Z)
    (calls : list (Z * Frame)) :
  0 <= w -> 0 <= h ->
  Forall (fun c => 0 <= fst c < N) calls ->
  exists written fb,
    writer.session
      (writer.VideoFrameBuffer_init
         (writer.VideoWriter_init output_path fourcc fps (Some (w, h))))
      calls N = (Return written, fb) /\
    writer.buffer_inv True w h calls fb /\
    writer.next_frame_number fb = Z.max 0 N.
Proof.
  intros Hw Hh Hcalls. unfold writer.session.
  destruct (add_frames_inv w h calls [] _ (init_inv output_path fourcc fps w h))
    as (fb1 & -> & Hinv1). simpl in Hinv1.
  assert (Hbound : writer.next_frame_number fb1 <= Z.max 0 N).
  { eapply cursor_bound; [done| |done].
    intros i f Hin. by destruct (writer.inv_frames _ _ _ _ _ Hinv1 i f Hin) as [?|[[] _]]. }
  unfold writer.flush_remaining.
  destruct (flush_loop_inv w h calls (Z.to_nat (N - writer.next_frame_number fb1)) Hw Hh
              fb1 0 (buffer_inv_flush _ _ _ _ Hinv1)) as (n & fb & -> & Hinv & Hn).
  exists n, fb. split; [done|]. split; [done|].
  pose proof (writer.inv_cursor _ _ _ _ _ Hinv1). lia.
Qed.

Lemma unopened_write (w : writer.VideoWriter) (frame : Frame) :
  writer.never_opens ->
  writer.is_open w = false /\ writer.frame_count w = 0 /\ writer.encoded w = [] ->
  let w' := snd (writer.write w frame) in
  writer.is_open w' = false /\ writer.frame_count w' = 0 /\ writer.encoded w' = [].
Proof.
  intros Hno (Ho & Hc & He). unfold writer.write, writer.open. rewrite Ho.
  destruct (writer.frame_size w) as [sz|]; rewrite Hno; simpl; done.
Qed.


(** ** The counts returned *)

Lemma drain_counts (sz : Z * Z) (fuel : nat) :
  forall fb written,
    writer.frame_size (writer.fb_writer fb) = Some sz ->
    exists k fb', writer.drain fuel fb written = (Return k, fb') /\
      written <= k /\
      writer.frame_size (writer.fb_writer fb') = Some sz /\
      writer.next_frame_number fb' = writer.next_frame_number fb + (k - written) /\
      (exists new, writer.handed fb' = writer.handed fb ++ new /\
         Z.of_nat (length new) = k - written) /\
      ((size (writer.buffer fb) < fuel)%nat ->
       writer.buffer fb' !! writer.next_frame_number fb' = None).
Proof.
  induction fuel as [|fuel IH]; intros fb written Hsz; simpl.
  - eexists _, _. split; [done|]. split; [lia|]. split; [done|]. split; [lia|].
    split; [|lia]. exists []. rewrite app_nil_r. split; [done|simpl; lia].
  - destruct (writer.buffer fb !! writer.next_frame_number fb) as [frame|] eqn:E.
    + destruct (emit_sized fb frame _ Hsz) as (b & w' & -> & Hw' & _).
      set (fb1 := writer.mkBuffer _ _ _ _).
      destruct (IH fb1 (written + 1) Hw') as (k & fb' & -> & Hk & Hsz' & Hn & (new & Hnew & Hlen) & Hexit).
      eexists _, _. split; [done|]. split; [lia|]. split; [done|].
      split; [subst fb1; simpl in *; lia|]. split.
      * eexists. subst fb1. simpl in *. rewrite <- app_assoc in Hnew. split; [done|].
        rewrite length_app. simpl. lia.
      * intros Hsize. apply Hexit. subst fb1. simpl.
        pose proof (map_size_delete_Some (writer.next_frame_number fb) (writer.buffer fb)
                      (mk_is_Some _ _ E)) as Hd.
        assert (size (writer.buffer fb) <> 0%nat).
        { intros Hz. apply map_size_empty_inv in Hz. rewrite Hz in E. by rewrite lookup_empty in E. }
        lia.
    + eexists _, _. split; [done|]. split; [lia|]. split; [done|]. split; [lia|].
      split; [|done]. exists []. rewrite app_nil_r. split; [done|simpl; lia].
Qed.


End BufferRuns.

Section EmptyBuffer.
Context `{OpenCV}.

#[local] Abbreviation above fb :=
  (forall j, is_Some (writer.buffer fb !! j) -> writer.next_frame_number fb <= j).

Lemma drain_above (sz : Z * Z) (fuel : nat) :
  forall fb written,
    writer.frame_size (writer.fb_writer fb) = Some sz ->
    above fb -> above (snd (writer.drain fuel fb written)).
Proof.
  induction fuel as [|fuel IH]; intros fb written Hsz Hab; simpl; [done|].
  destruct (writer.buffer fb !! writer.next_frame_number fb) as [frame|] eqn:E; [|done].
  destruct (emit_sized fb frame _ Hsz) as (b & w' & -> & Hw' & _).
  apply IH; [done|]. simpl. intros j Hj.
  destruct (decide (j = writer.next_frame_number fb)) as [->|Hne].
  - rewrite lookup_delete_eq in Hj. by destruct Hj.
  - rewrite lookup_delete_ne in Hj by done. specialize (Hab j Hj). lia.
Qed.

Lemma add_frames_above (w h : Z) (calls : list (Z * Frame)) :
  forall pre fb,
    writer.buffer_inv False w h pre fb ->
    above fb ->
    NoDup (fst <$> (pre ++ calls)) ->
    Forall (fun c => 0 <= fst c) calls ->
    exists fb', writer.add_frames fb calls = (Return tt, fb') /\
      writer.buffer_inv False w h (pre ++ calls) fb' /\ above fb'.
Proof.
  induction calls as [|[i f] calls IH]; intros pre fb Hinv Hab Hnd Hpos; simpl.
  - exists fb. by rewrite app_nil_r.
  - assert (Hi : writer.next_frame_number fb <= i).
    { destruct (decide (writer.next_frame_number fb <= i)) as [|Hlt]; [done|exfalso].
      apply Forall_cons in Hpos as [Hi0 _]. simpl in Hi0.
      assert (i ∈ fst <$> writer.handed fb) as Hin.
      { rewrite (writer.inv_order _ _ _ _ _ Hinv). apply elem_of_seqZ. lia. }
      apply list_elem_of_fmap in Hin as ([i' f'] & Hi' & Hin). simpl in Hi'. subst i'.
      destruct (writer.inv_frames _ _ _ _ _ Hinv i f' Hin) as [Hc|[[] _]].
      rewrite fmap_app in Hnd. apply NoDup_app in Hnd as (_ & Hdis & _).
      apply (Hdis i).
      - apply list_elem_of_fmap. by exists (i, f').
      - simpl. apply list_elem_of_here. }
    assert (Habove1 : above (snd (writer.add_frame fb i f))).
    { unfold writer.add_frame. eapply drain_above.
      - simpl. apply (writer.inv_size _ _ _ _ _ Hinv).
      - simpl. intros j Hj. destruct (decide (i = j)) as [<-|Hne]; [done|].
        rewrite lookup_insert_ne in Hj by done. by apply Hab. }
    destruct (add_frame_inv w h pre fb i f Hinv) as (n & fb1 & Hadd & Hinv1 & _).
    rewrite Hadd in Habove1 |- *. simpl in Habove1.
    destruct (IH (pre ++ [(i, f)]) fb1 Hinv1 Habove1) as (fb' & -> & Hinv' & Hab').
    + by rewrite <- app_assoc.
    + by apply Forall_cons in Hpos as [_ ?].
    + exists fb'. split; [done|]. by rewrite <- app_assoc in Hinv'.
Qed.

(** [flush_remaining] pops every index it passes. *)
Lemma flush_loop_deletes (w h : Z) (passes : nat) :
  0 <= w -> 0 <= h ->
  forall fb written,
    writer.frame_size (writer.fb_writer fb) = Some (w, h) ->
    exists n fb', writer.flush_loop passes fb written = (Return n, fb') /\
      forall j, writer.buffer fb' !! j =
        if decide (writer.next_frame_number fb <= j
                   < writer.next_frame_number fb + Z.of_nat passes)
        then None else writer.buffer fb !! j.
Proof.
  intros Hw Hh. induction passes as [|passes IH]; intros fb written Hsz; simpl.
  - eexists _, _. split; [done|]. intros j. destruct (decide _); [lia|done].
  - assert (exists frame,
              match writer.buffer fb !! writer.next_frame_number fb with
              | Some frame => Return frame
              | None =>
                  match writer.frame_size (writer.fb_writer fb) with
                  | None => Raise TypeError
                  | Some (w, h) => np_zeros h w
                  end
              end = Return frame) as [frame ->].
    { destruct (writer.buffer fb !! writer.next_frame_number fb); [eauto|].
      rewrite Hsz. by apply np_zeros_returns. }
    destruct (emit_sized fb frame _ Hsz) as (b & w' & -> & Hw' & _).
    set (fb1 := writer.mkBuffer _ _ _ _).
    destruct (IH fb1 (written + 1) Hw') as (n & fb' & -> & Hdel).
    eexists _, _. split; [done|]. intros j. rewrite Hdel. subst fb1. simpl.
    destruct (decide (j = writer.next_frame_number fb)) as [->|Hne].
    + rewrite lookup_delete_eq. repeat destruct (decide _); try done; lia.
    + rewrite lookup_delete_ne by done. repeat destruct (decide _); try done; lia.
Qed.


End EmptyBuffer.

Lemma encoder_frames_have_frame_size_witness :
  writer.sized
    (writer.run (H := ref.opencv)
       (writer.VideoWriter_init "output_ab12cd34.mp4" "mp4v" 30%float None)
       examples.reopening_calls).
Proof.
  apply (encoder_frames_have_frame_size (H := ref.opencv) (Hresize := ref.opencv_resize)
           "output_ab12cd34.mp4" "mp4v" 30%float None examples.reopening_calls).
Defined.

(** The run of the witness: the size is taken from the first frame (1x1),
    the 2x1 frames are resized to it, and after [close] the encoder holds
    the last frame alone while [frame_count] is 3. *)
Example reopening_run :
  let w := writer.run (H := ref.opencv) examples.unsized_writer examples.reopening_calls in
  writer.frame_size w = Some (1, 1) /\
  writer.encoded w = [mkFrame 1 1 [20; 21; 22]] /\
  writer.frame_count w = 3 /\
  writer.successes (H := ref.opencv) examples.unsized_writer examples.reopening_calls = 3.
Proof. by vm_compute. Qed.

Lemma write_after_close_starts_over_witness :
  exists w', writer.write (H := ref.opencv) (writer.close examples.open_writer) examples.frame_b
             = (Return true, w') /\
    writer.encoded w' = [writer.fit_to (H := ref.opencv) (2, 1) examples.frame_b] /\
    writer.frame_count w' = writer.frame_count examples.open_writer + 1 /\
    writer.is_open w' = true.
Proof.
  apply (write_after_close_starts_over (H := ref.opencv)
           examples.open_writer examples.frame_b (2, 1));
    first [reflexivity | by eexists].
Defined.

Lemma late_frame_is_never_written_witness :
  exists fb1,
    writer.add_frame (H := ref.opencv) examples.buffer_after_first 0 examples.frame_a
      = (Return 0, fb1) /\
    writer.fb_writer fb1 = writer.fb_writer examples.buffer_after_first /\
    writer.handed fb1 = writer.handed examples.buffer_after_first /\
    let fb2 := snd (writer.session (H := ref.opencv) fb1 [(1, examples.frame_b)] 3) in
    (exists new, writer.handed fb2 = writer.handed examples.buffer_after_first ++ new /\
       Forall (fun e => 0 < fst e) new) /\
    1 <= writer.get_pending_count fb2.
Proof.
  apply (late_frame_is_never_written (H := ref.opencv)
           examples.buffer_after_first 0 examples.frame_a [(1, examples.frame_b)] 3);
    reflexivity.
Defined.




(** A frame for index 0 that arrives twice: the second copy stays. *)
Example repeated_frame_stays_buffered :
  let fb := snd (writer.session (H := ref.opencv) examples.fresh_buffer
                   [(0, examples.frame_b); (0, examples.frame_a); (1, examples.frame_a)] 2) in
  fst <$> writer.handed fb = [0; 1] /\ writer.get_pending_count fb = 1.
Proof. by vm_compute. Qed.

(* ===================================================================== *)
(** * Theorems: message streams *)
(* ===================================================================== *)

Section StreamFacts.
Context `{JSONLib}.

#[local] Abbreviation idle := (messages.mkSocket [] [] false).

#[local] Abbreviation prepend msgs r :=
  (match r with
   | Some (ys, ending, sock) => Some (msgs ++ ys, ending, sock)
   | None => None
   end).

(** ** The wire *)

(** What [send_message] appends depends on the message alone. *)
#[local] Abbreviation emitted m :=
  (match json_dumps m with
   | Return payload =>
       match messages.pack_I (messages.len payload) with
       | Return length => Return (length ++ payload)
       | Raise e => Raise e
       end
   | Raise e => Raise e
   end).

Lemma send_message_emitted (inc : list messages.segment) (out : list Byte.byte) (m : json) :
  messages.send_message (messages.mkSocket inc out false) m =
    match emitted m with
    | Return frame => (Return tt, messages.mkSocket inc (out ++ frame) false)
    | Raise e => (Raise e, messages.mkSocket inc out false)
    end.
Proof.
  unfold messages.send_message, messages.sendall. simpl.
  destruct (json_dumps m) as [payload|e]; [|done].
  by destruct (messages.pack_I _) as [length|e].
Qed.

Lemma send_messages_shift (msgs : list json) :
  forall inc out,
    message_stream.send_messages (messages.mkSocket inc out false) msgs =
      (fst (message_stream.send_messages idle msgs),
       messages.mkSocket inc (out ++ message_stream.wire msgs) false).
Proof.
  unfold message_stream.wire.
  induction msgs as [|m msgs IH]; intros inc out; [by simpl; rewrite app_nil_r|].
  cbn [message_stream.send_messages].
  rewrite (send_message_emitted inc out m), (send_message_emitted [] [] m).
  destruct (emitted m) as [frame|e]; [|by simpl; rewrite app_nil_r].
  pose proof (IH inc (out ++ frame)) as E1. pose proof (IH [] ([] ++ frame)) as E2.
  rewrite E1, E2. simpl. by rewrite app_assoc.
Qed.

(** The frame of a transmissible message: at least four bytes, sent
    whole, and read back as the message whatever follows it. *)
Lemma wire_single (m : json) :
  message_stream.transmissible m ->
  (4 <= length (message_stream.wire [m]))%nat /\
  messages.send_message idle m
    = (Return tt, messages.mkSocket [] (message_stream.wire [m]) false) /\
  forall segs tail, concat segs = message_stream.wire [m] ++ tail ->
    exists segs',
      messages.recv_message (messages.receiving segs) = (Return m, messages.receiving segs') /\
      concat segs' = tail.
Proof.
  intros (payload & Hd & Hu & Hl & Hn).
  destruct (send_message_wire idle m payload Hd) as (b3 & b2 & b1 & b0 & Hun & Hsend);
    [unfold messages.max_message in Hn; lia|done|].
  simpl in Hsend.
  assert (Hw : message_stream.wire [m] = [b3; b2; b1; b0] ++ payload).
  { unfold message_stream.wire. simpl. by rewrite Hsend. }
  rewrite Hw. split; [simpl; lia|]. split; [done|].
  intros segs tail Hcat. rewrite <- app_assoc in Hcat.
  destruct (recv_message_frame segs b3 b2 b1 b0 payload tail Hun Hn Hcat) as (segs' & Hrecv & Hrest).
  exists segs'. split; [|done]. rewrite Hrecv.
  unfold messages.decode_payload. by rewrite Hu, Hl.
Qed.

Lemma wire_cons (m : json) (msgs : list json) :
  message_stream.transmissible m ->
  message_stream.wire (m :: msgs) = message_stream.wire [m] ++ message_stream.wire msgs.
Proof.
  intros Hm. destruct (wire_single m Hm) as (_ & Hsend & _).
  unfold message_stream.wire at 1. simpl. rewrite Hsend.
  by rewrite send_messages_shift.
Qed.

Lemma wire_app (msgs more : list json) :
  Forall message_stream.transmissible msgs ->
  message_stream.wire (msgs ++ more) = message_stream.wire msgs ++ message_stream.wire more.
Proof.
  induction 1 as [|m msgs Hm Hms IH]; simpl; [done|].
  by rewrite wire_cons, IH, (wire_cons m msgs), <- app_assoc.
Qed.

Lemma wire_length (msgs : list json) :
  Forall message_stream.transmissible msgs ->
  (length msgs <= length (message_stream.wire msgs))%nat.
Proof.
  induction 1 as [|m msgs Hm Hms IH]; simpl; [lia|].
  rewrite wire_cons, length_app by done.
  destruct (wire_single m Hm) as (Hlen & _). lia.
Qed.

Lemma send_messages_succeeds (msgs : list json) :
  Forall message_stream.transmissible msgs ->
  forall inc out,
    message_stream.send_messages (messages.mkSocket inc out false) msgs =
      (Return tt, messages.mkSocket inc (out ++ message_stream.wire msgs) false).
Proof.
  intros Hall inc out. rewrite send_messages_shift. f_equal.
  induction Hall as [|m msgs Hm Hms IH]; simpl; [done|].
  destruct (wire_single m Hm) as (_ & -> & _). by rewrite send_messages_shift.
Qed.

Lemma bytes_receiving (segs : list (list Byte.byte)) :
  message_stream.bytes_on_the_way (messages.receiving segs) = length (concat segs).
Proof.
  unfold message_stream.bytes_on_the_way, messages.receiving. simpl.
  induction segs as [|d segs IH]; simpl; [done|]. rewrite length_app. lia.
Qed.

(** The peer's close, read as a message. *)
Lemma recv_message_closed (segs : list (list Byte.byte)) :
  concat segs = [] ->
  exists segs', messages.recv_message (messages.receiving segs)
                = (Return JNull, messages.receiving segs') /\ concat segs' = [].
Proof.
  intros Hcat. unfold messages.recv_message.
  destruct (recv_exact_data segs 4) as (segs1 & -> & Hrest).
  rewrite Hcat in *. simpl. exists segs1. split; [done|]. by rewrite Hrest.
Qed.

(** ** [message_stream] *)

Lemma message_stream_typed_loop_same (fuel : nat) :
  forall sock, message_stream.message_stream_typed_loop fuel sock
               = message_stream.message_stream_loop fuel sock.
Proof.
  induction fuel as [|fuel IH]; intros sock; simpl; [done|].
  destruct (messages.recv_message sock) as [[msg|e] sock']; [|done].
  destruct (negb (truthy msg)); [done|]. by rewrite IH.
Qed.

Lemma message_stream_prefix (msgs : list json) :
  Forall message_stream.transmissible msgs ->
  Forall (fun m => truthy m = true) msgs ->
  forall segs tail k, concat segs = message_stream.wire msgs ++ tail ->
    exists segs', concat segs' = tail /\
      message_stream.message_stream_loop (length msgs + k) (messages.receiving segs)
      = prepend msgs (message_stream.message_stream_loop k (messages.receiving segs')).
Proof.
  induction 1 as [|m msgs Hm Hms IH]; intros Htruthy segs tail k Hcat.
  - exists segs. split; [done|]. simpl.
    by destruct (message_stream.message_stream_loop k _) as [[[ys e] s]|].
  - apply Forall_cons in Htruthy as [Hmt Htruthy].
    rewrite wire_cons, <- app_assoc in Hcat by done.
    destruct (wire_single m Hm) as (_ & _ & Hrecv).
    destruct (Hrecv segs _ Hcat) as (segs1 & Hr & Hcat1).
    destruct (IH Htruthy segs1 tail k Hcat1) as (segs' & Htail & Hloop).
    exists segs'. split; [done|]. simpl. rewrite Hr, Hmt. simpl. rewrite Hloop.
    by destruct (message_stream.message_stream_loop k _) as [[[ys e] s]|].
Qed.

(** The fuel of a generator started on [wire msgs ++ tail]. *)
Lemma fuel_split (msgs : list json) (segs : list (list Byte.byte)) (tail : list Byte.byte) :
  Forall message_stream.transmissible msgs ->
  concat segs = message_stream.wire msgs ++ tail ->
  exists k, S (message_stream.bytes_on_the_way (messages.receiving segs))
            = (length msgs + S k)%nat /\ (length tail <= k)%nat.
Proof.
  intros Hall Hcat. rewrite bytes_receiving, Hcat, length_app.
  pose proof (wire_length msgs Hall).
  exists (length (message_stream.wire msgs) + length tail - length msgs)%nat. lia.
Qed.

(** X8: messages sent one after the other with [send_message] are
    yielded by [message_stream] (and by [message_stream_typed]) on the
    receiving side one by one, in order, however the bytes were cut on the
    way, and the generator ends when the sender closes: for messages that
    are truthy and that the codec carries. *)
Theorem message_stream_yields_what_was_sent
    (sender : messages.socket) (msgs : list json) (segs : list (list Byte.byte)) :
  Forall message_stream.transmissible msgs ->
  Forall (fun m => truthy m = true) msgs ->
  messages.broken sender = false ->
  concat segs = message_stream.wire msgs ->
  message_stream.send_messages sender msgs
    = (Return tt,
       messages.mkSocket (messages.incoming sender)
         (messages.outgoing sender ++ message_stream.wire msgs) false) /\
  exists sock',
    message_stream.message_stream (messages.receiving segs) = Some (msgs, Return tt, sock') /\
    message_stream.message_stream_typed (messages.receiving segs)
      = Some (msgs, Return tt, sock').
Proof.
  intros Hall Htruthy Hb Hcat. split.
  { destruct sender as [inc out bk]. simpl in *. subst bk. by apply send_messages_succeeds. }
  assert (exists sock', message_stream.message_stream (messages.receiving segs)
                        = Some (msgs, Return tt, sock')) as [sock' Hs].
  { unfold message_stream.message_stream.
    rewrite <- (app_nil_r (message_stream.wire msgs)) in Hcat.
    destruct (fuel_split msgs segs [] Hall Hcat) as (k & -> & _).
    destruct (message_stream_prefix msgs Hall Htruthy segs [] (S k) Hcat)
      as (segs' & Hnil & ->).
    destruct (recv_message_closed segs' Hnil) as (segs'' & Hr & _).
    cbn [message_stream.message_stream_loop]. rewrite Hr. simpl. rewrite app_nil_r. eauto. }
  exists sock'. split; [done|].
  unfold message_stream.message_stream_typed.
  by rewrite (message_stream_typed_loop_same _ (messages.receiving segs)).
Qed.

(** X9: a falsy message ([{}], [0], [false], [""], [[]] or [null]) ends
    [message_stream] as the peer's close does: the messages before it are
    yielded, the generator is exhausted, and whatever was sent after it
    stays unread on the socket. *)
Theorem falsy_message_ends_the_stream
    (msgs : list json) (m0 : json) (rest : list Byte.byte) (segs : list (list Byte.byte)) :
  Forall message_stream.transmissible msgs ->
  Forall (fun m => truthy m = true) msgs ->
  message_stream.transmissible m0 ->
  truthy m0 = false ->
  concat segs = message_stream.wire (msgs ++ [m0]) ++ rest ->
  exists segs',
    message_stream.message_stream (messages.receiving segs)
      = Some (msgs, Return tt, messages.receiving segs') /\
    concat segs' = rest.
Proof.
  intros Hall Htruthy Hm0 Hfalsy Hcat.
  rewrite wire_app, <- app_assoc in Hcat by done.
  unfold message_stream.message_stream.
  destruct (fuel_split msgs segs _ Hall Hcat) as (k & -> & _).
  destruct (message_stream_prefix msgs Hall Htruthy segs _ (S k) Hcat) as (segs1 & Hcat1 & ->).
  destruct (wire_single m0 Hm0) as (_ & _ & Hrecv).
  destruct (Hrecv segs1 rest Hcat1) as (segs' & Hr & Hrest).
  cbn [message_stream.message_stream_loop]. rewrite Hr, Hfalsy. simpl.
  rewrite app_nil_r. eauto.
Qed.

(** ** [message_stream_until] *)

(** A message with a string [type] is a non-empty dict. *)
Lemma typed_message (m : json) (t : string) :
  message_stream.type_of m = Some t ->
  truthy m = true /\ message_stream.get_type m = Return (Some (JStr t)).
Proof.
  unfold message_stream.type_of, message_stream.get_type.
  destruct m as [| | | | | |d]; try discriminate.
  destruct d as [|kv d]; [discriminate|].
  destruct (dict_get (kv :: d) "type") as [[| | | |t'| |]|]; try discriminate.
  by intros [= ->].
Qed.

Lemma message_stream_until_prefix (stop_type : string) (msgs : list json) :
  Forall message_stream.transmissible msgs ->
  Forall (fun m => truthy m = true) msgs ->
  Forall (fun m => exists ty, message_stream.get_type m = Return ty /\
                     message_stream.type_is ty stop_type = false) msgs ->
  forall segs tail k, concat segs = message_stream.wire msgs ++ tail ->
    exists segs', concat segs' = tail /\
      message_stream.message_stream_until_loop (length msgs + k) (messages.receiving segs)
        stop_type
      = prepend msgs (message_stream.message_stream_until_loop k (messages.receiving segs')
                        stop_type).
Proof.
  induction 1 as [|m msgs Hm Hms IH]; intros Htruthy Htypes segs tail k Hcat.
  - exists segs. split; [done|]. simpl.
    by destruct (message_stream.message_stream_until_loop k _ _) as [[[ys e] s]|].
  - apply Forall_cons in Htruthy as [Hmt Htruthy].
    apply Forall_cons in Htypes as [(ty & Hty & Hne) Htypes].
    rewrite wire_cons, <- app_assoc in Hcat by done.
    destruct (wire_single m Hm) as (_ & _ & Hrecv).
    destruct (Hrecv segs _ Hcat) as (segs1 & Hr & Hcat1).
    destruct (IH Htruthy Htypes segs1 tail k Hcat1) as (segs' & Htail & Hloop).
    exists segs'. split; [done|]. simpl. rewrite Hr, Hmt. simpl. rewrite Hty, Hne, Hloop.
    by destruct (message_stream.message_stream_until_loop k _ _) as [[[ys e] s]|].
Qed.

(** X10: [message_stream_until] yields the messages up to and including
    the first one whose [type] is [stop_type], then ends; what the peer
    sent after that message stays unread on the socket. *)
Theorem message_stream_until_stops_after_stop_type
    (stop_type : string) (msgs : list json) (last : json) (rest : list Byte.byte)
    (segs : list (list Byte.byte)) :
  Forall message_stream.transmissible msgs ->
  Forall (fun m => truthy m = true) msgs ->
  Forall (fun m => exists ty, message_stream.get_type m = Return ty /\
                     message_stream.type_is ty stop_type = false) msgs ->
  message_stream.transmissible last ->
  message_stream.type_of last = Some stop_type ->
  concat segs = message_stream.wire (msgs ++ [last]) ++ rest ->
  exists segs',
    message_stream.message_stream_until (messages.receiving segs) stop_type
      = Some (msgs ++ [last], Return tt, messages.receiving segs') /\
    concat segs' = rest.
Proof.
  intros Hall Htruthy Htypes Hlast Hstop Hcat.
  rewrite wire_app, <- app_assoc in Hcat by done.
  unfold message_stream.message_stream_until.
  destruct (fuel_split msgs segs _ Hall Hcat) as (k & -> & _).
  destruct (message_stream_until_prefix stop_type msgs Hall Htruthy Htypes segs _ (S k) Hcat)
    as (segs1 & Hcat1 & ->).
  destruct (wire_single last Hlast) as (_ & _ & Hrecv).
  destruct (Hrecv segs1 rest Hcat1) as (segs' & Hr & Hrest).
  destruct (typed_message last stop_type Hstop) as [Ht Hg].
  cbn [message_stream.message_stream_until_loop]. rewrite Hr, Ht. cbn [negb].
  rewrite Hg. cbn [message_stream.type_is]. rewrite String.eqb_refl.
  exists segs'. split; [|done]. done.
Qed.

(** ** [MessageStream] *)

Lemma stream_iter_filtered (types : list string) (stop_on : option string)
    (msgs : list json) :
  types <> [] ->
  (forall s, message_stream.stop_type_of stop_on = Some s -> s ∉ types) ->
  Forall message_stream.transmissible msgs ->
  Forall (fun m => is_Some (message_stream.type_of m)) msgs ->
  forall segs tail k, concat segs = message_stream.wire msgs ++ tail ->
    exists segs', concat segs' = tail /\
      message_stream.__iter___loop (length msgs + k) (messages.receiving segs)
        (Some types) stop_on
      = prepend (filter (fun m => message_stream.selected types m = true) msgs)
          (message_stream.__iter___loop k (messages.receiving segs') (Some types) stop_on).
Proof.
  intros Hne Hstop. induction 1 as [|m msgs Hm Hms IH]; intros Htyped segs tail k Hcat.
  - exists segs. split; [done|]. simpl.
    by destruct (message_stream.__iter___loop k _ _ _) as [[[ys e] s]|].
  - apply Forall_cons in Htyped as [[t Ht] Htyped].
    rewrite wire_cons, <- app_assoc in Hcat by done.
    destruct (wire_single m Hm) as (_ & _ & Hrecv).
    destruct (Hrecv segs _ Hcat) as (segs1 & Hr & Hcat1).
    destruct (IH Htyped segs1 tail k Hcat1) as (segs' & Htail & Hloop).
    exists segs'. split; [done|].
    destruct (typed_message m t Ht) as [Hmt Hg].
    cbn [message_stream.__iter___loop Nat.add length]. rewrite Hr, Hmt. cbn [negb].
    rewrite Hg. cbn [message_stream.not_in_filter].
    destruct (decide (t ∈ types)) as [Hin|Hout].
    + rewrite (bool_decide_eq_true_2 _ Hin). cbn [negb].
      rewrite filter_cons_True
        by (unfold message_stream.selected; rewrite Ht; by apply bool_decide_eq_true_2).
      destruct (message_stream.stop_type_of stop_on) as [s|] eqn:Es.
      * assert (message_stream.type_is (Some (JStr t)) s = false) as ->.
        { cbn [message_stream.type_is]. apply String.eqb_neq. intros ->. by apply (Hstop s). }
        rewrite Hloop. unfold message_stream.yield.
        by destruct (message_stream.__iter___loop k _ _ _) as [[[ys e] s']|].
      * rewrite Hloop. unfold message_stream.yield.
        by destruct (message_stream.__iter___loop k _ _ _) as [[[ys e] s']|].
    + rewrite (bool_decide_eq_false_2 _ Hout). cbn [negb].
      rewrite filter_cons_False
        by (unfold message_stream.selected; rewrite Ht;
            by rewrite (bool_decide_eq_false_2 _ Hout)).
      done.
Qed.

(** X11: a [MessageStream] with a filter yields exactly the messages whose
    [type] is in [filter_types], in order, until the peer closes; a
    [stop_on] type that the filter leaves out never stops it, because a
    message skipped by the filter is not tested against [stop_on]. *)
Theorem filtered_stream_ignores_hidden_stop_type
    (types : list string) (stop_on : option string) (msgs : list json)
    (segs : list (list Byte.byte)) :
  types <> [] ->
  (forall s, message_stream.stop_type_of stop_on = Some s -> s ∉ types) ->
  Forall message_stream.transmissible msgs ->
  Forall (fun m => is_Some (message_stream.type_of m)) msgs ->
  concat segs = message_stream.wire msgs ->
  exists sock',
    message_stream.__iter__
      (message_stream.MessageStream_init (messages.receiving segs) (Some types) stop_on)
    = Some (filter (fun m => message_stream.selected types m = true) msgs, Return tt, sock').
Proof.
  intros Hne Hstop Hall Htyped Hcat.
  destruct types as [|ty types]; [done|].
  unfold message_stream.__iter__, message_stream.MessageStream_init.
  cbn [message_stream.ms_sock message_stream.ms_filter_types message_stream.ms_stop_on].
  rewrite <- (app_nil_r (message_stream.wire msgs)) in Hcat.
  destruct (fuel_split msgs segs [] Hall Hcat) as (k & -> & _).
  destruct (stream_iter_filtered (ty :: types) stop_on msgs Hne Hstop Hall Htyped
              segs [] (S k) Hcat) as (segs' & Hnil & ->).
  destruct (recv_message_closed segs' Hnil) as (segs'' & Hr & _).
  cbn [message_stream.__iter___loop]. rewrite Hr. simpl. rewrite app_nil_r. eauto.
Qed.

(** ** [MessageIterator] *)

Lemma iterate_stopped (fuel : nat) (sock : messages.socket) (stop_on : option string) :
  message_stream.iterate (S fuel) (message_stream.mkIterator sock stop_on true)
  = Some ([], Return tt, sock).
Proof. done. Qed.

Lemma iterator_follows_until (stop_type : string) (msgs : list json) :
  stop_type <> EmptyString ->
  Forall message_stream.transmissible msgs ->
  Forall (fun m => is_Some (message_stream.type_of m)) msgs ->
  forall segs k, concat segs = message_stream.wire msgs ->
    message_stream.iterate (length msgs + S (S k))
      (message_stream.mkIterator (messages.receiving segs) (Some stop_type) false)
    = message_stream.message_stream_until_loop (length msgs + S k)
        (messages.receiving segs) stop_type /\
    is_Some (message_stream.message_stream_until_loop (length msgs + S k)
               (messages.receiving segs) stop_type).
Proof.
  intros Hne. induction 1 as [|m msgs Hm Hms IH]; intros Htyped segs k Hcat.
  - destruct (recv_message_closed segs Hcat) as (segs' & Hr & _).
    cbn [length Nat.add message_stream.iterate message_stream.message_stream_until_loop
         message_stream.__next__ message_stream.it_stopped message_stream.it_sock
         message_stream.it_stop_on].
    rewrite Hr. simpl. eauto.
  - apply Forall_cons in Htyped as [[t Ht] Htyped].
    rewrite wire_cons in Hcat by done.
    destruct (wire_single m Hm) as (_ & _ & Hrecv).
    destruct (Hrecv segs _ Hcat) as (segs1 & Hr & Hcat1).
    destruct (IH Htyped segs1 k Hcat1) as [Hsame Hsome].
    destruct (typed_message m t Ht) as [Hmt Hg].
    assert (Hst : message_stream.stop_type_of (Some stop_type) = Some stop_type)
      by (by destruct stop_type).
    cbn [length Nat.add message_stream.iterate message_stream.message_stream_until_loop
         message_stream.__next__ message_stream.it_stopped message_stream.it_sock
         message_stream.it_stop_on].
    rewrite Hr, Hmt. cbn [negb]. rewrite Hst, Hg.
    destruct (message_stream.type_is (Some (JStr t)) stop_type) eqn:Eis.
    + replace (length msgs + S (S k))%nat with (S (length msgs + S k)) by lia.
      rewrite iterate_stopped. simpl. eauto.
    + rewrite Hsame. split; [done|].
      destruct Hsome as [[[ys e] s] ->]. simpl. eauto.
Qed.

(** X12: on a stream of messages that are objects with a string [type],
    [MessageIterator(sock, stop_on)] with a non-empty [stop_on] and
    [message_stream_until(sock, stop_on)] are interchangeable: iterated to
    their end they yield the same messages, end the same way and leave the
    same bytes unread. *)
Theorem message_iterator_agrees_with_until
    (stop_type : string) (msgs : list json) (segs : list (list Byte.byte)) :
  stop_type <> EmptyString ->
  Forall message_stream.transmissible msgs ->
  Forall (fun m => is_Some (message_stream.type_of m)) msgs ->
  concat segs = message_stream.wire msgs ->
  message_stream.iterate_all
    (message_stream.MessageIterator_init (messages.receiving segs) (Some stop_type))
  = message_stream.message_stream_until (messages.receiving segs) stop_type /\
  is_Some (message_stream.message_stream_until (messages.receiving segs) stop_type).
Proof.
  intros Hne Hall Htyped Hcat.
  unfold message_stream.iterate_all, message_stream.message_stream_until,
    message_stream.MessageIterator_init.
  cbn [message_stream.it_sock].
  pose proof Hcat as Hcat0. rewrite <- (app_nil_r (message_stream.wire msgs)) in Hcat0.
  destruct (fuel_split msgs segs [] Hall Hcat0) as (k & Hk & _).
  rewrite Hk. replace (S (length msgs + S k)) with (length msgs + S (S k))%nat by lia.
  by apply iterator_follows_until.
Qed.

End StreamFacts.

(** ** The loops never run out of passes *)

Section Fuel.
Context `{JSONLib}.

#[local] Abbreviation bytes_of inc :=
  (sum_list (map (fun seg => match seg with
                             | messages.Data d => length d
                             | messages.Reset => 0%nat
                             end) inc)).

Lemma recv_from_bytes (inc : list messages.segment) (k : nat) :
  forall chunk inc', messages.recv_from inc k = (Return chunk, inc') ->
    bytes_of inc = (length chunk + bytes_of inc')%nat.
Proof.
  induction inc as [|[d|] inc IH]; intros chunk inc' Hr; simpl in Hr.
  - by injection Hr as <- <-.
  - destruct d as [|x d]; [simpl; by apply IH|].
    injection Hr as <- <-.
    pose proof (take_drop k (x :: d)) as Htd.
    apply (f_equal length) in Htd. rewrite length_app in Htd.
    cbn [map sum_list sum_list_with]. 
    destruct (drop k (x :: d)) as [|y d'];
      cbn [map sum_list sum_list_with] in *; unfold id in *; simpl length in *; lia.
  - discriminate.
Qed.

Lemma recv_exact_loop_bytes (fuel : nat) :
  forall sock n data data' sock',
    messages._recv_exact_loop fuel sock n data = (Return data', sock') ->
    (message_stream.bytes_on_the_way sock + length data
     = message_stream.bytes_on_the_way sock' + length data')%nat.
Proof.
  induction fuel as [|fuel IH]; intros sock n data data' sock' Hr; simpl in Hr.
  - by injection Hr as <- <-.
  - destruct (messages.len data <? n); [|by injection Hr as <- <-].
    unfold messages.recv in Hr.
    destruct (messages.recv_from _ _) as [[chunk|e] inc'] eqn:E; [|discriminate].
    pose proof (recv_from_bytes _ _ _ _ E) as Hb.
    destruct chunk as [|c chunk].
    + injection Hr as <- <-. unfold message_stream.bytes_on_the_way. simpl in *. lia.
    + apply IH in Hr. rewrite length_app in Hr.
      unfold message_stream.bytes_on_the_way in *. simpl in *. lia.
Qed.

(** A truthy message is never read out of fewer than four bytes. *)
Lemma recv_message_bytes (sock sock' : messages.socket) (m : json) :
  messages.recv_message sock = (Return m, sock') ->
  truthy m = true ->
  (message_stream.bytes_on_the_way sock' + 4 <= message_stream.bytes_on_the_way sock)%nat.
Proof.
  unfold messages.recv_message, messages._recv_exact. intros Hr Ht.
  destruct (messages._recv_exact_loop _ sock 4 []) as [[lb|e] s1] eqn:E1; [|discriminate].
  apply recv_exact_loop_bytes in E1.
  destruct lb as [|b3 [|b2 [|b1 [|b0 [|x lb]]]]]; try discriminate.
  { injection Hr as <- <-. discriminate. }
  cbn [messages.unpack_I] in Hr.
  destruct (messages.max_message <? _); [discriminate|].
  destruct (messages._recv_exact_loop _ s1 _ []) as [[payload|e] s2] eqn:E2; [|discriminate].
  apply recv_exact_loop_bytes in E2.
  destruct (negb _); [discriminate|].
  destruct (messages.decode_payload payload); [|discriminate].
  injection Hr as <- <-. simpl in *. lia.
Qed.

Lemma message_stream_loop_total (fuel : nat) :
  forall sock, (message_stream.bytes_on_the_way sock < fuel)%nat ->
    is_Some (message_stream.message_stream_loop fuel sock).
Proof.
  induction fuel as [|fuel IH]; intros sock Hb; [lia|].
  cbn [message_stream.message_stream_loop].
  destruct (messages.recv_message sock) as [[m|e] sock'] eqn:E; [|eauto].
  destruct (truthy m) eqn:Et; [|simpl; eauto].
  pose proof (recv_message_bytes _ _ _ E Et).
  destruct (IH sock') as [[[ys e] s] ->]; [lia|]. simpl. eauto.
Qed.

Lemma message_stream_until_loop_total (stop_type : string) (fuel : nat) :
  forall sock, (message_stream.bytes_on_the_way sock < fuel)%nat ->
    is_Some (message_stream.message_stream_until_loop fuel sock stop_type).
Proof.
  induction fuel as [|fuel IH]; intros sock Hb; [lia|].
  cbn [message_stream.message_stream_until_loop].
  destruct (messages.recv_message sock) as [[m|e] sock'] eqn:E; [|eauto].
  destruct (truthy m) eqn:Et; [|simpl; eauto].
  pose proof (recv_message_bytes _ _ _ E Et). cbn [negb].
  destruct (message_stream.get_type m) as [ty|e]; [|eauto].
  destruct (message_stream.type_is ty stop_type); [eauto|].
  destruct (IH sock') as [[[ys e] s] ->]; [lia|]. simpl. eauto.
Qed.

Lemma stream_iter_loop_total (types : option (list string)) (stop_on : option string)
    (fuel : nat) :
  forall sock, (message_stream.bytes_on_the_way sock < fuel)%nat ->
    is_Some (message_stream.__iter___loop fuel sock types stop_on).
Proof.
  induction fuel as [|fuel IH]; intros sock Hb; [lia|].
  cbn [message_stream.__iter___loop].
  destruct (messages.recv_message sock) as [[m|e] sock'] eqn:E; [|eauto].
  destruct (truthy m) eqn:Et; [|simpl; eauto].
  pose proof (recv_message_bytes _ _ _ E Et). cbn [negb].
  assert (Hrest : is_Some (message_stream.__iter___loop fuel sock' types stop_on))
    by (apply IH; lia).
  match goal with |- is_Some (match ?sk with _ => _ end) => destruct sk as [[]|e] end;
    [done| |eauto].
  destruct (message_stream.stop_type_of stop_on) as [st|].
  - destruct (message_stream.get_type m) as [ty|e]; [|eauto].
    destruct (message_stream.type_is ty st); [eauto|].
    destruct Hrest as [[[ys e] s] ->]. simpl. eauto.
  - destruct Hrest as [[[ys e] s] ->]. simpl. eauto.
Qed.

Lemma iterate_total (fuel : nat) :
  forall it, (message_stream.bytes_on_the_way (message_stream.it_sock it) < fuel)%nat ->
    is_Some (message_stream.iterate fuel it).
Proof.
  induction fuel as [|fuel IH]; intros [sock stop_on stopped] Hb; [simpl in Hb; lia|].
  cbn [message_stream.it_sock] in Hb.
  destruct stopped; [rewrite iterate_stopped; eauto|].
  cbn [message_stream.iterate]. unfold message_stream.__next__.
  cbn [message_stream.it_stopped message_stream.it_sock message_stream.it_stop_on].
  destruct (messages.recv_message sock) as [[m|e] sock'] eqn:E; [|eauto].
  destruct (truthy m) eqn:Et; [|simpl; eauto].
  pose proof (recv_message_bytes _ _ _ E Et). cbn [negb].
  destruct (message_stream.stop_type_of stop_on) as [st|].
  - destruct (message_stream.get_type m) as [ty|e]; [|eauto].
    destruct (IH (message_stream.mkIterator sock' stop_on
                    (message_stream.type_is ty st))) as [[[ys e] s] ->]; [simpl; lia|].
    simpl. eauto.
  - destruct (IH (message_stream.mkIterator sock' stop_on false)) as [[[ys e] s] ->];
      [simpl; lia|].
    simpl. eauto.
Qed.

(** Every generator of the file, run on any socket, ends within the
    passes it is given. *)
Lemma generators_end (sock : messages.socket) (stop_type : string)
    (types : option (list string)) (stop_on : option string) :
  is_Some (message_stream.message_stream sock) /\
  is_Some (message_stream.message_stream_until sock stop_type) /\
  is_Some (message_stream.__iter__ (message_stream.mkStream sock types stop_on)) /\
  is_Some (message_stream.iterate_all (message_stream.MessageIterator_init sock stop_on)).
Proof.
  split_and!.
  - apply message_stream_loop_total. lia.
  - apply message_stream_until_loop_total. lia.
  - apply stream_iter_loop_total. simpl. lia.
  - apply iterate_total. simpl. lia.
Qed.

End Fuel.

(** ** The theorems at concrete streams, on the reference codec *)

Ltac carried :=
  eexists; split_and!; [vm_compute; reflexivity | by vm_compute | by vm_compute | by vm_compute].

Lemma message_stream_yields_what_was_sent_witness :
  message_stream.send_messages (H := ref.json_lib) examples.idle_socket
    examples.progress_then_result
    = (Return tt,
       messages.mkSocket (messages.incoming examples.idle_socket)
         (messages.outgoing examples.idle_socket
          ++ message_stream.wire (H := ref.json_lib) examples.progress_then_result) false) /\
  exists sock',
    message_stream.message_stream (H := ref.json_lib)
      (messages.receiving (examples.cut (examples.wire_of_all examples.progress_then_result)))
      = Some (examples.progress_then_result, Return tt, sock') /\
    message_stream.message_stream_typed (H := ref.json_lib)
      (messages.receiving (examples.cut (examples.wire_of_all examples.progress_then_result)))
      = Some (examples.progress_then_result, Return tt, sock').
Proof.
  apply (message_stream_yields_what_was_sent (H := ref.json_lib) examples.idle_socket
           examples.progress_then_result
           (examples.cut (examples.wire_of_all examples.progress_then_result)));
    [repeat (apply Forall_cons_2; [carried|]); apply Forall_nil_2
    | repeat (apply Forall_cons_2; [reflexivity|]); apply Forall_nil_2
    | reflexivity
    | by vm_compute].
Defined.

Lemma falsy_message_ends_the_stream_witness :
  exists segs',
    message_stream.message_stream (H := ref.json_lib)
      (messages.receiving
         [message_stream.wire (H := ref.json_lib) ([examples.progress_msg] ++ [JDict []])
          ++ examples.wire_of_all [examples.result_msg]])
      = Some ([examples.progress_msg], Return tt, messages.receiving segs') /\
    concat segs' = examples.wire_of_all [examples.result_msg].
Proof.
  apply (falsy_message_ends_the_stream (H := ref.json_lib) [examples.progress_msg] (JDict [])
           (examples.wire_of_all [examples.result_msg])
           [message_stream.wire (H := ref.json_lib) ([examples.progress_msg] ++ [JDict []])
            ++ examples.wire_of_all [examples.result_msg]]);
    [repeat (apply Forall_cons_2; [carried|]); apply Forall_nil_2
    | repeat (apply Forall_cons_2; [reflexivity|]); apply Forall_nil_2
    | carried
    | reflexivity
    | by vm_compute].
Defined.

Lemma message_stream_until_stops_after_stop_type_witness :
  exists segs',
    message_stream.message_stream_until (H := ref.json_lib)
      (messages.receiving
         [message_stream.wire (H := ref.json_lib) ([examples.progress_msg] ++ [examples.result_msg])
          ++ [Byte.x07; Byte.x08]])
      "result"
      = Some ([examples.progress_msg] ++ [examples.result_msg], Return tt,
              messages.receiving segs') /\
    concat segs' = [Byte.x07; Byte.x08].
Proof.
  apply (message_stream_until_stops_after_stop_type (H := ref.json_lib) "result"
           [examples.progress_msg] examples.result_msg [Byte.x07; Byte.x08]
           [message_stream.wire (H := ref.json_lib)
              ([examples.progress_msg] ++ [examples.result_msg]) ++ [Byte.x07; Byte.x08]]);
    [repeat (apply Forall_cons_2; [carried|]); apply Forall_nil_2
    | repeat (apply Forall_cons_2; [reflexivity|]); apply Forall_nil_2
    | repeat (apply Forall_cons_2; [by eexists|]); apply Forall_nil_2
    | carried
    | reflexivity
    | by vm_compute].
Defined.

Lemma filtered_stream_ignores_hidden_stop_type_witness :
  exists sock',
    message_stream.__iter__ (H := ref.json_lib)
      (message_stream.MessageStream_init
         (messages.receiving [examples.wire_of_all examples.progress_result_progress])
         (Some ["progress"]) (Some "result"))
    = Some (filter (fun m => message_stream.selected ["progress"] m = true)
              examples.progress_result_progress, Return tt, sock').
Proof.
  apply (filtered_stream_ignores_hidden_stop_type (H := ref.json_lib) ["progress"]
           (Some "result") examples.progress_result_progress
           [examples.wire_of_all examples.progress_result_progress]);
    [discriminate
    | intros s [= <-] Hin; apply list_elem_of_singleton in Hin; discriminate
    | repeat (apply Forall_cons_2; [carried|]); apply Forall_nil_2
    | repeat (apply Forall_cons_2; [by eexists|]); apply Forall_nil_2
    | by vm_compute].
Defined.

Lemma message_iterator_agrees_with_until_witness :
  message_stream.iterate_all (H := ref.json_lib)
    (message_stream.MessageIterator_init
       (messages.receiving [examples.wire_of_all examples.progress_result_progress])
       (Some "result"))
  = message_stream.message_stream_until (H := ref.json_lib)
      (messages.receiving [examples.wire_of_all examples.progress_result_progress]) "result" /\
  is_Some (message_stream.message_stream_until (H := ref.json_lib)
             (messages.receiving [examples.wire_of_all examples.progress_result_progress])
             "result").
Proof.
  apply (message_iterator_agrees_with_until (H := ref.json_lib) "result"
           examples.progress_result_progress
           [examples.wire_of_all examples.progress_result_progress]);
    [discriminate
    | repeat (apply Forall_cons_2; [carried|]); apply Forall_nil_2
    | repeat (apply Forall_cons_2; [by eexists|]); apply Forall_nil_2
    | by vm_compute].
Defined.

(** The streams of the witnesses, run: the filtered stream yields both
    progress messages and runs past the result; the iterator and the
    generator stop after the result.  On a message that is not an object
    they part: the generator has yielded it before the test of its type
    raises, the iterator raises without returning it. *)
Example streams_run :
  fst <$> message_stream.__iter__ (H := ref.json_lib)
            (message_stream.MessageStream_init
               (messages.receiving [examples.wire_of_all examples.progress_result_progress])
               (Some ["progress"]) (Some "result"))
    = Some ([examples.progress_msg; examples.progress_msg], Return tt) /\
  fst <$> message_stream.message_stream_until (H := ref.json_lib)
            (messages.receiving [examples.wire_of_all examples.progress_result_progress])
            "result"
    = Some ([examples.progress_msg; examples.result_msg], Return tt) /\
  fst <$> message_stream.message_stream_until (H := ref.json_lib)
            (messages.receiving [examples.wire_of_all [JList [JInt 1]]]) "result"
    = Some ([JList [JInt 1]], Raise AttributeError) /\
  fst <$> message_stream.iterate_all (H := ref.json_lib)
            (message_stream.MessageIterator_init
               (messages.receiving [examples.wire_of_all [JList [JInt 1]]]) (Some "result"))
    = Some ([], Raise AttributeError).
Proof. by vm_compute. Qed.

(* ===================================================================== *)
(** * Theorems: percentiles, rates and the lock of the metrics collector *)
(* ===================================================================== *)

(** ** [sorted] sorts *)

Lemma insert_sorted_ascending (x : Q) (l : list Q) :
  ascending l -> ascending (insert_sorted x l).
Proof.
  induction l as [|y l IH]; simpl; [done|]. intros [Hall Hs].
  destruct (Q_ltb y x) eqn:E.
  - apply Q_ltb_lt in E. simpl. split; [|by apply IH].
    rewrite insert_sorted_perm. constructor; [lra|done].
  - apply Q_ltb_ge in E. simpl. split; [|done].
    constructor; [done|]. eapply Forall_impl; [done|]. simpl. intros z Hz. lra.
Qed.

Lemma sorted_ascending (l : list Q) : ascending (sorted l).
Proof.
  induction l as [|x l IH]; simpl; [done|]. by apply insert_sorted_ascending.
Qed.

Lemma ascending_lookup (l : list Q) :
  ascending l ->
  forall i j a b, (i <= j)%nat -> l !! i = Some a -> l !! j = Some b -> (a <= b)%Q.
Proof.
  induction l as [|y l IH]; intros Hs i j a b Hij Ha Hb; [done|].
  destruct Hs as [Hall Hs].
  destruct i as [|i], j as [|j]; simpl in *; try lia.
  - injection Ha as <-. injection Hb as <-. lra.
  - injection Ha as <-. rewrite Forall_forall in Hall. apply Hall.
    by eapply list_elem_of_lookup_2.
  - eapply IH; [done| |done|done]. lia.
Qed.

Lemma py_index_lookup (l : list Q) (i : Z) (x : Q) :
  0 <= i -> py_index l i = Return x -> l !! Z.to_nat i = Some x.
Proof.
  intros Hi. unfold py_index.
  assert ((i <? 0) = false) as -> by lia.
  destruct (_ && _); [|done]. destruct (l !! Z.to_nat i); [by intros [= ->]|done].
Qed.

Lemma py_index_last_lookup (l : list Q) (x : Q) :
  py_index l (-1) = Return x -> l !! (length l - 1)%nat = Some x.
Proof.
  unfold py_index. simpl. destruct (_ && _) eqn:E; [|done].
  apply andb_prop in E as [E1 E2].
  replace (Z.to_nat (-1 + Z.of_nat (length l))) with (length l - 1)%nat by lia.
  destruct (l !! _); [by intros [= ->]|done].
Qed.

(** ** The value of a percentile over exact arithmetic *)

(** The position [k] of a percentile among [n] sorted values. *)
#[local] Abbreviation position n p := (inject_Z (n - 1) * p / inject_Z 100)%Q.

Lemma position_monotone (n : Z) (p q : Q) :
  1 <= n -> (0 <= p)%Q -> (p <= q)%Q -> (0 <= position n p <= position n q)%Q.
Proof.
  intros Hn Hp Hpq.
  assert (0 <= inject_Z (n - 1))%Q as Hc.
  { change 0%Q with (inject_Z 0). rewrite <- Zle_Qle. lia. }
  change (inject_Z 100) with 100%Q.
  set (c := inject_Z (n - 1)) in *.
  assert (0 <= c * p)%Q by (by apply Qmult_le_0_compat).
  assert (0 <= c * (q - p))%Q by (apply Qmult_le_0_compat; [done|lra]).
  split.
  - apply Qle_shift_div_l; [reflexivity|]. lra.
  - apply Qle_shift_div_r; [reflexivity|].
    rewrite (Qmult_comm _ 100), Qmult_div_r by discriminate. lra.
Qed.

Lemma percentile_shape (m : stats.MetricsCollector Q) (p : Q) :
  (0 <= p)%Q ->
  stats.latencies m <> [] ->
  let s := sorted (stats.latencies m) in
  let n := Z.of_nat (length s) in
  let k := position n p in
  let f := Q_trunc k in
  (n <= f + 1 /\
   exists x, stats.get_percentile m p = Return x /\ s !! (length s - 1)%nat = Some x) \/
  (f + 1 < n /\
   exists x0 x1, s !! Z.to_nat f = Some x0 /\ s !! Z.to_nat (f + 1) = Some x1 /\
     stats.get_percentile m p
     = Return (x0 * (inject_Z (f + 1) - k) + x1 * (k - inject_Z f))%Q).
Proof.
  intros Hp Hne. unfold stats.get_percentile.
  destruct (stats.latencies m) as [|a l] eqn:El; [done|].
  cbv beta iota zeta. cbn [int_of ndiv nmul nsub nadd of_int Q_Number rbind].
  set (s := sorted (a :: l)).
  assert (Hlen : length s = length (a :: l)) by apply sorted_length.
  assert (Hs : s <> []) by (intros E; rewrite E in Hlen; simpl in Hlen; lia).
  set (n := Z.of_nat (length s)).
  assert (1 <= n) by (unfold n; rewrite Hlen; simpl; lia).
  destruct (position_monotone n p p) as [Hk _]; [done|done|lra|].
  set (k := position n p) in *.
  destruct (Q_trunc_floor k Hk) as (Hf0 & Hf1 & Hf2).
  set (f := Q_trunc k) in *.
  destruct (n <=? f + 1) eqn:Ec.
  - apply Z.leb_le in Ec. left. split; [done|].
    destruct (py_index_last s Hs) as [x Hx]. exists x. split; [done|].
    by apply py_index_last_lookup.
  - apply Z.leb_gt in Ec. right. split; [done|].
    destruct (py_index_in_range s f) as [x0 Hx0]; [unfold n in *; lia|].
    destruct (py_index_in_range s (f + 1)) as [x1 Hx1]; [unfold n in *; lia|].
    rewrite Hx0, Hx1. cbn [rbind]. exists x0, x1.
    split; [by apply py_index_lookup|].
    split; [apply py_index_lookup; [lia|done]|]. done.
Qed.


(** ** The ends of the range *)

Lemma fold_min_elem (l : list Q) (x0 : Q) :
  fold_left (fun m y => if Q_ltb y m then y else m) l x0 ∈ x0 :: l.
Proof.
  revert x0. induction l as [|a l IH]; intros x0; simpl; [apply list_elem_of_here|].
  specialize (IH (if Q_ltb a x0 then a else x0)).
  apply elem_of_cons in IH as [->|IH].
  - destruct (Q_ltb a x0); [apply list_elem_of_further, list_elem_of_here|apply list_elem_of_here].
  - by do 2 apply list_elem_of_further.
Qed.

Lemma fold_max_elem (l : list Q) (x0 : Q) :
  fold_left (fun m y => if Q_ltb m y then y else m) l x0 ∈ x0 :: l.
Proof.
  revert x0. induction l as [|a l IH]; intros x0; simpl; [apply list_elem_of_here|].
  specialize (IH (if Q_ltb x0 a then a else x0)).
  apply elem_of_cons in IH as [->|IH].
  - destruct (Q_ltb x0 a); [apply list_elem_of_further, list_elem_of_here|apply list_elem_of_here].
  - by do 2 apply list_elem_of_further.
Qed.

Lemma sorted_first_is_min (l : list Q) (x : Q) :
  sorted l !! 0%nat = Some x -> (x == py_min (inject_Z 0) l)%Q.
Proof.
  intros Hx.
  assert (Hin : x ∈ l) by (rewrite <- (sorted_perm l); by eapply list_elem_of_lookup_2).
  destruct l as [|a l]; [inversion Hin|].
  apply Qle_antisym; [|by apply py_min_le].
  assert (py_min (inject_Z 0) (a :: l) ∈ sorted (a :: l)) as Hm.
  { rewrite (sorted_perm (a :: l)). simpl. apply fold_min_elem. }
  apply list_elem_of_lookup in Hm as [j Hj].
  eapply (ascending_lookup _ (sorted_ascending (a :: l))); [|done|done]. lia.
Qed.

Lemma sorted_last_is_max (l : list Q) (x : Q) :
  sorted l !! (length (sorted l) - 1)%nat = Some x -> (x == py_max (inject_Z 0) l)%Q.
Proof.
  intros Hx.
  assert (Hin : x ∈ l) by (rewrite <- (sorted_perm l); by eapply list_elem_of_lookup_2).
  destruct l as [|a l]; [inversion Hin|].
  apply Qle_antisym; [by apply py_max_ge|].
  assert (py_max (inject_Z 0) (a :: l) ∈ sorted (a :: l)) as Hm.
  { rewrite (sorted_perm (a :: l)). simpl. apply fold_max_elem. }
  apply list_elem_of_lookup in Hm as [j Hj].
  eapply (ascending_lookup _ (sorted_ascending (a :: l))); [|done|done].
  apply lookup_lt_Some in Hj. lia.
Qed.


(** ** Per-worker and per-filter counters *)

Section Counters.
Context {T : Type} `{Number T}.

Lemma fold_sum_insert {V} (g : V -> Z) (mp : gmap string V) (i : string) (v : V) :
  map_fold (fun _ x acc => g x + acc) 0 (<[i := v]> mp)
  = map_fold (fun _ x acc => g x + acc) 0 mp
    - match mp !! i with Some x => g x | None => 0 end + g v.
Proof.
  destruct (mp !! i) as [x|] eqn:E.
  - rewrite <- (insert_delete_eq mp i v).
    rewrite map_fold_insert_L; [|intros; lia|by rewrite lookup_delete_eq].
    rewrite (map_fold_delete_L _ _ i x mp); [lia|intros; lia|done].
  - rewrite map_fold_insert_L; [lia|intros; lia|done].
Qed.

Lemma size_le_fold_sum {V} (g : V -> Z) (mp : gmap string V) :
  (forall i x, mp !! i = Some x -> 1 <= g x) ->
  Z.of_nat (size mp) <= map_fold (fun _ x acc => g x + acc) 0 mp.
Proof.
  induction mp as [|i x mp Hi IH] using map_ind; intros Hpos.
  - by rewrite map_size_empty, map_fold_empty.
  - rewrite map_size_insert_None by done. rewrite fold_sum_insert, Hi.
    assert (1 <= g x) by (apply (Hpos i); by rewrite lookup_insert_eq).
    assert (Z.of_nat (size mp) <= map_fold (fun _ x acc => g x + acc) 0 mp).
    { apply IH. intros j y Hj. apply (Hpos j). rewrite lookup_insert_ne; [done|].
      intros ->. congruence. }
    lia.
Qed.

#[local] Abbreviation counted m :=
  (stats.frames_by_worker m <= stats.frames_processed m /\
   (forall w e, stats.worker_stats m !! w = Some e -> 1 <= stats.w_frames_processed e) /\
   stats.frames_by_filter m <= stats.frames_processed m /\
   (forall f n, stats.filters_count m !! f = Some n -> 1 <= n)).

Lemma step_counted (m : stats.MetricsCollector T) (c : stats.call T) :
  counted m -> counted (stats.step m c).
Proof.
  intros (Hw & Hwp & Hf & Hfp).
  destruct c as [i t w f mem failed| |total|now]; simpl.
  - unfold stats.frames_by_worker, stats.frames_by_filter, stats.record_frame in *. simpl.
    split_and!.
    + destruct (stats.truthy_str w) as [wid|]; [|lia].
      rewrite fold_sum_insert. simpl.
      destruct (stats.worker_stats m !! wid) as [e|] eqn:E; simpl; lia.
    + destruct (stats.truthy_str w) as [wid|]; [|done].
      intros w' e Hl. apply lookup_insert_Some in Hl as [[<- <-]|[_ Hl]]; [|by eapply Hwp].
      simpl. destruct (stats.worker_stats m !! wid) as [e|] eqn:E; simpl; [|lia].
      specialize (Hwp _ _ E). lia.
    + destruct (stats.truthy_str f) as [fid|]; [|lia].
      rewrite (fold_sum_insert (fun n => n)).
      destruct (stats.filters_count m !! fid) as [n|] eqn:E; simpl; lia.
    + destruct (stats.truthy_str f) as [fid|]; [|done].
      intros f' n Hl. apply lookup_insert_Some in Hl as [[<- <-]|[_ Hl]]; [|by eapply Hfp].
      destruct (stats.filters_count m !! fid) as [n|] eqn:E; simpl; [|lia].
      specialize (Hfp _ _ E). lia.
  - done.
  - done.
  - unfold stats.frames_by_worker, stats.frames_by_filter. simpl.
    rewrite !map_fold_empty. split_and!; [lia|by intros ?? ?%lookup_empty_Some|lia|by intros ?? ?%lookup_empty_Some].
Qed.

(** X15: whatever calls a collector has received since its construction,
    the frames counted per worker add up to at most [frames_processed],
    every worker that is counted has at least one frame, so
    [worker_count] is at most [frames_processed]; and the same holds of
    the counts per filter. *)
Theorem worker_counts_within_frames_processed (now : T) (calls : list (stats.call T)) :
  let m := stats.run (stats.init now) calls in
  Z.of_nat (size (stats.worker_stats m)) <= stats.frames_by_worker m /\
  stats.frames_by_worker m <= stats.frames_processed m /\
  Z.of_nat (size (stats.filters_count m)) <= stats.frames_by_filter m /\
  stats.frames_by_filter m <= stats.frames_processed m.
Proof.
  assert (Hinv : counted (stats.run (stats.init now) calls)).
  { unfold stats.run.
    assert (Hinit : counted (stats.init now)).
    { unfold stats.frames_by_worker, stats.frames_by_filter. simpl.
      rewrite !map_fold_empty.
      split_and!; [lia|by intros ?? ?%lookup_empty_Some|lia|by intros ?? ?%lookup_empty_Some]. }
    revert Hinit. generalize (stats.init now).
    induction calls as [|c calls IH]; intros m Hm; [done|].
    simpl. apply IH. by apply step_counted. }
  destruct Hinv as (Hw & Hwp & Hf & Hfp). simpl. split_and!; [|done| |done].
  - by apply (size_le_fold_sum stats.w_frames_processed).
  - by apply (size_le_fold_sum (fun n => n)).
Qed.

(** ** The lock *)

(** X16: [get_progress] never returns.  It builds its dictionary inside
    [with self.lock:] and the third value of the dictionary is a call of
    [get_fps_processing], which waits for the same lock: the calling
    thread waits for itself, on every collector, although each of the
    three methods it would call returns when called on its own. *)
Theorem get_progress_never_returns (m : stats.MetricsCollector T) (now now' : T) :
  stats.get_progress false m now now' = stats.Blocked /\
  stats.locked_get_fps_processing false m now
    = stats.Done (Return (stats.get_fps_processing m now)) /\
  stats.locked_get_eta_seconds false m now' = stats.Done (stats.get_eta_seconds m now') /\
  stats.locked_get_percentile false m (of_int 95)
    = stats.Done (stats.get_percentile m (of_int 95)).
Proof. done. Qed.

(** X17: [get_eta_seconds] divides by the elapsed time without the test
    that [get_fps_processing] makes: asked at the very time the collector
    was created (elapsed time zero), with frames processed and a total
    set, it raises [ZeroDivisionError], where [get_fps_processing]
    returns 0. *)
Theorem get_eta_seconds_at_zero_elapsed (m : stats.MetricsCollector T) (now : T) :
  stats.frames_processed m <> 0 ->
  stats.frames_total m <> 0 ->
  neqb (nsub now (stats.start_time m)) (of_int 0) = true ->
  stats.get_eta_seconds m now = Raise ZeroDivisionError /\
  stats.get_fps_processing m now = of_int 0.
Proof.
  intros Hp Ht He. unfold stats.get_eta_seconds, stats.get_fps_processing, stats.py_div.
  rewrite He.
  assert ((stats.frames_processed m =? 0) || (stats.frames_total m =? 0) = false) as ->
    by (apply orb_false_intro; lia).
  done.
Qed.

End Counters.


(** ** The theorems at concrete collectors *)



Lemma get_eta_seconds_at_zero_elapsed_witness :
  stats.get_eta_seconds examples.one_of_four_float 5%float = Raise ZeroDivisionError /\
  stats.get_fps_processing examples.one_of_four_float 5%float = of_int 0.
Proof.
  apply (get_eta_seconds_at_zero_elapsed examples.one_of_four_float 5%float);
    by vm_compute.
Defined.


(** The collectors of the witnesses, run: after two seconds, one frame of
    four gives a rate of half a frame a second and six seconds to go; the
    latencies 30, 10, 20 have percentiles 10, 20 and 30 at 0, 50 and 100;
    one worker and one filter are counted. *)
Example metrics_run :
  stats.get_eta_seconds examples.one_of_four (inject_Z 2) = Return (inject_Z 6) /\
  stats.get_fps_processing examples.one_of_four (inject_Z 2) = (1 # 2)%Q /\
  (exists r, stats.get_percentile examples.three_latencies (inject_Z 0) = Return r
             /\ (r == inject_Z 10)%Q) /\
  (exists r, stats.get_percentile examples.three_latencies (inject_Z 50) = Return r
             /\ (r == inject_Z 20)%Q) /\
  (exists r, stats.get_percentile examples.three_latencies (inject_Z 100) = Return r
             /\ (r == inject_Z 30)%Q) /\
  stats.frames_by_worker examples.one_of_four = 1 /\
  stats.frames_by_filter examples.one_of_four = 1.
Proof.
  split_and!; try (eexists; split; [by vm_compute|by vm_compute]); by vm_compute.
Qed.

(* ===================================================================== *)
(** * Theorems: the handler's monad *)
(* ===================================================================== *)

Lemma bind_returns {A B} (m : server.M A) (k : A -> server.M B)
    (s s' : server.state) (b : B) :
  server.bind m k s = (Return b, s') ->
  exists a s1, m s = (Return a, s1) /\ k a s1 = (Return b, s').
Proof.
  unfold server.bind. destruct (m s) as [[a|e] s1]; [eauto|done].
Qed.

(* ===================================================================== *)
(** * Theorems: raw bytes, the worker's branches, dispatch *)
(* ===================================================================== *)

(** ** [send_bytes] and [recv_bytes] *)

(** X19: bytes sent with [send_bytes] are returned by
    [recv_bytes(len(data))] on the other side, however they were cut on
    the way, and what was sent after them stays on the socket. *)
Theorem send_bytes_recv_bytes_roundtrip
    (sender : messages.socket) (data tail : list Byte.byte) (segs : list (list Byte.byte)) :
  messages.broken sender = false ->
  concat segs = data ++ tail ->
  messages.send_bytes sender data
    = (Return tt,
       messages.mkSocket (messages.incoming sender) (messages.outgoing sender ++ data) false) /\
  exists segs',
    messages.recv_bytes (messages.receiving segs) (messages.len data)
      = (Return data, messages.receiving segs') /\
    concat segs' = tail.
Proof.
  intros Hb Hcat. split.
  { unfold messages.send_bytes, messages.sendall. by rewrite Hb. }
  unfold messages.recv_bytes.
  destruct (recv_exact_data segs (messages.len data)) as (segs' & -> & Hrest).
  rewrite Hcat in *. unfold messages.len in *. rewrite Nat2Z.id in *.
  rewrite take_app_length, drop_app_length in *.
  rewrite Z.eqb_refl. simpl. eauto.
Qed.

(** X20: [recv_bytes] never returns fewer bytes than asked: when the peer
    closes before [size] bytes have arrived it raises [ProtocolError].
    A failure of the connection is not converted: [OSError] leaves
    [recv_bytes] as it is, where [send_bytes] raises [ProtocolError]. *)
Theorem recv_bytes_fails_on_short_stream (segs : list (list Byte.byte)) (size : Z) :
  messages.len (concat segs) < size ->
  fst (messages.recv_bytes (messages.receiving segs) size)
    = Raise (ProtocolError "No se recibieron todos los bytes") /\
  (forall more out,
     fst (messages.recv_bytes (messages.mkSocket (messages.Reset :: more) out false) size)
     = Raise OSError) /\
  (forall sock data, messages.broken sock = true ->
     fst (messages.send_bytes sock data) = Raise (ProtocolError "Error enviando bytes")).
Proof.
  intros Hshort. split; [|split].
  - unfold messages.recv_bytes.
    destruct (recv_exact_data segs size) as (segs' & -> & _).
    unfold messages.len in *. rewrite take_ge by lia.
    assert ((Z.of_nat (length (concat segs)) =? size) = false) as -> by lia. done.
  - intros more out. unfold messages.recv_bytes, messages._recv_exact.
    assert (0 < size) by (unfold messages.len in *; lia).
    destruct (Z.to_nat size) as [|fuel] eqn:E; [lia|].
    cbn [messages._recv_exact_loop].
    assert ((messages.len (@nil Byte.byte) <? size) = true) as ->
      by (apply Z.ltb_lt; unfold messages.len; simpl length; lia).
    done.
  - intros sock data Hb. unfold messages.send_bytes, messages.sendall. by rewrite Hb.
Qed.

(** ** The worker *)

Lemma dict_get_removed (d : list (string * json)) (key : string) (v : json) :
  dict_get (worker.dict_remove d key ++ [(key, v)]) key = Some v.
Proof.
  induction d as [|[k x] d IH]; simpl; [by rewrite String.eqb_refl|].
  destruct (String.eqb k key) eqn:E; [done|]. simpl. by rewrite E.
Qed.

Section WorkerBranches.
Context `{OpenCV} `{Filters} `{PyFormat}.

Lemma session_of_dispatched (metadata : list (string * json)) (session_id : string) :
  worker.session_of (worker.dict_remove metadata "session_id"
                     ++ [("session_id", JStr session_id)]) = session_id.
Proof.
  unfold worker.session_of, worker.dict_get_default. by rewrite dict_get_removed.
Qed.

(** X21: a [processing_type] that is none of [blur], [edges], [faces],
    [motion] and [custom] is not an error: with no filter called, the
    task succeeds, saves the decoded frame unchanged and records
    [filter_applied = "none"] in the sidecar. *)
Theorem unknown_processing_type_saves_frame_unchanged
    (req : worker.Request) (fs : gmap string file) (frame_data : list Byte.byte)
    (frame : Frame) (frame_number : Z) (processing_type : string)
    (metadata : list (string * json)) :
  processing_type ∉ ["blur"; "edges"; "faces"; "motion"; "custom"] ->
  cv_imdecode frame_data = Some frame ->
  cv_imwrite_ok (frame_png (frames_dir_of (worker.session_of metadata)) frame_number) frame
    = true ->
  exists r fs' stats,
    worker.process_frame req fs frame_data frame_number processing_type metadata
      = (Return r, fs') /\
    fs' !! frame_png (frames_dir_of (worker.session_of metadata)) frame_number
      = Some (FFrame frame) /\
    fs' !! frame_json (frames_dir_of (worker.session_of metadata)) frame_number
      = Some (FJsonDoc (JDict stats)) /\
    dict_get stats "filter_applied" = Some (JStr "none").
Proof.
  intros Hnot Hd Hw.
  assert (Hp : worker.apply_processing frame processing_type metadata
               = Return (frame, "none")).
  { unfold worker.apply_processing.
    repeat match goal with
    | |- context [String.eqb processing_type ?s] =>
        destruct (String.eqb_spec processing_type s) as [->|_];
        [exfalso; apply Hnot; set_solver|]
    end. done. }
  unfold worker.process_frame, worker.process_frame_try. rewrite Hd, Hp, Hw.
  eexists _, _, _. split; [done|]. split; [|split].
  - rewrite lookup_insert_ne by (intros E; symmetry in E; by apply frame_png_json_ne in E).
    by rewrite lookup_insert_eq.
  - by rewrite lookup_insert_eq.
  - done.
Qed.

(** The name a custom pipeline gives to its steps. *)
#[local] Abbreviation step_names types :=
  ("custom_" +:+ String.concat "" (map (fun t => t +:+ "_") types)).

Lemma string_app_assoc (a b c : string) : (a +:+ b) +:+ c = a +:+ (b +:+ c).
Proof.
  induction a as [|x a IH]; [done|].
  change (String x ((a +:+ b) +:+ c) = String x (a +:+ (b +:+ c))). by rewrite IH.
Qed.

Lemma string_app_empty_r (a : string) : a +:+ "" = a.
Proof.
  induction a as [|x a IH]; [done|].
  change (String x (a +:+ "") = String x a). by rewrite IH.
Qed.

Lemma concat_cons (x : string) (xs : list string) :
  String.concat "" (x :: xs) = x +:+ String.concat "" xs.
Proof. destruct xs as [|y xs]; [by rewrite string_app_empty_r|done]. Qed.

Lemma custom_pipeline_skips (frame : Frame) (types : list string) :
  Forall (fun t => t ∉ ["blur"; "edges"; "faces"]) types ->
  forall (params : list json) name,
    length params = length types ->
    worker.custom_pipeline frame name
      (zip_with (fun t p => JList [JStr t; p]) types params)
    = Return (frame, name +:+ String.concat "" (map (fun t => t +:+ "_") types)).
Proof.
  induction 1 as [|t types Ht Hts IH]; intros params name Hlen.
  - simpl. by rewrite string_app_empty_r.
  - destruct params as [|p params]; [done|]. injection Hlen as Hlen.
    cbn [zip_with worker.custom_pipeline worker.custom_step].
    assert (Hskip : forall A (a b c d : A),
              match t with
              | "blur" => a | "edges" => b | "faces" => c | _ => d
              end = d).
    { intros A a b c d.
      destruct (String.eqb_spec t "blur") as [->|N1]; [exfalso; apply Ht; set_solver|].
      destruct (String.eqb_spec t "edges") as [->|N2]; [exfalso; apply Ht; set_solver|].
      destruct (String.eqb_spec t "faces") as [->|N3]; [exfalso; apply Ht; set_solver|].
      clear -N1 N2 N3.
      repeat (match goal with
              | |- match ?s with EmptyString => _ | String _ _ => _ end = _ =>
                  destruct s as [|[[] [] [] [] [] [] [] []] ?]; try done
              end). }
    rewrite Hskip. cbn [rbind fst snd]. rewrite (IH params _ Hlen).
    f_equal. f_equal. cbn [map]. by rewrite concat_cons, !string_app_assoc.
Qed.

(** X22: a [custom] pipeline applies the steps [blur], [edges] and
    [faces] only.  Steps of any other type (for instance [motion]) are
    passed over without an error, yet they are named in
    [filter_applied]: a pipeline made of such steps alone saves the frame
    unchanged under the name [custom_] followed by each type and [_]. *)
Theorem custom_pipeline_names_steps_it_skips
    (frame : Frame) (types : list string) (params : list json)
    (metadata : list (string * json)) :
  Forall (fun t => t ∉ ["blur"; "edges"; "faces"]) types ->
  length params = length types ->
  dict_get metadata "filters"
    = Some (JList (zip_with (fun t p => JList [JStr t; p]) types params)) ->
  worker.apply_processing frame "custom" metadata = Return (frame, step_names types).
Proof.
  intros Hts Hlen Hf. unfold worker.apply_processing, worker.dict_get_default.
  cbn [String.eqb Ascii.eqb Bool.eqb andb]. rewrite Hf. simpl.
  by apply custom_pipeline_skips.
Qed.

End WorkerBranches.

(** ** The worker's files as the server reads them *)

Section WorkerAndServer.
Context `{OpenCV} `{JSONLib} `{PyFormat} `{Filters}.

(** X23: the server finds what a worker wrote.  For a task carrying the
    metadata the server attaches when dispatching (its own
    [session_id]), a successful run of [process_frame] leaves the two
    files under the names [wait_for_frame] polls: it returns the worker's
    own result, and the results loop takes the processed frame from the
    volume, not a fallback. *)
Theorem server_reads_what_the_worker_wrote
    (W : server.World) (req : worker.Request) (fs fs' : gmap string file)
    (frame_data : list Byte.byte) (frame_number : Z) (processing_type : string)
    (metadata : list (string * json)) (r : json)
    (original_frames : gmap Z Frame) (video_props : VideoProps) :
  worker.process_frame_try req fs frame_data frame_number processing_type
    (worker.dict_remove metadata "session_id"
     ++ [("session_id", JStr (server.session_id W))]) = (Return r, fs') ->
  server.wait_for_frame W fs' frame_number = Return r /\
  exists processed stats,
    server.choose_frame fs' original_frames video_props frame_number (Return r)
      = Return (processed, stats, false) /\
    fs' !! frame_png (server.frames_dir W) frame_number = Some (FFrame processed) /\
    dict_get stats "hostname" = Some (JStr (worker.hostname req)).
Proof.
  unfold worker.process_frame_try. rewrite session_of_dispatched.
  fold (server.frames_dir W).
  destruct (cv_imdecode frame_data) as [frame|]; [|done].
  destruct (worker.apply_processing _ _ _) as [[processed name]|e]; [|done].
  destruct (cv_imwrite_ok _ _); [|done].
  intros [= <- <-].
  assert (Hpng : forall (m : gmap string file) doc,
            <[frame_json (server.frames_dir W) frame_number := doc]>
              (<[frame_png (server.frames_dir W) frame_number := FFrame processed]> m)
            !! frame_png (server.frames_dir W) frame_number = Some (FFrame processed)).
  { intros m doc.
    rewrite lookup_insert_ne by (intros E; symmetry in E; by apply frame_png_json_ne in E).
    by rewrite lookup_insert_eq. }
  split.
  - unfold server.wait_for_frame. by rewrite Hpng, lookup_insert_eq.
  - eexists processed, _. split_and!; [|apply Hpng|].
    + unfold server.choose_frame. cbn [worker.as_dict rbind worker.dict_get_default dict_get
        String.eqb Ascii.eqb Bool.eqb andb default].
      rewrite Hpng. unfold id. cbn [server.stats_dict rbind].
      by rewrite bool_decide_false by (by intros [? ?]).
    + done.
Qed.

End WorkerAndServer.

(** ** Dispatch *)

Section Dispatch.
Context `{OpenCV} `{JSONLib} `{PyFormat}.
Context (W : server.World).

Lemma dispatch_loop_numbers (processing_type : json) (metadata : list (string * json))
    (frames : list Frame) :
  (forall n, server.broker_fails W n = false) ->
  forall (frame_number : Z) (tasks : list Z) (original_frames : gmap Z Frame)
         (s : server.state),
  exists (new : list server.task) (originals : gmap Z Frame) (s' : server.state),
    server.dispatch_loop W frames frame_number tasks original_frames
      processing_type metadata s
      = (Return (tasks ++ (server.t_frame_number <$> new), originals), s') /\
    server.queue s' = server.queue s ++ new /\
    server.t_frame_number <$> new = seqZ frame_number (Z.of_nat (length new)) /\
    server.t_frame_data <$> new = omap cv_imencode frames /\
    (forall j, j < frame_number -> originals !! j = original_frames !! j) /\
    Forall (fun t =>
              (exists frame, originals !! server.t_frame_number t = Some frame /\
                             cv_imencode frame = Some (server.t_frame_data t)) /\
              server.t_processing_type t = processing_type /\
              worker.session_of (server.t_metadata t) = server.session_id W) new.
Proof.
  intros Hbroker. induction frames as [|frame rest IH];
    intros frame_number tasks original_frames s.
  { exists [], original_frames, s. simpl. rewrite app_nil_r.
    split_and!; try done. by rewrite app_nil_r. }
  cbn [server.dispatch_loop omap list_omap].
  destruct (cv_imencode frame) as [encoded|] eqn:Henc.
  - unfold server.bind at 1. unfold server.apply_async. rewrite Hbroker.
    set (t := server.mkTask _ _ _ _).
    destruct (IH (frame_number + 1) (tasks ++ [frame_number])
                (<[frame_number := frame]> original_frames)
                (server.with_queue (server.queue s ++ [t]) s))
      as (new & originals & s' & -> & Hq & Hnum & Hdata & Hold & Hall).
    exists (t :: new), originals, s'. split_and!.
    + by rewrite <- app_assoc.
    + rewrite Hq. simpl. by rewrite <- app_assoc.
    + cbn [fmap list_fmap length]. fold (fmap server.t_frame_number new).
      rewrite Hnum. rewrite (seqZ_cons frame_number) by lia.
      subst t. simpl. do 2 f_equal; lia.
    + cbn [fmap list_fmap]. fold (fmap server.t_frame_data new). by rewrite Hdata.
    + intros j Hj. rewrite Hold by lia. apply lookup_insert_ne. lia.
    + apply Forall_cons_2; [|done]. subst t. simpl. split_and!; [|done|].
      * exists frame. split; [|done]. rewrite Hold by lia. apply lookup_insert_eq.
      * apply session_of_dispatched.
  - unfold server.bind at 1. unfold server.print.
    destruct (IH frame_number tasks (<[frame_number := frame]> original_frames)
                (server.with_console (server.console s ++ ["Error codificando frame"]) s))
      as (new & originals & s' & -> & Hq & Hnum & Hdata & Hold & Hall).
    exists new, originals, s'. split_and!; try done.
    intros j Hj. rewrite Hold by lia. apply lookup_insert_ne. lia.
Qed.

(** X24: with a broker that accepts every task,
    [_extract_and_dispatch_frames_sync] queues one task for each frame
    that encodes, in the order of the video, numbered 0, 1, 2, ... without
    gaps: a frame that does not encode takes no number.  Each task
    carries the server's [session_id], and [original_frames] holds, under
    the task's number, the frame whose encoding the task carries. *)
Theorem dispatched_tasks_are_numbered_without_gaps
    (processing_type : json) (metadata : list (string * json)) (frames : list Frame)
    (s : server.state) :
  (forall n, server.broker_fails W n = false) ->
  exists (new : list server.task) (originals : gmap Z Frame) (s' : server.state),
    server.dispatch_loop W frames 0 [] ∅ processing_type metadata s
      = (Return (server.t_frame_number <$> new, originals), s') /\
    server.queue s' = server.queue s ++ new /\
    server.t_frame_number <$> new = seqZ 0 (Z.of_nat (length new)) /\
    server.t_frame_data <$> new = omap cv_imencode frames /\
    Forall (fun t =>
              (exists frame, originals !! server.t_frame_number t = Some frame /\
                             cv_imencode frame = Some (server.t_frame_data t)) /\
              server.t_processing_type t = processing_type /\
              worker.session_of (server.t_metadata t) = server.session_id W) new.
Proof.
  intros Hbroker.
  destruct (dispatch_loop_numbers processing_type metadata frames Hbroker 0 [] ∅ s)
    as (new & originals & s' & Hrun & Hq & Hnum & Hdata & _ & Hall).
  by exists new, originals, s'.
Qed.

End Dispatch.

(** ** The theorems at concrete inputs *)

Lemma send_bytes_recv_bytes_roundtrip_witness :
  messages.send_bytes examples.idle_socket examples.three_bytes
    = (Return tt,
       messages.mkSocket (messages.incoming examples.idle_socket)
         (messages.outgoing examples.idle_socket ++ examples.three_bytes) false) /\
  exists segs',
    messages.recv_bytes (messages.receiving examples.two_runs)
      (messages.len examples.three_bytes)
      = (Return examples.three_bytes, messages.receiving segs') /\
    concat segs' = [Byte.x04].
Proof.
  apply (send_bytes_recv_bytes_roundtrip examples.idle_socket examples.three_bytes
           [Byte.x04] examples.two_runs); reflexivity.
Defined.

Lemma recv_bytes_fails_on_short_stream_witness :
  fst (messages.recv_bytes (messages.receiving examples.two_runs) 5)
    = Raise (ProtocolError "No se recibieron todos los bytes") /\
  (forall more out,
     fst (messages.recv_bytes (messages.mkSocket (messages.Reset :: more) out false) 5)
     = Raise OSError) /\
  (forall sock data, messages.broken sock = true ->
     fst (messages.send_bytes sock data) = Raise (ProtocolError "Error enviando bytes")).
Proof.
  apply (recv_bytes_fails_on_short_stream examples.two_runs 5). vm_compute. reflexivity.
Defined.

Lemma unknown_processing_type_saves_frame_unchanged_witness :
  exists r fs' stats,
    worker.process_frame (H := ref.opencv) (H0 := ref.filters_failing) (H1 := ref.py_format)
      examples.first_run ∅ examples.frame_small_png 0 "sepia" examples.session_metadata
      = (Return r, fs') /\
    fs' !! frame_png (frames_dir_of (worker.session_of (H1 := ref.py_format) examples.session_metadata)) 0
      = Some (FFrame examples.frame_small) /\
    fs' !! frame_json (frames_dir_of (worker.session_of (H1 := ref.py_format) examples.session_metadata)) 0
      = Some (FJsonDoc (JDict stats)) /\
    dict_get stats "filter_applied" = Some (JStr "none").
Proof.
  apply (unknown_processing_type_saves_frame_unchanged (H := ref.opencv)
           (H0 := ref.filters_failing) (H1 := ref.py_format)
           examples.first_run ∅ examples.frame_small_png examples.frame_small 0 "sepia"
           examples.session_metadata);
    [apply (bool_decide_unpack _); by vm_compute | reflexivity | reflexivity].
Defined.

Lemma custom_pipeline_names_steps_it_skips_witness :
  worker.apply_processing (H0 := ref.filters_failing) (H1 := ref.py_format)
    examples.frame_small "custom" examples.unknown_steps
  = Return (examples.frame_small,
            "custom_" +:+ String.concat "" (map (fun t => t +:+ "_") ["motion"; "sepia"])).
Proof.
  apply (custom_pipeline_names_steps_it_skips (H0 := ref.filters_failing)
           (H1 := ref.py_format) examples.frame_small ["motion"; "sepia"]
           [JDict []; JDict []] examples.unknown_steps);
    [repeat (apply Forall_cons_2; [apply (bool_decide_unpack _); by vm_compute|]);
       apply Forall_nil_2
    | reflexivity | reflexivity].
Defined.

Lemma server_reads_what_the_worker_wrote_witness :
  server.wait_for_frame (H0 := ref.json_lib) (examples.world ref.filters_identity)
    (snd examples.blur_run) 0 = Return examples.blur_result /\
  exists processed stats,
    server.choose_frame (snd examples.blur_run) ∅
      (mkVideoProps 30%float 1 1 1) 0 (Return examples.blur_result)
      = Return (processed, stats, false) /\
    snd examples.blur_run
      !! frame_png (server.frames_dir (examples.world ref.filters_identity)) 0
      = Some (FFrame processed) /\
    dict_get stats "hostname" = Some (JStr (worker.hostname examples.first_run)).
Proof.
  apply (server_reads_what_the_worker_wrote (H := ref.opencv) (H0 := ref.json_lib)
           (H1 := ref.py_format) (H2 := ref.filters_identity)
           (examples.world ref.filters_identity) examples.first_run ∅
           (snd examples.blur_run) examples.frame_small_png 0 "blur"
           [("session_id", JStr "other")] examples.blur_result ∅
           (mkVideoProps 30%float 1 1 1)).
  reflexivity.
Defined.

Lemma dispatched_tasks_are_numbered_without_gaps_witness :
  exists (new : list server.task) (originals : gmap Z Frame) (s' : server.state),
    server.dispatch_loop (H := ref.opencv) (examples.world ref.filters_identity)
      examples.three_frames 0 [] ∅ (JStr "blur") [] (server.initial [])
      = (Return (server.t_frame_number <$> new, originals), s') /\
    server.queue s' = server.queue (server.initial []) ++ new /\
    server.t_frame_number <$> new = seqZ 0 (Z.of_nat (length new)) /\
    server.t_frame_data <$> new = omap (cv_imencode (OpenCV := ref.opencv))
                                    examples.three_frames /\
    Forall (fun t =>
              (exists frame, originals !! server.t_frame_number t = Some frame /\
                             cv_imencode (OpenCV := ref.opencv) frame
                             = Some (server.t_frame_data t)) /\
              server.t_processing_type t = JStr "blur" /\
              worker.session_of (H1 := ref.py_format) (server.t_metadata t)
              = server.session_id (examples.world ref.filters_identity)) new.
Proof.
  apply (dispatched_tasks_are_numbered_without_gaps (H := ref.opencv) (H1 := ref.py_format)
           (examples.world ref.filters_identity) (JStr "blur") [] examples.three_frames
           (server.initial [])).
  intros n. reflexivity.
Defined.

(** The run behind the last witness: the tall frame is stored under
    number 1 and then replaced by the frame that takes that number. *)
Example dispatch_run :
  exists s',
    server.dispatch_loop (H := ref.opencv) (examples.world ref.filters_identity)
      examples.three_frames 0 [] ∅ (JStr "blur") [] (server.initial [])
    = (Return ([0; 1], <[1 := examples.frame_b]> (<[0 := examples.frame_a]> ∅)), s') /\
    server.t_frame_number <$> server.queue s' = [0; 1] /\
    server.console s' = ["Error codificando frame"].
Proof.
  eexists. split; [|split].
  - cbn [server.dispatch_loop examples.three_frames].
    vm_compute. reflexivity.
  - reflexivity.
  - reflexivity.
Qed.

(* ===================================================================== *)
(** * Theorems: the conversation of a session *)
(* ===================================================================== *)

Lemma prefix_app (p x : string) : String.prefix p (p +:+ x) = true.
Proof.
  induction p as [|a p IH]; [by destruct x|].
  change (String a p +:+ x) with (String a (p +:+ x)). simpl.
  by destruct (ascii_dec a a).
Qed.

Section SessionFacts.
Context `{OpenCV} `{JSONLib} `{PyFormat}.
Variable W : server.World.

#[local] Abbreviation preserves := server.preserves.

Lemma session_key_namespace (field : string) :
  server.session_key W field = server.namespace W +:+ field.
Proof.
  unfold server.session_key, server.namespace. by rewrite !string_app_assoc.
Qed.

(** ** Invariants of the stream and the store *)

Section Keeps.
Variable P : server.state -> Prop.
Hypothesis P_rest : forall s s',
  server.sent s' = server.sent s -> server.redis s' = server.redis s -> P s -> P s'.
Hypothesis P_set : forall field value,
  preserves P (server.redis_set W (server.session_key W field) value).
Hypothesis P_expire : forall field seconds,
  preserves P (server.redis_expire W (server.session_key W field) seconds).

Lemma keeps_untouched {A} (m : server.M A) :
  (forall s, server.sent (snd (m s)) = server.sent s /\
             server.redis (snd (m s)) = server.redis s) ->
  preserves P m.
Proof. intros Hm s Hs. destruct (Hm s) as [E1 E2]. by apply (P_rest s). Qed.

Lemma keeps_time : preserves P (server.time_time W).
Proof. apply keeps_untouched. by intros []. Qed.

Lemma keeps_print line : preserves P (server.print line).
Proof. apply keeps_untouched. by intros []. Qed.

Lemma keeps_close : preserves P server.writer_close.
Proof. apply keeps_untouched. by intros []. Qed.

Lemma keeps_readexactly n : preserves P (server.reader_readexactly n).
Proof.
  apply keeps_untouched. intros []. unfold server.reader_readexactly. simpl.
  by destruct (server.readexactly _ _).
Qed.

Lemma keeps_apply_async t : preserves P (server.apply_async W t).
Proof.
  apply keeps_untouched. intros []. unfold server.apply_async. simpl.
  by destruct (server.broker_fails _ _).
Qed.

Lemma keeps_read_video_file path : preserves P (server._read_video_file path).
Proof.
  apply keeps_untouched. intros s. unfold server._read_video_file.
  by destruct (server.fs s !! path) as [[]|].
Qed.

Lemma keeps_state_read {A} (f : server.state -> A) :
  preserves P (fun s => (Return (f s), s)).
Proof. apply keeps_untouched. by intros []. Qed.

Lemma keeps_with_fs (f : server.state -> gmap string file) :
  preserves P (fun s => (Return tt, server.with_fs (f s) s)).
Proof. apply keeps_untouched. by intros []. Qed.

(** One step of a proof that a computation keeps [P]. *)
Ltac keeps_step :=
  match goal with
  | |- server.preserves _ (server.ret _) => apply preserves_ret
  | |- server.preserves _ (server.raise _) => apply preserves_raise
  | |- server.preserves _ (server.lift _) => apply preserves_lift
  | |- server.preserves _ (server.bind _ _) => apply preserves_bind; [|intros ?]
  | |- server.preserves _ (server.try_except _ _) => apply preserves_try_except; [|intros ?]
  | |- server.preserves _ (server.try_finally _ _) => apply preserves_try_finally
  | |- server.preserves _ (server.when _ _) => apply preserves_when
  | |- server.preserves _ (server.for_each _ _) => apply preserves_for_each; intros ? _
  | |- server.preserves _ (server.time_time _) => apply keeps_time
  | |- server.preserves _ (server.print _) => apply keeps_print
  | |- server.preserves _ server.writer_close => apply keeps_close
  | |- server.preserves _ (server.reader_readexactly _) => apply keeps_readexactly
  | |- server.preserves _ (server.apply_async _ _) => apply keeps_apply_async
  | |- server.preserves _ (server._read_video_file _) => apply keeps_read_video_file
  | |- server.preserves _ (server.redis_set _ _ _) => apply P_set
  | |- server.preserves _ (server.redis_expire _ _ _) => apply P_expire
  | |- server.preserves _ (fun s => (Return tt, server.with_fs _ s)) =>
      apply (keeps_with_fs _)
  | |- server.preserves _ (match ?x with _ => _ end) => destruct x
  end.

Ltac keeps := repeat keeps_step.

Lemma keeps_recv_message : preserves P (server._recv_message).
Proof. unfold server._recv_message. keeps. Qed.

Lemma keeps_receive_video : preserves P (server._receive_video W).
Proof.
  unfold server._receive_video. keeps.
  apply keeps_untouched. intros []. simpl. by destruct (server.read_to_eof _).
Qed.

Lemma keeps_dispatch_loop frames : forall n tasks originals processing metadata,
  preserves P (server.dispatch_loop W frames n tasks originals processing metadata).
Proof.
  induction frames as [|frame frames IH]; intros; simpl; keeps; apply IH.
Qed.

Lemma keeps_dispatch_tasks processing metadata metrics path :
  preserves P (server.dispatch_tasks W processing metadata metrics path).
Proof.
  unfold server.dispatch_tasks. keeps.
  - apply (keeps_state_read (fun s => server.fs s !! path)).
  - apply keeps_dispatch_loop.
Qed.

Lemma keeps_publish_metadata handshake props :
  preserves P (server.publish_metadata W handshake props).
Proof. unfold server.publish_metadata. keeps. Qed.

Lemma keeps_publish_completed : preserves P (server.publish_completed W).
Proof. unfold server.publish_completed. keeps. Qed.

Lemma keeps_get_celery_results tasks : preserves P (server.get_celery_results W tasks).
Proof. apply keeps_untouched. by intros []. Qed.

Lemma keeps_results_loop results : forall originals props fb metrics,
  preserves P (server.results_loop results originals props fb metrics).
Proof.
  induction results as [|[res n] results IH]; intros; simpl; keeps;
    try apply IH.
  apply (keeps_state_read server.fs).
Qed.

Lemma keeps_process_results results tasks originals props path codec metrics callback :
  preserves P
    (server.process_results W results tasks originals props path codec metrics callback).
Proof.
  unfold server.process_results, server._process_results_sync. keeps.
  apply keeps_results_loop.
Qed.

(** With the writes to the stream as well, the whole handler. *)
Section KeepsWrites.
Hypothesis P_write : forall x, preserves P (server.write_drain W x).

Lemma keeps_send_message (m : json) : preserves P (server._send_message W m).
Proof. unfold server._send_message. keeps. apply P_write. Qed.

Ltac keeps_call :=
  match goal with
  | |- server.preserves _ (server._send_message _ _) => apply keeps_send_message
  | |- server.preserves _ (server._send_error _ _ _) => apply keeps_send_message
  | |- server.preserves _ (server.write_drain _ _) => apply P_write
  | |- server.preserves _ server._recv_message => apply keeps_recv_message
  | |- server.preserves _ (server._receive_video _) => apply keeps_receive_video
  | |- server.preserves _ (server.dispatch_tasks _ _ _ _ _) => apply keeps_dispatch_tasks
  | |- server.preserves _ (server.publish_metadata _ _ _) => apply keeps_publish_metadata
  | |- server.preserves _ (server.get_celery_results _ _) =>
      apply keeps_get_celery_results
  | |- server.preserves _ (server.process_results _ _ _ _ _ _ _ _ _) =>
      apply keeps_process_results
  | |- server.preserves _ (server.publish_completed _) => apply keeps_publish_completed
  end.

Lemma keeps_handle_session handshake : preserves P (server.handle_session W handshake).
Proof.
  unfold server.handle_session, server.dict_item.
  repeat first [keeps_call | keeps_step].
Qed.

Lemma keeps_handle : preserves P (server.handle W).
Proof.
  unfold server.handle, server.handle_try, server.get_type.
  repeat first
    [ keeps_call
    | match goal with
      | |- server.preserves _ (server.handle_session _ _) => apply keeps_handle_session
      end
    | keeps_step ].
Qed.

End KeepsWrites.
End Keeps.

(** X26: a handler writes to the state store under its own session's
    prefix only: whatever the client sends and whatever fails, a key that
    does not start with [session:<session_id>:] holds after [handle] what
    it held before, with the same time to live. *)
Theorem handle_keeps_keys_of_other_sessions (s : server.state) (key : string) :
  String.prefix (server.namespace W) key = false ->
  server.redis (snd (server.handle W s)) !! key = server.redis s !! key.
Proof.
  intros Hkey.
  assert (Hne : forall field, server.session_key W field <> key).
  { intros field E. rewrite session_key_namespace in E. subst key.
    by rewrite prefix_app in Hkey. }
  apply (keeps_handle (fun s' => server.redis s' !! key = server.redis s !! key)); [| | | |done].
  - intros s1 s2 _ E. by rewrite E.
  - intros field value s1 Hs1. unfold server.redis_set.
    destruct (server.redis_fails W (server.redis_ops s1)); destruct s1; simpl in *; [done|].
    by rewrite lookup_insert_ne.
  - intros field seconds s1 Hs1. unfold server.redis_expire.
    destruct (server.redis_fails W (server.redis_ops s1)); destruct s1; simpl in *; [done|].
    by rewrite lookup_alter_ne.
  - intros x s1 Hs1. unfold server.write_drain.
    by destruct (server.write_fails W (server.writes s1)); destruct s1.
Qed.

(** ** What is written to the client, in order *)

(** Everything between the acknowledgement and the result is silent. *)
#[local] Abbreviation silent m :=
  (forall l, preserves (fun s => server.sent s = l) m).

Lemma silent_rest (l : list server.item) (s s' : server.state) :
  server.sent s' = server.sent s -> server.redis s' = server.redis s ->
  server.sent s = l -> server.sent s' = l.
Proof. congruence. Qed.

Lemma silent_set (l : list server.item) (field value : string) :
  preserves (fun s => server.sent s = l)
    (server.redis_set W (server.session_key W field) value).
Proof.
  intros s Hs. unfold server.redis_set.
  by destruct (server.redis_fails W (server.redis_ops s)); destruct s.
Qed.

Lemma silent_expire (l : list server.item) (field : string) (seconds : Z) :
  preserves (fun s => server.sent s = l)
    (server.redis_expire W (server.session_key W field) seconds).
Proof.
  intros s Hs. unfold server.redis_expire.
  by destruct (server.redis_fails W (server.redis_ops s)); destruct s.
Qed.

Ltac silence lemma :=
  let l := fresh "l" in
  intros l; apply lemma;
    first [apply silent_rest | apply silent_set | apply silent_expire].

Lemma silent_recv_message : silent server._recv_message.
Proof. silence keeps_recv_message. Qed.

Lemma silent_receive_video : silent (server._receive_video W).
Proof. silence keeps_receive_video. Qed.

Lemma silent_time : silent (server.time_time W).
Proof. silence keeps_time. Qed.

Lemma silent_dispatch_tasks processing metadata metrics path :
  silent (server.dispatch_tasks W processing metadata metrics path).
Proof. silence keeps_dispatch_tasks. Qed.

Lemma silent_publish_metadata handshake props :
  silent (server.publish_metadata W handshake props).
Proof. silence keeps_publish_metadata. Qed.

Lemma silent_get_celery_results tasks : silent (server.get_celery_results W tasks).
Proof. silence keeps_get_celery_results. Qed.

Lemma silent_process_results results tasks originals props path codec metrics callback :
  silent (server.process_results W results tasks originals props path codec metrics
            callback).
Proof. silence keeps_process_results. Qed.

Lemma silent_publish_completed : silent (server.publish_completed W).
Proof. silence keeps_publish_completed. Qed.

Lemma silent_read_video_file path : silent (server._read_video_file path).
Proof. silence keeps_read_video_file. Qed.

Lemma from_sent_bind {A B} (pre : list server.item) (m : server.M A) (k : A -> server.M B)
    (Q1 : result A -> list server.item -> Prop) (Q : result B -> list server.item -> Prop) :
  server.from_sent pre m Q1 ->
  (forall e l, Q1 (Raise e) l -> Q (Raise e) l) ->
  (forall a l, Q1 (Return a) l -> server.from_sent l (k a) Q) ->
  server.from_sent pre (server.bind m k) Q.
Proof.
  intros Hm He Hk s Hs. specialize (Hm s Hs). unfold server.bind.
  destruct (m s) as [[a|e] s1]; simpl in *; [by apply (Hk a _ Hm)|by apply He].
Qed.

Lemma from_sent_silent {A B} (pre : list server.item) (m : server.M A) (k : A -> server.M B)
    (Q : result B -> list server.item -> Prop) :
  silent m ->
  (forall e, Q (Raise e) pre) ->
  (forall a, server.from_sent pre (k a) Q) ->
  server.from_sent pre (server.bind m k) Q.
Proof.
  intros Hm He Hk.
  apply (from_sent_bind pre m k (fun _ l => l = pre)).
  - intros s Hs. by apply (Hm pre).
  - by intros e l ->.
  - by intros a l ->.
Qed.

Lemma from_sent_write (pre : list server.item) (x : server.item)
    (Q : result unit -> list server.item -> Prop) :
  (forall e, Q (Raise e) pre) ->
  Q (Return tt) (pre ++ [x]) ->
  server.from_sent pre (server.write_drain W x) Q.
Proof.
  intros He Hr s Hs. unfold server.write_drain.
  destruct (server.write_fails W (server.writes s)); destruct s; simpl in *; by subst.
Qed.

Lemma from_sent_send (pre : list server.item) (m : json)
    (Q : result unit -> list server.item -> Prop) :
  (forall e, Q (Raise e) pre) ->
  Q (Return tt) (pre ++ [server.Message m]) ->
  server.from_sent pre (server._send_message W m) Q.
Proof.
  intros He Hr. unfold server._send_message.
  apply (from_sent_bind pre _ _ (fun _ l => l = pre)).
  { by intros s Hs. }
  { by intros e l ->. }
  intros payload l ->.
  apply (from_sent_bind pre _ _ (fun _ l => l = pre)).
  { by intros s Hs. }
  { by intros e l ->. }
  intros length l ->. by apply from_sent_write.
Qed.

Lemma from_sent_send_bind {B} (pre : list server.item) (m : json) (k : unit -> server.M B)
    (Q : result B -> list server.item -> Prop) :
  (forall e, Q (Raise e) pre) ->
  server.from_sent (pre ++ [server.Message m]) (k tt) Q ->
  server.from_sent pre (server.bind (server._send_message W m) k) Q.
Proof.
  intros He Hk.
  apply (from_sent_bind pre _ _
           (fun r l => match r with
                       | Return _ => l = pre ++ [server.Message m]
                       | Raise _ => l = pre
                       end)).
  - by apply from_sent_send.
  - by intros e l ->.
  - by intros [] l ->.
Qed.

(** [process_results] returns the dict [_process_results_sync] builds:
    [ok] is [True]. *)
Lemma process_results_returns results tasks originals props path codec metrics callback
    (s s' : server.state) (res : list (string * json)) :
  server.process_results W results tasks originals props path codec metrics callback s
    = (Return res, s') ->
  exists summary,
    res = [("ok", JBool true); ("output_path", JStr path); ("metrics", summary)].
Proof.
  unfold server.process_results, server._process_results_sync. intros Hrun.
  apply bind_returns in Hrun as ([fb metrics'] & s1 & _ & Hrun).
  apply bind_returns in Hrun as (fb' & s2 & _ & Hrun).
  apply bind_returns in Hrun as (? & s3 & _ & Hrun).
  apply bind_returns in Hrun as (t & s4 & _ & Hrun).
  apply bind_returns in Hrun as (t' & s5 & _ & Hrun).
  apply bind_returns in Hrun as (summary & s6 & _ & Hrun).
  injection Hrun as <- _. eauto.
Qed.

(** What [handle_session] has written when it returns and when it
    raises. *)
#[local] Abbreviation session_post pre :=
  (fun (r : result unit) (l : list server.item) =>
     match r with
     | Return _ => exists new, server.complete W new /\ l = pre ++ new
     | Raise _ => exists begun, server.cut_short W begun /\ l = pre ++ begun
     end).

Lemma session_sends (handshake : list (string * json)) (pre : list server.item) :
  server.from_sent pre (server.handle_session W handshake) (session_post pre).
Proof.
  unfold server.handle_session.
  apply from_sent_send_bind.
  { intros e. exists []. split; [by left|by rewrite app_nil_r]. }
  assert (Hcut : forall e, session_post pre (Raise e) (pre ++ [server.acknowledgement W])).
  { intros e. exists [server.acknowledgement W]. split; [right; by left|done]. }
  apply from_sent_silent; [apply silent_receive_video|done|intros video_path].
  apply from_sent_silent; [apply silent_time|done|intros t0].
  apply from_sent_silent; [apply silent_dispatch_tasks|done|].
  intros [[[tasks originals] props] metrics].
  apply from_sent_silent; [apply silent_publish_metadata|done|intros _].
  apply from_sent_silent; [apply silent_get_celery_results|done|intros all_results].
  eapply (from_sent_bind _ _ _
            (fun r l => l = pre ++ [server.acknowledgement W] /\
                        forall res, r = Return res ->
                          exists summary, res = [("ok", JBool true);
                                                 ("output_path", JStr (server.output_path W));
                                                 ("metrics", summary)])).
  { intros s Hs. split.
    - by apply silent_process_results.
    - intros res Hres.
      destruct (server.process_results _ _ _ _ _ _ _ _ _ s) as [r s'] eqn:E.
      simpl in Hres. subst r. by eapply process_results_returns. }
  { intros e l [-> _]. exact (Hcut e). }
  intros res l [-> Hres]. destruct (Hres res eq_refl) as [summary ->].
  apply from_sent_silent; [|done|intros _].
  { intros l. apply preserves_when, silent_publish_completed. }
  apply from_sent_silent; [apply silent_read_video_file|done|intros video_data].
  change (server.from_sent (pre ++ [server.acknowledgement W])
            (server.bind
               (server._send_message W
                  (messages.make_result (JBool true) (server.output_path W)
                     (messages.len video_data) summary))
               (fun _ => server.write_drain W (server.Bytes video_data)))
            (session_post pre)).
  apply from_sent_send_bind; [done|].
  apply from_sent_write.
  - intros e. exists [server.acknowledgement W; server.announcement W summary video_data].
    split; [right; right; eauto|by rewrite <- app_assoc].
  - exists [server.acknowledgement W; server.announcement W summary video_data;
            server.Bytes video_data].
    split; [unfold server.complete; eauto|by rewrite <- !app_assoc].
Qed.

(** What [handle_try] has written when it returns and when it raises. *)
#[local] Abbreviation try_post pre :=
  (fun (r : result unit) (l : list server.item) =>
     match r with
     | Return _ =>
         (exists new, server.complete W new /\ l = pre ++ new) \/
         l = pre ++ [server.error_item "INVALID_HANDSHAKE" "Se esperaba handshake"]
     | Raise _ => exists begun, server.cut_short W begun /\ l = pre ++ begun
     end).

Lemma handle_try_sends (pre : list server.item) :
  server.from_sent pre (server.handle_try W) (try_post pre).
Proof.
  assert (Hnone : forall e, try_post pre (Raise e) pre).
  { intros e. exists []. split; [by left|by rewrite app_nil_r]. }
  assert (Herr : server.from_sent pre
                   (server._send_error W "INVALID_HANDSHAKE" "Se esperaba handshake")
                   (try_post pre)).
  { apply from_sent_send; [done|by right]. }
  unfold server.handle_try.
  apply from_sent_silent; [apply silent_recv_message|done|intros handshake].
  destruct (negb (truthy handshake)); [done|].
  destruct handshake as [| | | | | |d];
    try (intros st Hst; simpl; subst pre; exact (Hnone AttributeError)).
  change (server.from_sent pre
            (if negb (server.is_handshake (dict_get d "type"))
             then server._send_error W "INVALID_HANDSHAKE" "Se esperaba handshake"
             else server.handle_session W d) (try_post pre)).
  destruct (negb (server.is_handshake (dict_get d "type"))); [done|].
  intros s Hs. pose proof (session_sends d pre s Hs) as Hsession.
  destruct (server.handle_session W d s) as [[[]|e] s1]; simpl in *; [by left|done].
Qed.

(** X25: the server's side of every conversation.  Whatever the client
    sends and whatever fails, [handle] writes the acknowledgement, the
    [result] message and the video, in this order and each at most once,
    stops at the first step that fails, and then writes at most one
    [error] message; it never writes an [error] after the video.  The
    [result] message always has [ok] true and announces exactly the
    number of bytes that follow it. *)
Theorem handle_writes_a_conversation (s : server.state) :
  exists new,
    server.sent (snd (server.handle W s)) = server.sent s ++ new /\
    server.conversation W new.
Proof.
  unfold server.handle, server.try_finally, server.try_except, server.writer_close.
  pose proof (handle_try_sends (server.sent s) s eq_refl) as Htry.
  destruct (server.handle_try W s) as [[[]|e] s1]; simpl in Htry.
  - destruct Htry as [(new & Hnew & Hs1)|Hs1]; simpl.
    + exists new. split; [by destruct s1|by left].
    + eexists. split; [by destruct s1|]. right. exists []. split; [by left|].
      right. exists "INVALID_HANDSHAKE", "Se esperaba handshake". split; [set_solver|done].
  - destruct Htry as (begun & Hbegun & Hs1).
    pose proof (from_sent_send (server.sent s1)
                  (messages.make_error "PROCESSING_ERROR" (worker.exn_str e) false)
                  (fun _ l => l = server.sent s1 \/
                              l = server.sent s1
                                  ++ [server.error_item "PROCESSING_ERROR" (worker.exn_str e)])
                  (fun _ => or_introl eq_refl) (or_intror eq_refl) s1 eq_refl) as Hsend.
    unfold server._send_error.
    destruct (server._send_message W _ s1) as [r2 s2]. simpl in Hsend.
    assert (Hs2 : server.sent (snd (let (_, s'') := (Return tt, server.with_closed s2) in
                                    (r2, s'')))
                  = server.sent s2) by (by destruct s2).
    destruct Hsend as [Hsend|Hsend].
    + exists begun. split.
      * destruct r2; destruct s2; simpl in *; congruence.
      * right. exists begun. split; [done|by left].
    + exists (begun ++ [server.error_item "PROCESSING_ERROR" (worker.exn_str e)]). split.
      * rewrite app_assoc, <- Hs1. destruct r2; destruct s2; simpl in *; congruence.
      * right. exists begun. split; [done|]. right.
        exists "PROCESSING_ERROR", (worker.exn_str e). split; [set_solver|done].
Qed.

End SessionFacts.

(** ** The theorems at concrete sessions *)

Lemma handle_keeps_keys_of_other_sessions_witness :
  server.redis
    (snd (server.handle (H := ref.opencv) (H0 := ref.json_lib) (H1 := ref.py_format)
            (examples.world ref.filters_identity) examples.client_beside_other))
    !! examples.other_status
  = server.redis examples.client_beside_other !! examples.other_status.
Proof.
  apply (handle_keeps_keys_of_other_sessions (H := ref.opencv) (H0 := ref.json_lib)
           (H1 := ref.py_format) (examples.world ref.filters_identity)
           examples.client_beside_other examples.other_status).
  reflexivity.
Defined.

(** The session behind the witness: it completes, stores its own status
    without a time to live, and the other session's key is as it was. *)
Example session_beside_another :
  let W := examples.world ref.filters_identity in
  let s' := snd (server.handle (H := ref.opencv) (H0 := ref.json_lib) (H1 := ref.py_format)
                   W examples.client_beside_other) in
  server.redis s' !! examples.other_status = Some ("processing", Some 3600) /\
  server.redis s' !! server.session_key W "status" = Some ("completed", None) /\
  (exists metrics,
     server.sent s' = [server.acknowledgement W;
                       server.announcement W metrics
                         [Byte.x07; Byte.x07; Byte.x07; Byte.x08; Byte.x08; Byte.x08];
                       server.Bytes [Byte.x07; Byte.x07; Byte.x07;
                                     Byte.x08; Byte.x08; Byte.x08]]).
Proof.
  split; [by vm_compute|]. split; [by vm_compute|].
  eexists. vm_compute. reflexivity.
Qed.

(* ===================================================================== *)
(** * Theorems: from the results to the output video *)
(* ===================================================================== *)

Section InOrder.
Context `{OpenCV}.

(** On a reliable encoder a [write] appends the fitted frame. *)
Lemma write_holds (w : writer.VideoWriter) (f : Frame) (sz : Z * Z) (frames : list Frame) :
  writer.reliable -> writer.frame_size w = Some sz -> writer.holds w frames ->
  exists w', writer.write w f = (Return true, w') /\
    writer.frame_size w' = Some sz /\
    writer.holds w' (frames ++ [writer.fit_to sz f]) /\
    writer.is_open w' = true /\
    writer.output_path w' = writer.output_path w /\
    writer.fourcc_str w' = writer.fourcc_str w /\
    writer.fps w' = writer.fps w.
Proof.
  intros [Hopens Hnr] Hsz Hh.
  unfold writer.write, writer.open, writer.fit, writer.holds in *.
  destruct (writer.is_open w) eqn:Ho, (writer.writer w) as [cv|] eqn:Hw; try done.
  - subst cv. rewrite Hsz. simpl. rewrite Hnr.
    eexists. split; [done|]. simpl. by rewrite Ho.
  - subst frames. rewrite Hsz, Hopens. simpl. rewrite Hnr.
    eexists. split; [done|]. by simpl.
Qed.

(** A frame added at the cursor of an empty buffer is written at once. *)
Lemma add_frame_in_order (fb : writer.VideoFrameBuffer) (f : Frame) (sz : Z * Z)
    (frames : list Frame) :
  writer.reliable ->
  writer.frame_size (writer.fb_writer fb) = Some sz ->
  writer.holds (writer.fb_writer fb) frames ->
  writer.buffer fb = ∅ ->
  exists fb', writer.add_frame fb (writer.next_frame_number fb) f = (Return 1, fb') /\
    writer.buffer fb' = ∅ /\
    writer.next_frame_number fb' = writer.next_frame_number fb + 1 /\
    writer.frame_size (writer.fb_writer fb') = Some sz /\
    writer.holds (writer.fb_writer fb') (frames ++ [writer.fit_to sz f]) /\
    writer.is_open (writer.fb_writer fb') = true /\
    writer.output_path (writer.fb_writer fb') = writer.output_path (writer.fb_writer fb) /\
    writer.fourcc_str (writer.fb_writer fb') = writer.fourcc_str (writer.fb_writer fb) /\
    writer.fps (writer.fb_writer fb') = writer.fps (writer.fb_writer fb).
Proof.
  intros Hr Hsz Hh Hb.
  destruct (write_holds _ f sz frames Hr Hsz Hh) as (w' & Hw & Hrest).
  unfold writer.add_frame. rewrite Hb. cbn [writer.buffer].
  rewrite insert_empty, map_size_singleton.
  cbn [writer.drain writer.buffer writer.next_frame_number].
  rewrite lookup_singleton_eq. unfold writer.emit.
  cbn [writer.fb_writer writer.buffer writer.next_frame_number writer.handed].
  rewrite Hw. rewrite delete_singleton_eq.
  cbn [writer.buffer writer.next_frame_number]. rewrite lookup_empty.
  eexists. split; [done|]. by simpl.
Qed.

(** [flush_remaining] on an empty buffer writes black frames only. *)
Lemma flush_loop_black (w h : Z) (black : Frame) (passes : nat) :
  writer.reliable ->
  np_zeros h w = Return black ->
  forall (fb : writer.VideoFrameBuffer) (written : Z) (frames : list Frame),
    writer.frame_size (writer.fb_writer fb) = Some (w, h) ->
    writer.holds (writer.fb_writer fb) frames ->
    writer.buffer fb = ∅ ->
    exists n fb', writer.flush_loop passes fb written = (Return n, fb') /\
      writer.frame_size (writer.fb_writer fb') = Some (w, h) /\
      writer.holds (writer.fb_writer fb')
        (frames ++ replicate passes (writer.fit_to (w, h) black)) /\
      writer.output_path (writer.fb_writer fb') = writer.output_path (writer.fb_writer fb) /\
      writer.fourcc_str (writer.fb_writer fb') = writer.fourcc_str (writer.fb_writer fb) /\
      writer.fps (writer.fb_writer fb') = writer.fps (writer.fb_writer fb).
Proof.
  intros Hr Hz. induction passes as [|passes IH]; intros fb written frames Hsz Hh Hb.
  { exists written, fb. simpl. by rewrite app_nil_r. }
  cbn [writer.flush_loop]. rewrite Hb, lookup_empty, Hsz, Hz.
  destruct (write_holds _ black (w, h) frames Hr Hsz Hh)
    as (w' & Hw & Hsz' & Hh' & _ & Hp & Hc & Hf).
  unfold writer.emit. rewrite Hw, Hb, delete_empty.
  set (fb1 := writer.mkBuffer _ _ _ _).
  destruct (IH fb1 (written + 1) _ Hsz' Hh' eq_refl)
    as (n & fb' & -> & Hsz'' & Hh'' & Hp' & Hc' & Hf').
  exists n, fb'. split; [done|]. rewrite <- app_assoc in Hh''.
  split; [done|]. split; [done|]. subst fb1. simpl in *. by rewrite Hp', Hc', Hf'.
Qed.

End InOrder.

Section Pipeline.
Context `{OpenCV} `{JSONLib} `{PyFormat}.
Variable W : server.World.

(** The frame the results loop takes for each result, by [choose_frame]
    on the volume [f]. *)
#[local] Abbreviation chosen_by f originals props :=
  (Forall2 (fun (ri : result json * Z) (frame : Frame) =>
              exists stats is_fallback,
                server.choose_frame f originals props ri.2 ri.1
                = Return (frame, stats, is_fallback))).

Lemma results_loop_in_order (originals : gmap Z Frame) (props : VideoProps) (sz : Z * Z) :
  writer.reliable ->
  forall (all_results : list (result json)) (k : Z) (fb fb' : writer.VideoFrameBuffer)
         (metrics metrics' : stats.MetricsCollector float) (s s1 : server.state)
         (frames : list Frame),
    writer.frame_size (writer.fb_writer fb) = Some sz ->
    writer.holds (writer.fb_writer fb) frames ->
    writer.buffer fb = ∅ ->
    writer.next_frame_number fb = k ->
    server.results_loop (zip all_results (seqZ k (Z.of_nat (length all_results))))
      originals props fb metrics s = (Return (fb', metrics'), s1) ->
    server.fs s1 = server.fs s /\
    exists chosen,
      chosen_by (server.fs s) originals props
        (zip all_results (seqZ k (Z.of_nat (length all_results)))) chosen /\
      writer.frame_size (writer.fb_writer fb') = Some sz /\
      writer.holds (writer.fb_writer fb') (frames ++ (writer.fit_to sz <$> chosen)) /\
      writer.buffer fb' = ∅ /\
      writer.next_frame_number fb' = k + Z.of_nat (length all_results) /\
      writer.output_path (writer.fb_writer fb') = writer.output_path (writer.fb_writer fb) /\
      writer.fourcc_str (writer.fb_writer fb') = writer.fourcc_str (writer.fb_writer fb) /\
      writer.fps (writer.fb_writer fb') = writer.fps (writer.fb_writer fb).
Proof.
  intros Hr. induction all_results as [|r rs IH];
    intros k fb fb' metrics metrics' s s1 frames Hsz Hh Hb Hk Hrun.
  { simpl in Hrun. injection Hrun as <- <- <-.
    split; [done|]. exists []. rewrite app_nil_r.
    split_and!; try done; first [constructor|simpl; lia]. }
  cbn [length] in *. rewrite Nat2Z.inj_succ, seqZ_cons in * by lia.
  replace (Z.pred (Z.succ (Z.of_nat (length rs)))) with (Z.of_nat (length rs)) in * by lia.
  cbn [zip zip_with server.results_loop] in *.
  apply bind_returns in Hrun as (f & sa & Hf & Hrun). injection Hf as <- <-.
  apply bind_returns in Hrun as ([[frame stats] is_fallback] & sb & Hc & Hrun).
  unfold server.lift in Hc. injection Hc as Hc <-.
  subst k.
  destruct (add_frame_in_order fb frame sz frames Hr Hsz Hh Hb)
    as (fb1 & Hadd & Hb1 & Hn1 & Hsz1 & Hh1 & _ & Hp1 & Hc1 & Hf1).
  rewrite Hadd in Hrun.
  apply bind_returns in Hrun as (fb1' & sc & Hret & Hrun). injection Hret as <- <-.
  apply bind_returns in Hrun as (time_ms & sd & Ht & Hrun).
  unfold server.lift in Ht. injection Ht as _ <-.
  apply bind_returns in Hrun as (memory & se & Hm & Hrun).
  unfold server.lift in Hm. injection Hm as _ <-.
  apply bind_returns in Hrun as (u & sf & Hw & Hrun).
  assert (Hfs : server.fs sf = server.fs s).
  { unfold server.when, server.print, server.ret in Hw.
    destruct (bool_decide _); injection Hw as _ <-; by destruct s. }
  destruct (IH _ _ _ _ _ _ _ _ Hsz1 Hh1 Hb1 (eq_sym (eq_sym Hn1)) Hrun)
    as (Hfs1 & chosen & Hchosen & Hsz' & Hh' & Hb' & Hn' & Hp' & Hc' & Hf').
  split; [congruence|]. exists (frame :: chosen). split_and!; try done; try congruence.
  - constructor; [by eauto|]. rewrite Hfs in Hchosen.
    by replace (Z.succ (writer.next_frame_number fb))
      with (writer.next_frame_number fb + 1) by lia.
  - by rewrite <- app_assoc in Hh'.
  - lia.
Qed.

(** X27: the output video holds one frame for each result, in the order
    of the tasks.  With tasks numbered 0, 1, 2, ... as the dispatcher
    numbers them and an encoder that opens and takes every frame, when
    [_process_results_sync] returns the file at [output_path] is the
    container of: for each result, the frame the loop chose for it
    (processed, the original, or black), resized to the declared size
    where it differs; followed by one black frame for each index up to
    [total_frames] that has no task. *)
Theorem output_video_has_one_frame_per_result
    (all_results : list (result json)) (original_frames : gmap Z Frame)
    (video_props : VideoProps) (output_path : string) (codec : json)
    (metrics : stats.MetricsCollector float) (s s' : server.state)
    (res : list (string * json)) :
  writer.reliable ->
  0 <= vp_width video_props -> 0 <= vp_height video_props ->
  all_results <> [] ->
  server._process_results_sync W all_results (seqZ 0 (Z.of_nat (length all_results)))
    original_frames video_props output_path codec metrics s = (Return res, s') ->
  exists (chosen : list Frame) (black : Frame),
    chosen_by (server.fs s) original_frames video_props
      (zip all_results (seqZ 0 (Z.of_nat (length all_results)))) chosen /\
    np_zeros (vp_height video_props) (vp_width video_props) = Return black /\
    server.fs s' !! output_path
    = Some (FRaw (cv_container (str_of codec) (vp_fps video_props)
                    (vp_width video_props, vp_height video_props)
                    (writer.fit_to (vp_width video_props, vp_height video_props)
                     <$> (chosen
                          ++ replicate
                               (Z.to_nat (vp_total_frames video_props
                                          - Z.of_nat (length all_results)))
                               black)))).
Proof.
  intros Hr Hw Hh Hne Hrun. unfold server._process_results_sync in Hrun.
  set (sz := (vp_width video_props, vp_height video_props)) in *.
  apply bind_returns in Hrun as ([fb metrics1] & s1 & Hloop & Hrun).
  apply (results_loop_in_order _ _ sz Hr _ 0 _ _ _ _ _ _ []) in Hloop
    as (Hfs1 & chosen & Hchosen & Hsz1 & Hh1 & Hb1 & Hn1 & Hp1 & Hc1 & Hf1);
    [|done..].
  destruct (np_zeros_returns _ _ Hh Hw) as [black Hblack].
  unfold writer.flush_remaining in Hrun.
  destruct (flush_loop_black _ _ black
              (Z.to_nat (vp_total_frames video_props - writer.next_frame_number fb))
              Hr Hblack fb 0 _ Hsz1 Hh1 Hb1)
    as (n & fb2 & Hflush & Hsz2 & Hh2 & Hp2 & Hc2 & Hf2).
  rewrite Hflush in Hrun.
  apply bind_returns in Hrun as (fb2' & s2 & Hret & Hrun). injection Hret as <- <-.
  apply bind_returns in Hrun as (u & s3 & Hfile & Hrun). injection Hfile as _ <-.
  apply bind_returns in Hrun as (t & s4 & Ht & Hrun). injection Ht as _ <-.
  apply bind_returns in Hrun as (t' & s5 & Ht' & Hrun). injection Ht' as _ <-.
  apply bind_returns in Hrun as (summary & s6 & Hsum & Hrun).
  unfold server.lift in Hsum. injection Hsum as _ <-.
  injection Hrun as _ <-.
  exists chosen, black. split; [done|]. split; [done|].
  rewrite Hn1 in Hh2. simpl in Hh2. rewrite Z.add_0_l in Hh2.
  rewrite fmap_app, fmap_replicate.
  assert (Hlen : chosen <> []).
  { intros ->. apply Forall2_length in Hchosen. destruct all_results; [done|].
    simpl in Hchosen. rewrite Nat2Z.inj_succ, seqZ_cons in Hchosen by lia. done. }
  set (frames := (writer.fit_to sz <$> chosen) ++ _) in *.
  assert (Hframes : frames <> []) by (subst frames; by destruct chosen).
  unfold writer.holds in Hh2.
  destruct s1 as [rd sn wr cl rs ro tk f q c]. simpl in *.
  unfold server.output_file, writer.close.
  destruct (writer.is_open (writer.fb_writer fb2)) eqn:Ho,
    (writer.writer (writer.fb_writer fb2)) as [cv|] eqn:Hcv; try done.
  subst cv. simpl. rewrite Hsz2. simpl.
  rewrite Hp2, Hp1, Hc2, Hc1, Hf2, Hf1. simpl.
  by rewrite lookup_insert_eq.
Qed.

End Pipeline.

(** ** The theorem at concrete results *)

Lemma output_video_has_one_frame_per_result_witness :
  exists (chosen : list Frame) (black : Frame),
    Forall2 (fun (ri : result json * Z) (frame : Frame) =>
               exists stats is_fallback,
                 server.choose_frame (server.fs (server.with_fs (snd examples.blur_run)
                                                   (server.initial [])))
                   examples.two_originals examples.three_declared ri.2 ri.1
                 = Return (frame, stats, is_fallback))
      (zip examples.two_results (seqZ 0 (Z.of_nat (length examples.two_results)))) chosen /\
    np_zeros (vp_height examples.three_declared) (vp_width examples.three_declared)
      = Return black /\
    server.fs (snd examples.results_run) !! "output_ab12cd34.mp4"
    = Some (FRaw (cv_container (OpenCV := ref.opencv) (str_of (H := ref.py_format) (JStr "mp4v"))
                    (vp_fps examples.three_declared)
                    (vp_width examples.three_declared, vp_height examples.three_declared)
                    (writer.fit_to (H := ref.opencv)
                       (vp_width examples.three_declared, vp_height examples.three_declared)
                     <$> (chosen
                          ++ replicate
                               (Z.to_nat (vp_total_frames examples.three_declared
                                          - Z.of_nat (length examples.two_results)))
                               black)))).
Proof.
  apply (output_video_has_one_frame_per_result (H := ref.opencv) (H1 := ref.py_format)
           examples.plain_world examples.two_results examples.two_originals
           examples.three_declared "output_ab12cd34.mp4" (JStr "mp4v") (stats.init 0%float)
           (server.with_fs (snd examples.blur_run) (server.initial []))
           (snd examples.results_run) examples.results_dict);
    [split; intros; reflexivity | done | done | done | by vm_compute].
Defined.

(** The file behind the witness: the processed frame of task 0, the
    original of task 1 (whose files never appeared) resized to 1x1, and a
    black frame for the third declared index. *)
Example results_run_output :
  server.fs (snd examples.results_run) !! "output_ab12cd34.mp4"
  = Some (FRaw (cv_container (OpenCV := ref.opencv) "mp4v" 30%float (1, 1)
                  [examples.frame_small; mkFrame 1 1 [20; 21; 22]; mkFrame 1 1 [0; 0; 0]])).
Proof. by vm_compute. Qed.

(* ===================================================================== *)
(** * Theorems: the upload *)
(* ===================================================================== *)

Lemma readexactly_data (segs : list (list Byte.byte)) :
  forall n : nat,
    (n <= length (concat segs))%nat ->
    exists segs',
      server.readexactly (messages.Data <$> segs) n
        = (Return (take n (concat segs)), messages.Data <$> segs') /\
      concat segs' = drop n (concat segs).
Proof.
  induction segs as [|d segs IH]; intros [|n] Hn.
  - by exists [].
  - simpl in Hn. lia.
  - by exists (d :: segs).
  - cbn [concat] in Hn. rewrite length_app in Hn.
    cbn [fmap list_fmap server.readexactly concat].
    destruct (Nat.ltb_spec (length d) (S n)) as [Hlt|Hge].
    + destruct (IH (S n - length d)%nat ltac:(lia)) as (segs' & Hread & Hrest).
      fold (fmap (M := list) messages.Data segs). rewrite Hread.
      exists segs'. split.
      * by rewrite take_app_ge by lia.
      * by rewrite drop_app_ge by lia.
    + exists (drop (S n) d :: segs). split.
      * by rewrite take_app_le by lia.
      * simpl. by rewrite drop_app_le by lia.
Qed.

Lemma read_to_eof_data (segs : list (list Byte.byte)) :
  server.read_to_eof (messages.Data <$> segs) = (Return (concat segs), []).
Proof.
  induction segs as [|d segs IH]; [done|].
  cbn [fmap list_fmap server.read_to_eof concat].
  fold (fmap (M := list) messages.Data segs). by rewrite IH.
Qed.

Section Upload.
Context `{OpenCV} `{JSONLib} `{PyFormat}.
Variable W : server.World.

(** X28: the upload arrives whole.  What a client sends with
    [send_message(handshake)] followed by [sendall(video)] and a close of
    its sending side is read by the server, however the bytes are cut on
    the way, as that handshake by [_recv_message] and then as exactly the
    bytes of the video by [_receive_video], which stores them under
    [input_<session_id>.mp4] and leaves nothing unread. *)
Theorem server_receives_handshake_and_video
    (handshake : json) (video : list Byte.byte) (segs : list (list Byte.byte))
    (s : server.state) :
  message_stream.transmissible handshake ->
  concat segs
    = messages.outgoing
        (snd (messages.sendall
                (snd (messages.send_message (messages.mkSocket [] [] false) handshake))
                video)) ->
  server.reader s = messages.Data <$> segs ->
  exists s1 s2,
    server._recv_message s = (Return handshake, s1) /\
    server._receive_video W s1 = (Return (server.input_path W), s2) /\
    server.fs s2 = <[server.input_path W := FRaw video]> (server.fs s) /\
    server.reader s2 = [].
Proof.
  intros (payload & Hd & Hu & Hl & Hn) Hcat Hreader.
  destruct (send_message_wire (messages.mkSocket [] [] false) handshake payload Hd)
    as (b3 & b2 & b1 & b0 & Hun & Hsend);
    [unfold messages.max_message in Hn; lia|done|].
  rewrite Hsend in Hcat. unfold messages.sendall in Hcat. simpl in Hcat.
  destruct (readexactly_data segs 4) as (segs1 & Hread1 & Hrest1).
  { rewrite Hcat. simpl. lia. }
  rewrite Hcat in Hread1, Hrest1. simpl in Hread1, Hrest1.
  rewrite take_0 in Hread1. rewrite drop_0 in Hrest1.
  destruct (readexactly_data segs1 (length payload)) as (segs2 & Hread2 & Hrest2).
  { rewrite Hrest1, length_app. lia. }
  rewrite Hrest1, take_app_length in Hread2. rewrite Hrest1, drop_app_length in Hrest2.
  destruct s as [rd sn wr cl rs ro tk f q c]. simpl in Hreader. subst rd.
  eexists _, _. split_and!.
  - unfold server._recv_message, server.try_except, server.bind, server.lift,
      server.reader_readexactly. cbn [server.reader].
    change (Z.to_nat 4) with 4%nat. rewrite Hread1. cbv beta iota zeta. rewrite Hun.
    cbv beta iota zeta. cbn [server.reader server.with_reader].
    unfold messages.len. rewrite Nat2Z.id, Hread2. cbv beta iota zeta.
    unfold messages.decode_payload. by rewrite Hu, Hl.
  - unfold server._receive_video, server.bind, server.ret. simpl.
    by rewrite read_to_eof_data.
  - simpl. by rewrite Hrest2.
  - done.
Qed.

End Upload.

Lemma server_receives_handshake_and_video_witness :
  exists s1 s2,
    server._recv_message (H0 := ref.json_lib) examples.uploading
      = (Return examples.handshake, s1) /\
    server._receive_video examples.plain_world s1
      = (Return (server.input_path examples.plain_world), s2) /\
    server.fs s2
    = <[server.input_path examples.plain_world := FRaw examples.two_byte_video]>
        (server.fs examples.uploading) /\
    server.reader s2 = [].
Proof.
  apply (server_receives_handshake_and_video (H0 := ref.json_lib) examples.plain_world
           examples.handshake examples.two_byte_video (examples.cut examples.upload)
           examples.uploading);
    [eexists; split_and!; [vm_compute; reflexivity | by vm_compute..]
    | by vm_compute | reflexivity].
Defined.
